(** * ClientJobsDAO: a shallow embedding of nupic/database/ClientJobsDAO.py

    The data access object talks to a MySQL server through textual
    statements.  The embedding keeps that shape: a table is the list of
    its rows in storage order, a row maps column names to SQL values, and
    every statement the Python code sends is transcribed as a call to a
    small evaluator ([sql_select], [sql_update], and [new_row] with
    [duplicate_entry] for INSERT).  The Python methods are functions in a
    state-and-exception monad over the database.

    Scope of the model.
    - Transient connection faults, and therefore the re-execution done by
      the [g_retrySQL] decorator, are not modelled: every statement is
      executed once and answers.  Logging has no effect and is left out.
    - A statement is atomic.  Where a claim is about a race, the method
      takes the action of the other sessions between two of its statements
      as an argument [env : DB -> DB].
    - The number returned by [cursor.execute] for an UPDATE is the number
      of rows the statement changed, the server's default, which the
      docstrings of [jobSetFields] and [modelSetFields] rely on ("if the
      data to update matched the data in the DB exactly").
    - Comparison of a column with a parameter is equality of SQL values;
      collations, numeric coercion of strings, the range of the integer
      column types, the precision of FLOAT columns and NOT NULL are not
      modelled.  An UPDATE never raises: the server's index check on
      updated key columns is outside the model.
    - An [assert] is always checked. *)

From Stdlib Require Import ZArith String Ascii List Bool Lia.
From Stdlib Require Import Floats.SpecFloat.
From Stdlib Require Import Decimal DecimalString DecimalZ.
From stdpp Require Import base option list gmap strings.

Open Scope string_scope.
Open Scope Z_scope.

(** ** Python exceptions and results *)

Inductive exn : Type :=
| AssertionError
| RuntimeError
| KeyError
| IndexError
| ValueError
| TypeError
| ProgrammingError            (* the server rejects the statement text *)
| DuplicateEntry              (* an error whose text has "Duplicate entry" *)
| InvalidConnectionException
| FuelExhausted.              (* no Python exception: a bounded unrolling of
                                 [while True] came to its end *)

Inductive result (A : Type) : Type :=
| Ok (a : A)
| Raise (e : exn).

Arguments Ok {A} a.
Arguments Raise {A} e.

Definition result_bind {A B} (r : result A) (k : A -> result B) : result B :=
  match r with
  | Ok a => k a
  | Raise e => Raise e
  end.

Module PyStr.

(** Python 2 [str] is a byte string: [string] of 8-bit [ascii]. *)

Definition NUL : ascii := Ascii.zero.

Fixpoint replicate_char (c : ascii) (n : nat) : string :=
  match n with
  | O => EmptyString
  | S n' => String c (replicate_char c n')
  end.

(** [s.split(sep)] for a one-character separator. *)
Fixpoint split (sep : ascii) (s : string) : list string :=
  match s with
  | EmptyString => [EmptyString]
  | String c rest =>
      if Ascii.eqb c sep then EmptyString :: split sep rest
      else match split sep rest with
           | w :: ws => String c w :: ws
           | [] => [String c EmptyString]
           end
  end.

Definition startswith_char (c : ascii) (s : string) : bool :=
  match s with
  | String c' _ => Ascii.eqb c' c
  | EmptyString => false
  end.

Definition is_lower (c : ascii) : bool :=
  let n := nat_of_ascii c in (97 <=? n)%nat && (n <=? 122)%nat.

Definition is_upper (c : ascii) : bool :=
  let n := nat_of_ascii c in (65 <=? n)%nat && (n <=? 90)%nat.

Definition upper_char (c : ascii) : ascii :=
  if is_lower c then ascii_of_nat (nat_of_ascii c - 32) else c.

Definition lower_char (c : ascii) : ascii :=
  if is_upper c then ascii_of_nat (nat_of_ascii c + 32) else c.

Fixpoint upper (s : string) : string :=
  match s with
  | EmptyString => EmptyString
  | String c rest => String (upper_char c) (upper rest)
  end.

Fixpoint lower (s : string) : string :=
  match s with
  | EmptyString => EmptyString
  | String c rest => String (lower_char c) (lower rest)
  end.

(** [''.join(words)] *)
Definition join (words : list string) : string :=
  fold_right String.append EmptyString words.

(** [word[0]], an [IndexError] on the empty string *)
Definition index0 (word : string) : result string :=
  match word with
  | EmptyString => Raise IndexError
  | String c _ => Ok (String c EmptyString)
  end.

(** [word[1:]] *)
Definition from1 (word : string) : string :=
  match word with
  | EmptyString => EmptyString
  | String _ rest => rest
  end.

(** [s.replace(old, new)] for one-character arguments *)
Fixpoint replace_char (old new : ascii) (s : string) : string :=
  match s with
  | EmptyString => EmptyString
  | String c rest =>
      String (if Ascii.eqb c old then new else c) (replace_char old new rest)
  end.

(** [sub in s] *)
Fixpoint contains (sub s : string) : bool :=
  String.prefix sub s
  || match s with
     | EmptyString => false
     | String _ rest => contains sub rest
     end.

(** [s.partition(sep)] for a one-character separator *)
Fixpoint partition (sep : ascii) (s : string) : string * string * string :=
  match s with
  | EmptyString => (EmptyString, EmptyString, EmptyString)
  | String c rest =>
      if Ascii.eqb c sep then (EmptyString, String sep EmptyString, rest)
      else let '(head, mid, tail) := partition sep rest in (String c head, mid, tail)
  end.

(** The position a slice bound [i] stands for in a sequence of [len] items:
    a negative bound counts from the end, and every bound is brought into
    [0 .. len]. *)
Definition slice_index (len : nat) (i : Z) : nat :=
  if i <? 0 then Z.to_nat (Z.of_nat len + i) else Nat.min (Z.to_nat i) len.


(** ['%d' % z] *)
Definition format_d (z : Z) : string := NilEmpty.string_of_int (Z.to_int z).

End PyStr.

(** ** [_abbreviate] *)


(** ** Constants of the class *)

Definition HASH_MAX_LEN : nat := 16.
Definition CLIENT_MAX_LEN : nat := 8.

Definition STATUS_NOTSTARTED := "notStarted".
Definition STATUS_STARTING := "starting".
Definition STATUS_RUNNING := "running".
Definition STATUS_TESTMODE := "testMode".
Definition STATUS_COMPLETED := "completed".

Definition CMPL_REASON_SUCCESS := "success".
Definition CMPL_REASON_KILLED := "killed".
Definition CLEAN_NOT_DONE := "notdone".

Definition _DB_ROOT_NAME := "client_jobs".
Definition _DB_VERSION : Z := 29.

(** ** The name of the database *)

Definition __getDBNamePrefixForVersion (dbVersion : Z) : string :=
  _DB_ROOT_NAME ++ "_v" ++ PyStr.format_d dbVersion.

Definition dbNamePrefix : string := __getDBNamePrefixForVersion _DB_VERSION.

(** [nameSuffix] is the configured value of
    [nupic.cluster.database.nameSuffix]. *)
Definition __getDBNameForVersion (nameSuffix : string) (dbVersion : Z) : string :=
  let prefix := __getDBNamePrefixForVersion dbVersion in
  let suffix := PyStr.replace_char "-" "_" nameSuffix in
  prefix ++ "_" ++ suffix.

Definition _getDBName (nameSuffix : string) : string :=
  __getDBNameForVersion nameSuffix _DB_VERSION.

(** The databases [_initTables] drops before it creates the current one:
    [for i in range(self._DB_VERSION)] when old versions are to be deleted,
    then [self.dbName] when the tables are to be recreated. *)
Definition dropped_databases (nameSuffix : string) (deleteOldVersions recreate : bool)
    : list string :=
  ((if deleteOldVersions
    then map (fun i => __getDBNameForVersion nameSuffix (Z.of_nat i))
           (seq 0 (Z.to_nat _DB_VERSION))
    else [])
   ++ (if recreate then [_getDBName nameSuffix] else []))%list.

(** ** [_normalizeHash] *)

Definition _normalizeHash (hashValue : string) : result string :=
  let hashLen := String.length hashValue in
  if (hashLen <? HASH_MAX_LEN)%nat then
    Ok (hashValue ++ PyStr.replicate_char PyStr.NUL (HASH_MAX_LEN - hashLen))
  else if (hashLen <=? HASH_MAX_LEN)%nat then Ok hashValue
  else Raise AssertionError.

(** ** [_columnNameDBToPublic] *)

(** The loop [for word in words[1:]: pubWords.append(word[0].upper() + word[1:])] *)
Fixpoint capitalize_words (words : list string) : result (list string) :=
  match words with
  | [] => Ok []
  | word :: rest =>
      result_bind (PyStr.index0 word) (fun c =>
      result_bind (capitalize_words rest) (fun rest' =>
      Ok ((PyStr.upper c ++ PyStr.from1 word) :: rest')))
  end.

Definition _columnNameDBToPublic (dbName : string) : result string :=
  let words := PyStr.split "_" dbName in
  let words := if PyStr.startswith_char "_" dbName then tail words else words in
  match words with
  | [] => Raise IndexError
  | w0 :: ws =>
      result_bind (capitalize_words ws) (fun pubWords =>
      Ok (PyStr.join (w0 :: pubWords)))
  end.

(** The public-name rule in the words of the specification: strip one
    leading underscore, cut at the underscores, write the first segment in
    lower case and give every later segment a capital first letter. *)
Definition capitalize_spec (seg : string) : string :=
  match seg with
  | EmptyString => EmptyString
  | String c rest => String (PyStr.upper_char c) rest
  end.

Definition lowerCamelCase_spec (storageName : string) : string :=
  let stripped :=
    match storageName with
    | String "_" rest => rest
    | _ => storageName
    end in
  match PyStr.split "_" stripped with
  | [] => EmptyString
  | first :: others => PyStr.join (PyStr.lower first :: map capitalize_spec others)
  end.

(** ** SQL values, rows and tables *)

Inductive value : Type :=
| VNull
| VInt (z : Z)
| VStr (s : string)
| VFloat (f : spec_float)
| VTime (t : Z).

#[global] Instance spec_float_eq_dec : EqDecision spec_float.
Proof. solve_decision. Defined.

#[global] Instance value_eq_dec : EqDecision value.
Proof. solve_decision. Defined.

(** The Python values handed to [cursor.execute] as statement parameters. *)
Inductive pyval : Type :=
| PNone
| PBool (b : bool)
| PInt (z : Z)
| PStr (s : string)
| PFloat (f : spec_float)
| PTime (t : Z).

#[global] Instance pyval_eq_dec : EqDecision pyval.
Proof. solve_decision. Defined.

(** The driver's conversion of a parameter: [None] is NULL, [True] and
    [False] are 1 and 0. *)
Definition to_sql (p : pyval) : value :=
  match p with
  | PNone => VNull
  | PBool b => VInt (if b then 1 else 0)
  | PInt z => VInt z
  | PStr s => VStr s
  | PFloat f => VFloat f
  | PTime t => VTime t
  end.

(** The driver's decoding of a fetched value. *)
Definition of_sql (v : value) : pyval :=
  match v with
  | VNull => PNone
  | VInt z => PInt z
  | VStr s => PStr s
  | VFloat f => PFloat f
  | VTime t => PTime t
  end.

(** A row maps a column name to its value; [col] reads a column. *)
Abbreviation row := (gmap string value).

Definition col (r : row) (c : string) : value := default VNull (r !! c).

(** [a = b] in a WHERE clause: never true on NULL. *)
Definition sql_eq (a b : value) : bool :=
  match a, b with
  | VNull, _ | _, VNull => false
  | _, _ => bool_decide (a = b)
  end.

(** [a IS TRUE] and [a IS FALSE]: a number that is not 0, that is 0; never
    true on NULL. *)
Definition sql_is_bool (b : bool) (a : value) : bool :=
  match a with
  | VInt z => if b then negb (z =? 0) else (z =? 0)
  | _ => false
  end.

Definition sql_is_null (a : value) : bool :=
  match a with
  | VNull => true
  | _ => false
  end.

Definition sql_in (a : value) (vs : list value) : bool := existsb (sql_eq a) vs.

(** [TIMESTAMPDIFF(SECOND, a, b) > bound] *)
Definition sql_timestampdiff_gt (a b : value) (bound : Z) : bool :=
  match a, b with
  | VTime ta, VTime tb => bound <? tb - ta
  | _, _ => false
  end.

(** [a <> b] and [a != b]: never true on NULL. *)
Definition sql_ne (a b : value) : bool :=
  match a, b with
  | VNull, _ | _, VNull => false
  | _, _ => negb (bool_decide (a = b))
  end.

(** The right-hand sides that occur in the SET clauses of the module. *)
Inductive expr : Type :=
| EParam (p : pyval)            (* %s *)
| EDefault                      (* DEFAULT *)
| EUtcTimestamp                 (* UTC_TIMESTAMP() *)
| EPlus (c : string) (d : Z).   (* c + d *)

(** [a + d]: NULL stays NULL; only integers are added in this model. *)
Definition sql_plus (a : value) (d : Z) : value :=
  match a with
  | VInt z => VInt (z + d)
  | _ => VNull
  end.

Record Schema : Type := mkSchema {
  sch_columns : list (string * value);   (* column, DEFAULT *)
  sch_auto_increment : string;
  sch_unique : list (list string)        (* PRIMARY KEY and UNIQUE INDEXes *)
}.

Definition sch_default (sch : Schema) (c : string) : value :=
  match find (fun cd => String.eqb (fst cd) c) (sch_columns sch) with
  | Some cd => snd cd
  | None => VNull
  end.

Definition eval_expr (sch : Schema) (now : Z) (r : row) (c : string) (e : expr) : value :=
  match e with
  | EParam p => to_sql p
  | EDefault => sch_default sch c
  | EUtcTimestamp => VTime now
  | EPlus c' d => sql_plus (col r c') d
  end.

(** Assignments of a SET clause are carried out from left to right, a later
    one reading what an earlier one wrote. *)
Definition apply_assignments (sch : Schema) (now : Z)
    (asg : list (string * expr)) (r : row) : row :=
  fold_left (fun r' ce => <[fst ce := eval_expr sch now r' (fst ce) (snd ce)]> r') asg r.

Definition row_changed (asg : list (string * expr)) (r r' : row) : bool :=
  existsb (fun ce => negb (bool_decide (col r (fst ce) = col r' (fst ce)))) asg.

Definition limit_reached (limit : option nat) : bool :=
  match limit with
  | Some O => true
  | _ => false
  end.

Definition limit_pred (limit : option nat) : option nat :=
  match limit with
  | Some n => Some (Nat.pred n)
  | None => None
  end.

(** [UPDATE t SET asg WHERE where_ [LIMIT limit]]: the changed-row count
    and the table afterwards. *)
Fixpoint sql_update (sch : Schema) (now : Z) (asg : list (string * expr))
    (where_ : row -> bool) (limit : option nat) (tbl : list row) : nat * list row :=
  match tbl with
  | [] => (O, [])
  | r :: rest =>
      if limit_reached limit then (O, tbl)
      else if where_ r then
        let r' := apply_assignments sch now asg r in
        let res := sql_update sch now asg where_ (limit_pred limit) rest in
        if row_changed asg r r' then (S (fst res), r' :: snd res)
        else (fst res, r :: snd res)
      else
        let res := sql_update sch now asg where_ limit rest in
        (fst res, r :: snd res)
  end.

(** [SELECT cols FROM t WHERE where_ [LIMIT limit]]: the tuples fetched. *)
Definition sql_select (cols : list string) (where_ : row -> bool)
    (limit : option nat) (tbl : list row) : list (list value) :=
  let rows := List.filter where_ tbl in
  let rows := match limit with
              | Some n => firstn n rows
              | None => rows
              end in
  map (fun r => map (col r) cols) rows.

(** A new row collides with a stored one when they agree, without NULLs, on
    all columns of one unique index. *)
Definition same_key (key : list string) (r1 r2 : row) : bool :=
  forallb (fun c => sql_eq (col r1 c) (col r2 c)) key.

Definition duplicate_entry (sch : Schema) (r : row) (tbl : list row) : bool :=
  existsb (fun r0 => existsb (fun key => same_key key r0 r) (sch_unique sch)) tbl.

Definition default_row (sch : Schema) : row :=
  fold_left (fun r cd => <[fst cd := snd cd]> r) (sch_columns sch) ∅.

(** The row an INSERT builds: column defaults, then the next
    AUTO_INCREMENT value, then the listed columns. *)
Definition new_row (sch : Schema) (now : Z) (auto_inc : Z)
    (vals : list (string * expr)) : row :=
  apply_assignments sch now vals
    (<[sch_auto_increment sch := VInt auto_inc]> (default_row sch)).

(** ** The two tables (transcribed from [_initTables]) *)

Definition jobs_schema : Schema := {|
  sch_columns := [
    ("job_id", VNull);
    ("client", VNull);
    ("client_info", VNull);
    ("client_key", VNull);
    ("cmd_line", VNull);
    ("params", VNull);
    ("job_hash", VNull);
    ("status", VStr "notStarted");
    ("completion_reason", VNull);
    ("completion_msg", VNull);
    ("worker_completion_reason", VStr CMPL_REASON_SUCCESS);
    ("worker_completion_msg", VNull);
    ("cancel", VInt 0);
    ("start_time", VTime 0);
    ("end_time", VTime 0);
    ("results", VNull);
    ("_eng_job_type", VNull);
    ("minimum_workers", VInt 0);
    ("maximum_workers", VInt 0);
    ("priority", VInt 0);
    ("_eng_allocate_new_workers", VInt 1);
    ("_eng_untended_dead_workers", VInt 0);
    ("num_failed_workers", VInt 0);
    ("last_failed_worker_error_msg", VNull);
    ("_eng_cleaning_status", VStr CLEAN_NOT_DONE);
    ("gen_base_description", VNull);
    ("gen_permutations", VNull);
    ("_eng_last_update_time", VTime 0);
    ("_eng_cjm_conn_id", VNull);
    ("_eng_worker_state", VNull);
    ("_eng_status", VNull);
    ("_eng_model_milestones", VNull) ];
  sch_auto_increment := "job_id";
  sch_unique := [ ["job_id"]; ["client"; "job_hash"] ]
|}.

Definition models_schema : Schema := {|
  sch_columns := [
    ("model_id", VNull);
    ("job_id", VNull);
    ("params", VNull);
    ("status", VStr "notStarted");
    ("completion_reason", VNull);
    ("completion_msg", VNull);
    ("results", VNull);
    ("optimized_metric", VNull);
    ("update_counter", VInt 0);
    ("num_records", VInt 0);
    ("start_time", VTime 0);
    ("end_time", VTime 0);
    ("cpu_time", VInt 0);
    ("model_checkpoint_id", VNull);
    ("gen_description", VNull);
    ("_eng_params_hash", VNull);
    ("_eng_particle_hash", VNull);
    ("_eng_last_update_time", VTime 0);
    ("_eng_task_tracker_id", VNull);
    ("_eng_worker_id", VNull);
    ("_eng_attempt_id", VNull);
    ("_eng_worker_conn_id", VInt 0);
    ("_eng_milestones", VNull);
    ("_eng_stop", VNull);
    ("_eng_matured", VInt 0) ];
  sch_auto_increment := "model_id";
  sch_unique := [ ["model_id"];
                  ["job_id"; "_eng_params_hash"];
                  ["job_id"; "_eng_particle_hash"] ]
|}.

(** ** [_TableInfoBase] and the name dictionaries built by [_initTables] *)

Record _TableInfoBase : Type := mkTableInfo {
  dbFieldNames : list string;
  publicFieldNames : list string;
  pubToDBNameDict : gmap string string;
  dbToPubNameDict : gmap string string
}.

Fixpoint map_result {A B} (f : A -> result B) (l : list A) : result (list B) :=
  match l with
  | [] => Ok []
  | x :: rest =>
      result_bind (f x) (fun y =>
      result_bind (map_result f rest) (fun ys => Ok (y :: ys)))
  end.

(** [dict(zip(keys, vals))]: a later pair overrides an earlier one. *)
Definition dict_zip (keys vals : list string) : gmap string string :=
  fold_left (fun d kv => <[fst kv := snd kv]> d) (combine keys vals) ∅.

Definition initTableInfo (sch : Schema) : result _TableInfoBase :=
  let names := map fst (sch_columns sch) in
  result_bind (map_result _columnNameDBToPublic names) (fun pubs =>
  Ok {| dbFieldNames := names;
        publicFieldNames := pubs;
        pubToDBNameDict := dict_zip pubs names;
        dbToPubNameDict := dict_zip names pubs |}).

Definition table_info_or_empty (r : result _TableInfoBase) : _TableInfoBase :=
  match r with
  | Ok t => t
  | Raise _ => mkTableInfo [] [] ∅ ∅
  end.

Definition _jobs : _TableInfoBase := table_info_or_empty (initTableInfo jobs_schema).
Definition _models : _TableInfoBase := table_info_or_empty (initTableInfo models_schema).

(** [d[k]] on a Python dict *)
Definition dict_getitem (d : gmap string string) (k : string) : result string :=
  match d !! k with
  | Some v => Ok v
  | None => Raise KeyError
  end.

(** ** The database and the monad of the methods *)

Record DB : Type := mkDB {
  jobs : list row;
  models : list row;
  jobs_auto_increment : Z;
  models_auto_increment : Z;
  utc_timestamp : Z
}.

Inductive table : Type := JobsTable | ModelsTable.

Definition table_rows (t : table) (db : DB) : list row :=
  match t with
  | JobsTable => jobs db
  | ModelsTable => models db
  end.

Definition table_schema (t : table) : Schema :=
  match t with
  | JobsTable => jobs_schema
  | ModelsTable => models_schema
  end.

Definition table_info (t : table) : _TableInfoBase :=
  match t with
  | JobsTable => _jobs
  | ModelsTable => _models
  end.

Definition table_auto_increment (t : table) (db : DB) : Z :=
  match t with
  | JobsTable => jobs_auto_increment db
  | ModelsTable => models_auto_increment db
  end.

Definition set_table_rows (t : table) (rows : list row) (db : DB) : DB :=
  match t with
  | JobsTable => mkDB rows (models db) (jobs_auto_increment db)
                      (models_auto_increment db) (utc_timestamp db)
  | ModelsTable => mkDB (jobs db) rows (jobs_auto_increment db)
                        (models_auto_increment db) (utc_timestamp db)
  end.

Definition append_row (t : table) (r : row) (db : DB) : DB :=
  match t with
  | JobsTable => mkDB (jobs db ++ [r]) (models db) (jobs_auto_increment db + 1)
                      (models_auto_increment db) (utc_timestamp db)
  | ModelsTable => mkDB (jobs db) (models db ++ [r]) (jobs_auto_increment db)
                        (models_auto_increment db + 1) (utc_timestamp db)
  end.

Definition M (A : Type) : Type := DB -> result A * DB.

Definition ret {A} (a : A) : M A := fun db => (Ok a, db).

Definition raise {A} (e : exn) : M A := fun db => (Raise e, db).

Definition bind {A B} (m : M A) (k : A -> M B) : M B :=
  fun db =>
    match m db with
    | (Ok a, db') => k a db'
    | (Raise e, db') => (Raise e, db')
    end.

Notation "'let*' x ':=' c 'in' k" := (bind c (fun x => k))
  (at level 10, x name, c at level 100, k at level 200).
Notation "'exec' c 'in' k" := (bind c (fun _ => k))
  (at level 10, c at level 100, k at level 200).

Definition lift {A} (r : result A) : M A := fun db => (r, db).

(** [assert b] *)
Definition assert_ (b : bool) : M unit :=
  if b then ret tt else raise AssertionError.

(** What the other sessions do between two statements of a method. *)
Definition interfere (env : DB -> DB) : M unit := fun db => (Ok tt, env db).

Definition get_utc_timestamp : M Z := fun db => (Ok (utc_timestamp db), db).

(** [cursor.execute] of a SELECT followed by [fetchall()] *)
Definition execute_select (t : table) (cols : list string) (where_ : row -> bool)
    (limit : option nat) : M (list (list pyval)) :=
  fun db => (Ok (map (map of_sql) (sql_select cols where_ limit (table_rows t db))), db).

(** [cursor.execute] of an UPDATE: the number of rows changed *)
Definition execute_update (t : table) (asg : list (string * expr))
    (where_ : row -> bool) (limit : option nat) : M nat :=
  fun db =>
    let res := sql_update (table_schema t) (utc_timestamp db) asg where_ limit
                 (table_rows t db) in
    (Ok (fst res), set_table_rows t (snd res) db).

(** [cursor.execute] of an INSERT, with the value [LAST_INSERT_ID()] has
    afterwards.  With IGNORE a colliding row is dropped and counted as 0;
    without, the collision is the "Duplicate entry" error.  The
    AUTO_INCREMENT counter moves on when a row is stored. *)
Definition execute_insert (ignore : bool) (t : table) (vals : list (string * expr))
    : M (nat * pyval) :=
  fun db =>
    let id := table_auto_increment t db in
    let r := new_row (table_schema t) (utc_timestamp db) id vals in
    if duplicate_entry (table_schema t) r (table_rows t db) then
      if ignore then (Ok (O, PInt 0), db) else (Raise DuplicateEntry, db)
    else (Ok (1%nat, PInt id), append_row t r db).

(** [cursor.execute] of [SELECT COUNT(c) ... WHERE where_] and the one value
    fetched ([rows[0][0]], [fetchone()[0]]): the number of selected rows
    whose [c] is not NULL. *)
Definition execute_count (t : table) (c : string) (where_ : row -> bool) : M pyval :=
  fun db =>
    (Ok (PInt (Z.of_nat (length (List.filter
                                   (fun r => where_ r && negb (sql_is_null (col r c)))
                                   (table_rows t db))))), db).

(** [cursor.execute] of [DELETE FROM t]: all rows go, the AUTO_INCREMENT
    counter stays. *)
Definition execute_delete (t : table) : M nat :=
  fun db => (Ok (length (table_rows t db)), set_table_rows t [] db).



(** ** Row lookup helpers of the class *)

(** A value of a [fieldsToMatch] dict: a scalar, or a list, set or tuple. *)
Inductive matcharg : Type :=
| MScalar (p : pyval)
| MSeq (ps : list pyval).

(** One conjunct of the WHERE clause [_getMatchingRowsNoRetries] builds:
    [IS TRUE]/[IS FALSE] for a bool, [IS NULL] for [None], [IN] for a
    sequence and [=] otherwise. *)
Definition match_holds (r : row) (fm : string * matcharg) : bool :=
  match snd fm with
  | MScalar (PBool b) => sql_is_bool b (col r (fst fm))
  | MScalar PNone => sql_is_null (col r (fst fm))
  | MSeq ps => sql_in (col r (fst fm)) (map to_sql ps)
  | MScalar p => sql_eq (col r (fst fm)) (to_sql p)
  end.

Definition in_names (names : list string) (n : string) : bool :=
  existsb (String.eqb n) names.

Definition is_nil {A} (l : list A) : bool :=
  match l with
  | [] => true
  | _ => false
  end.

(** The two assertions on the fetched rows hold of every answer of
    [sql_select] and are left out. *)
Definition _getMatchingRowsNoRetries (t : table)
    (fieldsToMatch : list (string * matcharg)) (selectFieldNames : list string)
    (maxRows : option nat) : M (list (list pyval)) :=
  exec assert_ (negb (is_nil fieldsToMatch)) in
  exec assert_ (forallb (fun fm => in_names (dbFieldNames (table_info t)) (fst fm))
                  fieldsToMatch) in
  exec assert_ (negb (is_nil selectFieldNames)) in
  exec assert_ (forallb (in_names (dbFieldNames (table_info t))) selectFieldNames) in
  execute_select t selectFieldNames
    (fun r => forallb (match_holds r) fieldsToMatch) maxRows.

Definition _getMatchingRowsWithRetries := _getMatchingRowsNoRetries.

Definition _getOneMatchingRowNoRetries (t : table)
    (fieldsToMatch : list (string * matcharg)) (selectFieldNames : list string)
    : M (option (list pyval)) :=
  let* rows := _getMatchingRowsNoRetries t fieldsToMatch selectFieldNames
                 (Some 1%nat) in
  match rows with
  | [] => ret None
  | r :: rest => exec assert_ (is_nil rest) in ret (Some r)
  end.

Definition _getOneMatchingRowWithRetries := _getOneMatchingRowNoRetries.

(** [a == b] on the values this module compares: fetched values and
    constants of the same kind. *)
Definition py_eq (a b : pyval) : bool := bool_decide (a = b).

(** [c=%s] with its parameter *)
Definition col_eq (r : row) (c : string) (p : pyval) : bool :=
  sql_eq (col r c) (to_sql p).

(** The SET list the generic setters build from a [fields] dict, in the
    order the dict yields its keys; an unknown public name is a [KeyError]. *)
Definition field_assignments (info : _TableInfoBase) (fields : list (string * pyval))
    : result (list (string * expr)) :=
  map_result (fun fv =>
      result_bind (dict_getitem (pubToDBNameDict info) (fst fv)) (fun c =>
      Ok (c, EParam (snd fv))))
    fields.

(** ** Named tuples and the splitting of a joined row *)

(** An instance of a [collections.namedtuple] class: the [_fields] of the
    class and the values, by position. *)
Record namedtuple : Type := mkNamedTuple {
  _fields : list string;
  nt_values : list pyval
}.

(** [nt._make(iterable)] for the class with the given fields: a [TypeError]
    unless there is one value for each field. *)
Definition _make (fields : list string) (iterable : list pyval) : result namedtuple :=
  if (length iterable =? length fields)%nat then Ok (mkNamedTuple fields iterable)
  else Raise TypeError.

(** [t.name]: the value at the position of [name] among the fields. *)
Fixpoint lookup_field (fields : list string) (values : list pyval) (name : string)
    : option pyval :=
  match fields, values with
  | f :: fields', v :: values' =>
      if String.eqb f name then Some v else lookup_field fields' values' name
  | _, _ => None
  end.

Definition getattr (t : namedtuple) (name : string) : option pyval :=
  lookup_field (_fields t) (nt_values t) name.

(** [data[i:j]] on a list or tuple *)
Definition list_slice {A} (data : list A) (i j : Z) : list A :=
  let a := PyStr.slice_index (length data) i in
  let b := PyStr.slice_index (length data) j in
  firstn (b - a) (skipn a data).

(** [sum(intervals)] *)
Definition py_sum (intervals : list Z) : Z := fold_left Z.add intervals 0.

(** The loop of the generator [partitionAtIntervals]: the slices it yields. *)
Fixpoint partition_loop {A} (data : list A) (start : Z) (intervals : list Z)
    : list (list A) :=
  match intervals with
  | [] => []
  | interval :: rest =>
      let end_ := start + interval in
      list_slice data start end_ :: partition_loop data end_ rest
  end.

(** All that the generator yields when it is run to its end; its
    assertion is evaluated when the first item is asked for. *)
Definition partitionAtIntervals {A} (data : list A) (intervals : list Z)
    : result (list (list A)) :=
  if py_sum intervals <=? Z.of_nat (length data) then Ok (partition_loop data 0 intervals)
  else Raise AssertionError.

(** [[nt._make(result) for nt, result in zip(namedTuples, results)]] *)
Fixpoint make_all (namedTuples : list (list string)) (results : list (list pyval))
    : result (list namedtuple) :=
  match namedTuples, results with
  | nt :: namedTuples', r :: results' =>
      result_bind (_make nt r) (fun t =>
      result_bind (make_all namedTuples' results') (fun ts => Ok (t :: ts)))
  | _, _ => Ok []
  end.

(** A named-tuple class is given by its fields.  [zip] asks its first
    argument first, so that without classes the generator is never
    started and its assertion never evaluated. *)
Definition _combineResults (result_ : list pyval) (namedTuples : list (list string))
    : result (list namedtuple) :=
  match namedTuples with
  | [] => Ok []
  | _ =>
      result_bind
        (partitionAtIntervals result_ (map (fun nt => Z.of_nat (length nt)) namedTuples))
        (fun results => make_all namedTuples results)
  end.

(** The named-tuple classes of the two tables, each given by its fields. *)
Definition jobDemandNamedTuple : list string :=
  [ "jobId"; "minimumWorkers"; "maximumWorkers"; "priority";
    "engAllocateNewWorkers"; "engUntendedDeadWorkers"; "numFailedWorkers";
    "engJobType" ].

Definition getParamsNamedTuple : list string := [ "modelId"; "params"; "engParamsHash" ].

Definition getResultAndStatusNamedTuple : list string :=
  [ "modelId"; "results"; "status"; "updateCounter"; "numRecords";
    "completionReason"; "completionMsg"; "engParamsHash"; "engMatured" ].

Definition getUpdateCountersNamedTuple : list string := [ "modelId"; "updateCounter" ].

(** The two classes [_initTables] generates from the public names. *)
Definition jobInfoNamedTuple : list string := publicFieldNames _jobs.
Definition modelInfoNamedTuple : list string := publicFieldNames _models.

(** What [modelsGetFields] returns: the values of one model when it was
    given a single id, pairs of id and values when it was given a sequence. *)
Inductive fields_result : Type :=
| FieldsOfOne (values : list pyval)
| FieldsOfEach (rows : list (pyval * list pyval)).

Section DAO.

(** [self._connectionID], the identity of the calling session. *)
Variable _connectionID : Z.

(** *** Jobs *)

Definition _insertOrGetUniqueJobNoRetries
    (client cmdLine jobHash clientInfo clientKey params : string)
    (minimumWorkers maximumWorkers : Z) (jobType : string) (priority : Z)
    (alreadyRunning : bool) : M pyval :=
  exec assert_ (String.length client <=? CLIENT_MAX_LEN)%nat in
  exec assert_ (negb (String.eqb cmdLine "")) in
  exec assert_ (String.length jobHash =? HASH_MAX_LEN)%nat in
  let initStatus := if alreadyRunning then STATUS_TESTMODE else STATUS_NOTSTARTED in
  let* ins := execute_insert true JobsTable
                [ ("status", EParam (PStr initStatus));
                  ("client", EParam (PStr client));
                  ("client_info", EParam (PStr clientInfo));
                  ("client_key", EParam (PStr clientKey));
                  ("cmd_line", EParam (PStr cmdLine));
                  ("params", EParam (PStr params));
                  ("job_hash", EParam (PStr jobHash));
                  ("_eng_last_update_time", EUtcTimestamp);
                  ("minimum_workers", EParam (PInt minimumWorkers));
                  ("maximum_workers", EParam (PInt maximumWorkers));
                  ("priority", EParam (PInt priority));
                  ("_eng_job_type", EParam (PStr jobType)) ] in
  let numRowsInserted := fst ins in
  let* jobID :=
    (if (numRowsInserted =? 1)%nat then ret (snd ins)
     else exec assert_ (numRowsInserted =? 0)%nat in ret (PInt 0)) in
  let* jobID :=
    (if py_eq jobID (PInt 0) then
       let* row := _getOneMatchingRowNoRetries JobsTable
                     [ ("client", MScalar (PStr client));
                       ("job_hash", MScalar (PStr jobHash)) ]
                     ["job_id"] in
       match row with
       | Some [v] => ret v
       | _ => raise AssertionError
       end
     else ret jobID) in
  exec (if alreadyRunning then
          let* n := execute_update JobsTable
                      [ ("_eng_cjm_conn_id", EParam (PInt _connectionID));
                        ("start_time", EUtcTimestamp);
                        ("_eng_last_update_time", EUtcTimestamp) ]
                      (fun r => col_eq r "job_id" jobID) None in
          ret tt
        else ret tt) in
  ret jobID.

(** The UPDATE of [_resumeJobNoRetries] and its row count. *)
Definition resumeJob_update (jobID : pyval) (alreadyRunning : bool) : M nat :=
  let initStatus := if alreadyRunning then STATUS_TESTMODE else STATUS_NOTSTARTED in
  let assignments :=
    ([ ("status", EParam (PStr initStatus));
      ("completion_reason", EDefault);
      ("completion_msg", EDefault);
      ("worker_completion_reason", EDefault);
      ("worker_completion_msg", EDefault);
      ("end_time", EDefault);
      ("cancel", EDefault);
      ("_eng_last_update_time", EUtcTimestamp);
      ("_eng_allocate_new_workers", EDefault);
      ("_eng_untended_dead_workers", EDefault);
      ("num_failed_workers", EDefault);
      ("last_failed_worker_error_msg", EDefault);
      ("_eng_cleaning_status", EDefault) ]
    ++ (if alreadyRunning then
          [ ("_eng_cjm_conn_id", EParam (PInt _connectionID));
            ("start_time", EUtcTimestamp);
            ("_eng_last_update_time", EUtcTimestamp) ]
        else
          [ ("_eng_cjm_conn_id", EDefault);
            ("start_time", EDefault) ]))%list in
  execute_update JobsTable assignments
    (fun r => col_eq r "job_id" jobID && col_eq r "status" (PStr STATUS_COMPLETED))
    None.

(** A row count of 0 is logged at level info and is no error. *)
Definition _resumeJobNoRetries (jobID : pyval) (alreadyRunning : bool) : M unit :=
  let* numRowsAffected := resumeJob_update jobID alreadyRunning in
  exec assert_ (numRowsAffected <=? 1)%nat in
  ret tt.

Definition jobsGetFields (jobIDs : list pyval) (fields : list string)
    (requireAll : bool) : M (list (pyval * list pyval)) :=
  exec assert_ (1 <=? length jobIDs)%nat in
  let* cols := lift (map_result (dict_getitem (pubToDBNameDict _jobs)) fields) in
  let* rows := _getMatchingRowsWithRetries JobsTable
                 [("job_id", MSeq jobIDs)] ("job_id" :: cols) None in
  if requireAll && (length rows <? length jobIDs)%nat then raise RuntimeError
  else ret (map (fun r => (hd PNone r, tail r)) rows).

Definition jobGetFields (jobID : pyval) (fields : list string) : M (list pyval) :=
  let* res := jobsGetFields [jobID] fields true in
  match res with
  | [] => raise IndexError
  | r :: _ => ret (snd r)
  end.

Definition jobResume (jobID : pyval) (alreadyRunning : bool) : M unit :=
  let* row := jobGetFields jobID ["status"] in
  match row with
  | [jobStatus] =>
      if negb (py_eq jobStatus (PStr STATUS_COMPLETED)) then raise RuntimeError
      else _resumeJobNoRetries jobID alreadyRunning
  | _ => raise ValueError
  end.

Definition jobInsertUnique (client cmdLine jobHash clientInfo clientKey params : string)
    (minimumWorkers maximumWorkers : Z) (jobType : string) (priority : Z)
    : M pyval :=
  exec assert_ (negb (String.eqb cmdLine "")) in
  let* jobHashValue := lift (_normalizeHash jobHash) in
  let* row := _getOneMatchingRowNoRetries JobsTable
                [ ("client", MScalar (PStr client));
                  ("job_hash", MScalar (PStr jobHashValue)) ]
                ["job_id"; "status"] in
  match row with
  | Some [jobID; status] =>
      exec (if py_eq status (PStr STATUS_COMPLETED) then
              let* numRowsUpdated := execute_update JobsTable
                  [ ("client_info", EParam (PStr clientInfo));
                    ("client_key", EParam (PStr clientKey));
                    ("cmd_line", EParam (PStr cmdLine));
                    ("params", EParam (PStr params));
                    ("minimum_workers", EParam (PInt minimumWorkers));
                    ("maximum_workers", EParam (PInt maximumWorkers));
                    ("priority", EParam (PInt priority));
                    ("_eng_job_type", EParam (PStr jobType)) ]
                  (fun r => col_eq r "job_id" jobID
                            && col_eq r "status" (PStr STATUS_COMPLETED))
                  None in
              exec assert_ (numRowsUpdated <=? 1)%nat in
              _resumeJobNoRetries jobID false
            else ret tt) in
      ret jobID
  | Some _ => raise ValueError
  | None =>
      _insertOrGetUniqueJobNoRetries client cmdLine jobHashValue clientInfo
        clientKey params minimumWorkers maximumWorkers jobType priority false
  end.

(** The UPDATE of [_startJobWithRetries] and its row count. *)
Definition startJob_update (jobID : pyval) : M nat :=
  execute_update JobsTable
    [ ("status", EParam (PStr STATUS_RUNNING));
      ("_eng_cjm_conn_id", EParam (PInt _connectionID));
      ("start_time", EUtcTimestamp);
      ("_eng_last_update_time", EUtcTimestamp) ]
    (fun r => col_eq r "job_id" jobID && col_eq r "status" (PStr STATUS_NOTSTARTED))
    None.

(** A row count other than 1 is logged as a warning; nothing is returned. *)
Definition _startJobWithRetries (jobID : pyval) : M unit :=
  let* numRowsUpdated := startJob_update jobID in
  ret tt.

(** [env] runs between the SELECT and the UPDATE, which are two separate
    retried operations on two borrowed connections. *)
Definition jobStartNext (env : DB -> DB) : M (option pyval) :=
  let* row := _getOneMatchingRowWithRetries JobsTable
                [("status", MScalar (PStr STATUS_NOTSTARTED))] ["job_id"] in
  match row with
  | None => ret None
  | Some [jobID] =>
      exec interfere env in
      exec _startJobWithRetries jobID in
      ret (Some jobID)
  | Some _ => raise ValueError
  end.

Definition jobSetFields (jobID : pyval) (fields : list (string * pyval))
    (useConnectionID ignoreUnchanged : bool) : M unit :=
  let* assignments := lift (field_assignments _jobs fields) in
  exec (if is_nil assignments then raise ProgrammingError else ret tt) in
  let* result := execute_update JobsTable assignments
                   (fun r => col_eq r "job_id" jobID
                             && (if useConnectionID
                                 then col_eq r "_eng_cjm_conn_id" (PInt _connectionID)
                                 else true))
                   None in
  if negb (result =? 1)%nat && negb ignoreUnchanged then raise RuntimeError
  else ret tt.

Definition jobCancel (jobID : pyval) : M unit :=
  jobSetFields jobID [("cancel", PBool true)] false false.

(** The qualification of [jobSetFieldIfEqual] on the current value. *)
Definition condition_holds (curValue : pyval) (stored : value) : bool :=
  match curValue with
  | PBool b => sql_is_bool b stored
  | PNone => sql_is_null stored
  | _ => sql_eq stored (to_sql curValue)
  end.

Definition jobSetFieldIfEqual (jobID : pyval) (fieldName : string)
    (newValue curValue : pyval) : M bool :=
  let* dbFieldName := lift (dict_getitem (pubToDBNameDict _jobs) fieldName) in
  let* result := execute_update JobsTable
                   [ ("_eng_last_update_time", EUtcTimestamp);
                     (dbFieldName, EParam newValue) ]
                   (fun r => col_eq r "job_id" jobID
                             && condition_holds curValue (col r dbFieldName))
                   None in
  ret (result =? 1)%nat.

(** *** Models *)

(** [try: ... except Exception, e:] around one statement *)
Definition try_ {A} (m : M A) : M (result A) :=
  fun db => (Ok (fst (m db)), snd (m db)).

(** ["Duplicate entry" in str(e)] *)
Definition is_duplicate_entry (e : exn) : bool :=
  match e with
  | DuplicateEntry => true
  | _ => false
  end.

Definition findExactMatchNoRetries (jobID : pyval) (paramsHash particleHash : string)
    : M (option (list pyval)) :=
  _getOneMatchingRowNoRetries ModelsTable
    [ ("job_id", MScalar jobID);
      ("_eng_params_hash", MScalar (PStr paramsHash));
      ("_eng_particle_hash", MScalar (PStr particleHash)) ]
    ["model_id"; "_eng_worker_conn_id"].

Definition findExactMatchWithRetries := findExactMatchNoRetries.

Definition insertModelWithRetries (jobID : pyval) (params paramsHash particleHash : string)
    : M (pyval * bool) :=
  let* attempt := try_ (execute_insert false ModelsTable
                          [ ("job_id", EParam jobID);
                            ("params", EParam (PStr params));
                            ("status", EParam (PStr STATUS_RUNNING));
                            ("_eng_params_hash", EParam (PStr paramsHash));
                            ("_eng_particle_hash", EParam (PStr particleHash));
                            ("start_time", EUtcTimestamp);
                            ("_eng_last_update_time", EUtcTimestamp);
                            ("_eng_worker_conn_id", EParam (PInt _connectionID)) ]) in
  let* inserted :=
    match attempt with
    | Raise e => if is_duplicate_entry e then ret None else raise e
    | Ok ins =>
        if (fst ins =? 1)%nat then
          let modelID := snd ins in
          if negb (py_eq modelID (PInt 0)) then ret (Some (modelID, true))
          else ret None
        else ret None
    end in
  match inserted with
  | Some res => ret res
  | None =>
      let* row := findExactMatchNoRetries jobID paramsHash particleHash in
      match row with
      | Some [modelID; connectionID] =>
          ret (modelID, py_eq connectionID (PInt _connectionID))
      | Some _ => raise ValueError
      | None =>
          let* rows := execute_select ModelsTable ["model_id"]
                         (fun r => col_eq r "job_id" jobID
                                   && (col_eq r "_eng_params_hash" (PStr paramsHash)
                                       || col_eq r "_eng_particle_hash" (PStr particleHash)))
                         (Some 1%nat) in
          match rows with
          | [[modelID]] => ret (modelID, false)
          | _ => raise AssertionError
          end
      end
  end.

(** [env] runs between the pre-check and the INSERT. *)
Definition modelInsertAndStart (env : DB -> DB) (jobID : pyval) (params paramsHash : string)
    (particleHash : option string) : M (pyval * bool) :=
  let particleHash := match particleHash with
                      | None => paramsHash
                      | Some h => h
                      end in
  let* paramsHash := lift (_normalizeHash paramsHash) in
  let* particleHash := lift (_normalizeHash particleHash) in
  let* row := findExactMatchWithRetries jobID paramsHash particleHash in
  match row with
  | Some r => ret (hd PNone r, false)
  | None =>
      exec interfere env in
      insertModelWithRetries jobID params paramsHash particleHash
  end.

Definition modelSetFields (modelID : pyval) (fields : list (string * pyval))
    (ignoreUnchanged : bool) : M unit :=
  let* assignments := lift (field_assignments _models fields) in
  exec (if is_nil assignments then raise ProgrammingError else ret tt) in
  let* numAffectedRows := execute_update ModelsTable
                            (assignments ++ [("update_counter", EPlus "update_counter" 1)])%list
                            (fun r => col_eq r "model_id" modelID)
                            None in
  if negb (numAffectedRows =? 1)%nat && negb ignoreUnchanged then raise RuntimeError
  else ret tt.

(** [metricValue is not None and (metricValue == metricValue)] *)
Definition metric_given (metricValue : option spec_float) : option spec_float :=
  match metricValue with
  | Some m => if SFeqb m m then Some m else None
  | None => None
  end.

Definition optional_assignment (c : string) (p : option pyval) : list (string * expr) :=
  match p with
  | Some v => [(c, EParam v)]
  | None => []
  end.

(** The UPDATE of [modelUpdateResults] and its row count. *)
Definition updateResults_update (modelID : pyval) (results : option string)
    (metricValue : option spec_float) (numRecords : option Z) : M nat :=
  execute_update ModelsTable
    ([ ("_eng_last_update_time", EUtcTimestamp);
       ("update_counter", EPlus "update_counter" 1) ]
     ++ optional_assignment "results" (PStr <$> results)
     ++ optional_assignment "num_records" (PInt <$> numRecords)
     ++ optional_assignment "optimized_metric" (PFloat <$> metric_given metricValue))%list
    (fun r => col_eq r "model_id" modelID
              && col_eq r "_eng_worker_conn_id" (PInt _connectionID))
    None.

Definition modelUpdateResults (modelID : pyval) (results : option string)
    (metricValue : option spec_float) (numRecords : option Z) : M unit :=
  let* numRowsAffected := updateResults_update modelID results metricValue numRecords in
  if negb (numRowsAffected =? 1)%nat then raise InvalidConnectionException
  else ret tt.

Definition modelUpdateTimestamp (modelID : pyval) : M unit :=
  modelUpdateResults modelID None None None.

Definition modelSetCompleted (modelID : pyval) (completionReason : pyval)
    (completionMsg : option string) (cpuTime : pyval) (useConnectionID : bool) : M unit :=
  let completionMsg := match completionMsg with
                       | None => ""
                       | Some msg => msg
                       end in
  let* numRowsAffected := execute_update ModelsTable
                            [ ("status", EParam (PStr STATUS_COMPLETED));
                              ("completion_reason", EParam completionReason);
                              ("completion_msg", EParam (PStr completionMsg));
                              ("end_time", EUtcTimestamp);
                              ("cpu_time", EParam cpuTime);
                              ("_eng_last_update_time", EUtcTimestamp);
                              ("update_counter", EPlus "update_counter" 1) ]
                            (fun r => col_eq r "model_id" modelID
                                      && (if useConnectionID
                                          then col_eq r "_eng_worker_conn_id" (PInt _connectionID)
                                          else true))
                            None in
  if negb (numRowsAffected =? 1)%nat then raise InvalidConnectionException
  else ret tt.

Definition findCandidateModelWithRetries (jobId : pyval) (maxUpdateInterval : Z)
    : M (option pyval) :=
  let* now := get_utc_timestamp in
  let* rows := execute_select ModelsTable ["model_id"]
                 (fun r => col_eq r "status" (PStr STATUS_RUNNING)
                           && col_eq r "job_id" jobId
                           && sql_timestampdiff_gt (col r "_eng_last_update_time")
                                (VTime now) maxUpdateInterval)
                 (Some 1%nat) in
  exec assert_ (length rows <=? 1)%nat in
  match rows with
  | [] => ret None
  | [modelID] :: _ => ret (Some modelID)
  | _ => raise ValueError
  end.

Definition adoptModelWithRetries (modelID : pyval) (maxUpdateInterval : Z) : M bool :=
  let* now := get_utc_timestamp in
  let* numRowsAffected := execute_update ModelsTable
                            [ ("_eng_worker_conn_id", EParam (PInt _connectionID));
                              ("_eng_last_update_time", EUtcTimestamp) ]
                            (fun r => col_eq r "model_id" modelID
                                      && col_eq r "status" (PStr STATUS_RUNNING)
                                      && sql_timestampdiff_gt (col r "_eng_last_update_time")
                                           (VTime now) maxUpdateInterval)
                            (Some 1%nat) in
  exec assert_ (numRowsAffected <=? 1)%nat in
  if (numRowsAffected =? 1)%nat then ret true
  else
    let* row := _getOneMatchingRowNoRetries ModelsTable
                  [("model_id", MScalar modelID)] ["status"; "_eng_worker_conn_id"] in
    match row with
    | Some [status; connectionID] =>
        ret (py_eq status (PStr STATUS_RUNNING)
             && py_eq connectionID (PInt _connectionID))
    | Some _ => raise ValueError
    | None => raise TypeError
    end.

(** [while True] of [modelAdoptNextOrphan], unrolled at most [fuel] times. *)
Fixpoint adopt_loop (fuel : nat) (jobId : pyval) (maxUpdateInterval : Z)
    : M (option pyval) :=
  match fuel with
  | O => raise FuelExhausted
  | S fuel' =>
      let* modelID := findCandidateModelWithRetries jobId maxUpdateInterval in
      match modelID with
      | None => ret None
      | Some m =>
          let* adopted := adoptModelWithRetries m maxUpdateInterval in
          if adopted then ret (Some m)
          else adopt_loop fuel' jobId maxUpdateInterval
      end
  end.

Definition modelAdoptNextOrphan (fuel : nat) (jobId : pyval) (maxUpdateInterval : Z)
    : M (option pyval) :=
  adopt_loop fuel jobId maxUpdateInterval.

(** *** Further operations on jobs *)

(** [self._jobs.pubToDBNameDict[f] for f in fields] *)
Definition jobs_columns (fields : list string) : M (list string) :=
  lift (map_result (dict_getitem (pubToDBNameDict _jobs)) fields).

Definition models_columns (fields : list string) : M (list string) :=
  lift (map_result (dict_getitem (pubToDBNameDict _models)) fields).

(** [(r[0], list(r[1:]))] for each fetched row *)
Definition id_and_fields (rows : list (list pyval)) : list (pyval * list pyval) :=
  map (fun r => (hd PNone r, tail r)) rows.

(** [AND _eng_cjm_conn_id=%s] when [useConnectionID] *)
Definition owned_job (useConnectionID : bool) (r : row) : bool :=
  if useConnectionID then col_eq r "_eng_cjm_conn_id" (PInt _connectionID) else true.

Definition jobSuspend (jobID : pyval) : M unit := jobCancel jobID.

(** [uuid1_bytes] is the value of [uuid.uuid1().bytes], a string of 16
    bytes. *)
Definition jobInsert (uuid1_bytes : string) (client cmdLine clientInfo clientKey params : string)
    (alreadyRunning : bool) (minimumWorkers maximumWorkers : Z) (jobType : string)
    (priority : Z) : M pyval :=
  let* jobHash := lift (_normalizeHash uuid1_bytes) in
  _insertOrGetUniqueJobNoRetries client cmdLine jobHash clientInfo clientKey params
    minimumWorkers maximumWorkers jobType priority alreadyRunning.

Definition jobReactivateRunningJobs : M unit :=
  exec execute_update JobsTable
         [ ("_eng_cjm_conn_id", EParam (PInt _connectionID));
           ("_eng_allocate_new_workers", EParam (PBool true)) ]
         (fun r => col_eq r "status" (PStr STATUS_RUNNING))
         None in
  ret tt.

Definition jobGetDemand : M (list namedtuple) :=
  let* cols := jobs_columns jobDemandNamedTuple in
  let* rows := _getMatchingRowsWithRetries JobsTable
                 [("status", MScalar (PStr STATUS_RUNNING))] cols None in
  lift (map_result (_make jobDemandNamedTuple) rows).

Definition jobCancelAllRunningJobs : M unit :=
  exec execute_update JobsTable
         [ ("cancel", EParam (PBool true)) ]
         (fun r => sql_ne (col r "status") (VStr STATUS_COMPLETED))
         None in
  ret tt.

(** [WHERE (status<>%s AND cancel is TRUE)] *)
Definition cancelling (r : row) : bool :=
  sql_ne (col r "status") (VStr STATUS_COMPLETED) && sql_is_bool true (col r "cancel").

Definition jobCountCancellingJobs : M pyval :=
  execute_count JobsTable "job_id" cancelling.

Definition jobGetCancellingJobs : M (list pyval) :=
  let* rows := execute_select JobsTable ["job_id"] cancelling None in
  ret (map (hd PNone) rows).


Definition jobInfo (jobID : pyval) : M namedtuple :=
  let* cols := jobs_columns jobInfoNamedTuple in
  let* row := _getOneMatchingRowWithRetries JobsTable [("job_id", MScalar jobID)] cols in
  match row with
  | None => raise RuntimeError
  | Some r => lift (_make jobInfoNamedTuple r)
  end.

(** The message of the [RuntimeError] formats [jobID] with [%d]: the job id
    is an integer here. *)
Definition jobSetStatus (jobID : Z) (status : string) (useConnectionID : bool) : M unit :=
  let* result := execute_update JobsTable
                   [ ("status", EParam (PStr status));
                     ("_eng_last_update_time", EUtcTimestamp) ]
                   (fun r => col_eq r "job_id" (PInt jobID) && owned_job useConnectionID r)
                   None in
  if negb (result =? 1)%nat then raise RuntimeError else ret tt.

Definition jobSetCompleted (jobID : pyval) (completionReason completionMsg : pyval)
    (useConnectionID : bool) : M unit :=
  let* result := execute_update JobsTable
                   [ ("status", EParam (PStr STATUS_COMPLETED));
                     ("completion_reason", EParam completionReason);
                     ("completion_msg", EParam completionMsg);
                     ("end_time", EUtcTimestamp);
                     ("_eng_last_update_time", EUtcTimestamp) ]
                   (fun r => col_eq r "job_id" jobID && owned_job useConnectionID r)
                   None in
  if negb (result =? 1)%nat then raise RuntimeError else ret tt.

Definition jobGetModelIDs (jobID : pyval) : M (list pyval) :=
  let* rows := _getMatchingRowsWithRetries ModelsTable
                 [("job_id", MScalar jobID)] ["model_id"] None in
  ret (map (hd PNone) rows).






Definition getJobs (fields : list string) : M (list (list pyval)) :=
  let* dbFields := jobs_columns fields in
  execute_select JobsTable ("job_id" :: dbFields) (fun _ => true) None.


Definition jobUpdateResults (jobID : pyval) (results : pyval) : M unit :=
  exec execute_update JobsTable
         [ ("_eng_last_update_time", EUtcTimestamp);
           ("results", EParam results) ]
         (fun r => col_eq r "job_id" jobID)
         None in
  ret tt.

(** *** Further operations on models *)

Definition modelsClearAll : M unit :=
  exec execute_delete ModelsTable in
  ret tt.

Definition modelsInfo (modelIDs : list pyval) : M (list namedtuple) :=
  exec assert_ (negb (is_nil modelIDs)) in
  let* cols := models_columns modelInfoNamedTuple in
  let* rows := _getMatchingRowsWithRetries ModelsTable
                 [("model_id", MSeq modelIDs)] cols None in
  let* results := lift (map_result (_make modelInfoNamedTuple) rows) in
  exec assert_ (length results =? length modelIDs)%nat in
  ret results.

Definition modelsGetFields (modelIDs : matcharg) (fields : list string) : M fields_result :=
  exec assert_ (1 <=? length fields)%nat in
  let isSequence := match modelIDs with
                    | MSeq _ => true
                    | MScalar _ => false
                    end in
  let* modelIDs := match modelIDs with
                   | MSeq ids => exec assert_ (1 <=? length ids)%nat in ret ids
                   | MScalar modelID => ret [modelID]
                   end in
  let* cols := models_columns fields in
  let* rows := _getMatchingRowsWithRetries ModelsTable
                 [("model_id", MSeq modelIDs)] ("model_id" :: cols) None in
  if (length rows <? length modelIDs)%nat then raise RuntimeError
  else if negb isSequence then
    match rows with
    | r :: _ => ret (FieldsOfOne (tail r))
    | [] => raise IndexError
    end
  else ret (FieldsOfEach (id_and_fields rows)).

(** [AND (completion_reason IS NULL OR completion_reason != %s)] with the
    reason [killed], when [ignoreKilled] *)
Definition not_killed (ignoreKilled : bool) (r : row) : bool :=
  if ignoreKilled
  then sql_is_null (col r "completion_reason")
       || sql_ne (col r "completion_reason") (VStr CMPL_REASON_KILLED)
  else true.

Definition modelsGetFieldsForJob (jobID : pyval) (fields : list string)
    (ignoreKilled : bool) : M (list (pyval * list pyval)) :=
  exec assert_ (1 <=? length fields)%nat in
  let* dbFields := models_columns fields in
  let* rows := execute_select ModelsTable ("model_id" :: dbFields)
                 (fun r => col_eq r "job_id" jobID && not_killed ignoreKilled r)
                 None in
  ret (id_and_fields rows).


Definition modelsGetParams (modelIDs : list pyval) : M (list namedtuple) :=
  exec assert_ (1 <=? length modelIDs)%nat in
  let* cols := models_columns getParamsNamedTuple in
  let* rows := _getMatchingRowsWithRetries ModelsTable
                 [("model_id", MSeq modelIDs)] cols None in
  exec assert_ (length rows =? length modelIDs)%nat in
  lift (map_result (_make getParamsNamedTuple) rows).

Definition modelsGetResultAndStatus (modelIDs : list pyval) : M (list namedtuple) :=
  exec assert_ (1 <=? length modelIDs)%nat in
  let* cols := models_columns getResultAndStatusNamedTuple in
  let* rows := _getMatchingRowsWithRetries ModelsTable
                 [("model_id", MSeq modelIDs)] cols None in
  exec assert_ (length rows =? length modelIDs)%nat in
  lift (map_result (_make getResultAndStatusNamedTuple) rows).


End DAO.

(** ** Vocabulary of the statements *)

(** The row of a job, of a model. *)
Definition job_is (jobID : pyval) (r : row) : bool := col_eq r "job_id" jobID.
Definition model_is (modelID : pyval) (r : row) : bool := col_eq r "model_id" modelID.

(** What an unlimited UPDATE does to one row, and whether the row counts
    as changed. *)
Definition updated_row (sch : Schema) (now : Z) (asg : list (string * expr))
    (where_ : row -> bool) (r : row) : row :=
  if where_ r then
    let r' := apply_assignments sch now asg r in
    if row_changed asg r r' then r' else r
  else r.

Definition counts_changed (sch : Schema) (now : Z) (asg : list (string * expr))
    (where_ : row -> bool) (r : row) : bool :=
  where_ r && row_changed asg r (apply_assignments sch now asg r).

(** A unique index holds of a table when no probe row collides with two
    stored rows. *)
Definition index_ok (key : list string) (tbl : list row) : Prop :=
  forall probe, (length (List.filter (fun r0 => same_key key r0 probe) tbl) <= 1)%nat.

(** A storage name whose segments after the first are not empty and whose
    first segment has no capital letter. *)
Definition storage_name_ok (storageName : string) : bool :=
  let stripped :=
    match storageName with
    | String "_" rest => rest
    | _ => storageName
    end in
  match PyStr.split "_" stripped with
  | [] => false
  | first :: others =>
      String.eqb (PyStr.lower first) first
      && forallb (fun seg => negb (String.eqb seg "")) others
  end.

Definition all_dbFieldNames : list string :=
  (dbFieldNames _jobs ++ dbFieldNames _models)%list.

(** ** Example databases *)

(** A job as [jobInsertUnique] leaves it, then with some columns set. *)
Definition example_job (jobID : Z) (status : string) (cancel : Z) (updated : Z) : row :=
  <["status" := VStr status]>
    (<["cancel" := VInt cancel]>
       (new_row jobs_schema updated jobID
          [ ("client", EParam (PStr "UI"));
            ("cmd_line", EParam (PStr "run"));
            ("job_hash", EParam (PStr "0123456789abcdef"));
            ("_eng_last_update_time", EUtcTimestamp) ])).

(** A model as [modelInsertAndStart] of session [owner] leaves it. *)
Definition example_model (modelID jobID owner counter : Z) : row :=
  <["update_counter" := VInt counter]>
    (new_row models_schema 50 modelID
       [ ("job_id", EParam (PInt jobID));
         ("params", EParam (PStr "p"));
         ("status", EParam (PStr STATUS_RUNNING));
         ("_eng_params_hash", EParam (PStr "aaaaaaaaaaaaaaaa"));
         ("_eng_particle_hash", EParam (PStr "bbbbbbbbbbbbbbbb"));
         ("start_time", EUtcTimestamp);
         ("_eng_last_update_time", EUtcTimestamp);
         ("_eng_worker_conn_id", EParam (PInt owner)) ]).

Definition db_one_job (status : string) (cancel : Z) : DB :=
  mkDB [example_job 1000 status cancel 50] [] 1001 1000 50.

Definition db_one_model (owner counter : Z) : DB :=
  mkDB [example_job 1000 STATUS_RUNNING 0 50] [example_model 1000 1000 owner counter]
       1001 1001 50.

(** The jobs the SELECT of [jobStartNext] chooses from. *)
Definition not_started (r : row) : bool := col_eq r "status" (PStr STATUS_NOTSTARTED).

(** Another scheduler session, here session 8, starting the next job. *)
Definition other_scheduler_starts (db : DB) : DB := snd (jobStartNext 8 (fun d => d) db).

(** C1 as stated: when the selected job is no longer affected by the
    UPDATE, the caller is told there is no work. *)
Definition jobStartNext_no_work_claim (conn : Z) (env : DB -> DB) (db : DB) : Prop :=
  forall jobID,
    fst (_getOneMatchingRowWithRetries JobsTable
           [("status", MScalar (PStr STATUS_NOTSTARTED))] ["job_id"] db)
    = Ok (Some [jobID]) ->
    fst (startJob_update conn jobID (env db)) = Ok 0%nat ->
    fst (jobStartNext conn env db) = Ok None.

(** Whether the UPDATE of [jobSetFieldIfEqual] changes a row it matches:
    the new value differs from the stored one, or the stored update time
    is not the server's present second. *)
Definition cas_changes (now : Z) (c : string) (newValue : pyval) (r : row) : bool :=
  negb (bool_decide (col r "_eng_last_update_time" = VTime now))
  || negb (bool_decide (col r c = to_sql newValue)).

(** A job whose worker state is ["A"], last written in the present second. *)
Definition db_worker_state_A : DB :=
  mkDB [<["_eng_worker_state" := VStr "A"]> (example_job 1000 STATUS_RUNNING 0 50)]
       [] 1001 1000 50.

(** C4 as stated: the call answers true exactly when the stored value
    equals [curValue]. *)
Definition jobSetFieldIfEqual_claim (jobID : pyval) (fieldName : string)
    (newValue curValue : pyval) (db : DB) : Prop :=
  forall r c,
    pubToDBNameDict _jobs !! fieldName = Some c ->
    List.filter (job_is jobID) (jobs db) = [r] ->
    (fst (jobSetFieldIfEqual jobID fieldName newValue curValue db) = Ok true
     <-> col r c = to_sql curValue).

(** [m != m], true of NaN only *)
Definition is_nan (m : spec_float) : bool :=
  match m with
  | S754_nan => true
  | _ => false
  end.

(** What [modelUpdateResults] leaves in a column it may or may not assign. *)
Definition supplied (new : option value) (old : value) : value :=
  match new with
  | Some v => v
  | None => old
  end.

(** One write to a model row, seen on its counter: the counter stays, or
    becomes the server's [update_counter+1]. *)
Definition counter_step (r r' : row) : Prop :=
  col r' "update_counter" = col r "update_counter"
  \/ col r' "update_counter" = sql_plus (col r "update_counter") 1.

(** The counters of all model rows, in storage order. *)
Definition counters (db : DB) : list value :=
  map (fun r => col r "update_counter") (models db).

(** A method run that leaves every counter as it was. *)
Definition keeps_counters {A} (m : M A) : Prop :=
  forall db, counters (snd (m db)) = counters db.

(** C7 as stated, for [modelSetFields]: the counter of a row never goes
    down. *)
Definition modelSetFields_monotone_claim (modelID : pyval) (fields : list (string * pyval))
    (db : DB) : Prop :=
  Forall2 (fun r r' => forall n n',
             col r "update_counter" = VInt n -> col r' "update_counter" = VInt n' -> n <= n')
    (models db) (models (snd (modelSetFields modelID fields false db))).

(** The rows of the job a client names by its hash. *)
Definition same_job (client jobHash : string) (r : row) : bool :=
  col_eq r "client" (PStr client) && col_eq r "job_hash" (PStr jobHash).

(** The columns that identify a job row. *)
Definition job_identity (r : row) : value * value * value :=
  (col r "client", col r "job_hash", col r "job_id").

Definition same_job_identity (client jobHash : string) (k : value * value * value) : bool :=
  sql_eq (fst (fst k)) (VStr client) && sql_eq (snd (fst k)) (VStr jobHash).

(** What the schema and the AUTO_INCREMENT counter guarantee of the jobs
    table: both unique indexes, a job id in every row, and a next id that
    is not 0 and not yet taken. *)
Definition jobs_table_ok (db : DB) : Prop :=
  index_ok ["job_id"] (jobs db)
  /\ index_ok ["client"; "job_hash"] (jobs db)
  /\ Forall (fun r => col r "job_id" <> VNull
                      /\ col r "job_id" <> VInt (jobs_auto_increment db)) (jobs db)
  /\ jobs_auto_increment db <> 0.

(** The database right after [connect] has created the tables. *)
Definition db_empty : DB := mkDB [] [] 1000 1000 50.

(** The models of a job with both hashes of a request, with either. *)
Definition exact_model (jobID : pyval) (paramsHash particleHash : string) (r : row) : bool :=
  col_eq r "job_id" jobID
  && (col_eq r "_eng_params_hash" (PStr paramsHash)
      && col_eq r "_eng_particle_hash" (PStr particleHash)).

Definition colliding_model (jobID : pyval) (paramsHash particleHash : string) (r : row)
    : bool :=
  col_eq r "job_id" jobID
  && (col_eq r "_eng_params_hash" (PStr paramsHash)
      || col_eq r "_eng_particle_hash" (PStr particleHash)).

(** The row the INSERT of [modelInsertAndStart] builds. *)
Definition inserted_model (conn : Z) (jobID : pyval) (params paramsHash particleHash : string)
    (db : DB) : row :=
  new_row models_schema (utc_timestamp db) (models_auto_increment db)
    [ ("job_id", EParam jobID);
      ("params", EParam (PStr params));
      ("status", EParam (PStr STATUS_RUNNING));
      ("_eng_params_hash", EParam (PStr paramsHash));
      ("_eng_particle_hash", EParam (PStr particleHash));
      ("start_time", EUtcTimestamp);
      ("_eng_last_update_time", EUtcTimestamp);
      ("_eng_worker_conn_id", EParam (PInt conn)) ].

(** The answer of the look-up that follows a failed or doubtful INSERT. *)
Definition reconciled (conn : Z) (jobID : pyval) (paramsHash particleHash : string)
    (db : DB) : result (pyval * bool) :=
  match List.filter (exact_model jobID paramsHash particleHash) (models db) with
  | r :: _ => Ok (of_sql (col r "model_id"),
                  py_eq (of_sql (col r "_eng_worker_conn_id")) (PInt conn))
  | [] =>
      match List.filter (colliding_model jobID paramsHash particleHash) (models db) with
      | r :: _ => Ok (of_sql (col r "model_id"), false)
      | [] => Raise AssertionError
      end
  end.

(** The two unique indexes on the hashes of a model. *)
Definition model_hash_indexes : list (list string) :=
  [ ["job_id"; "_eng_params_hash"]; ["job_id"; "_eng_particle_hash"] ].

(** C2 as stated: the flag [ours] is true exactly when the returned model
    carries the connection id of the caller. *)
Definition ours_iff_owner_claim (conn : Z) (jobID : pyval) (params paramsHash : string)
    (particleHash : option string) (db : DB) : Prop :=
  forall modelID ours,
    fst (modelInsertAndStart conn (fun d => d) jobID params paramsHash particleHash db)
    = Ok (modelID, ours) ->
    (ours = true
     <-> exists r,
           In r (models (snd (modelInsertAndStart conn (fun d => d) jobID params
                                paramsHash particleHash db)))
           /\ col r "model_id" = to_sql modelID
           /\ col r "_eng_worker_conn_id" = VInt conn).

(** The models [modelAdoptNextOrphan] looks for: running, of the job, and
    silent for longer than the interval. *)
Definition orphan (jobId : pyval) (maxUpdateInterval : Z) (now : Z) (r : row) : bool :=
  col_eq r "status" (PStr STATUS_RUNNING)
  && col_eq r "job_id" jobId
  && sql_timestampdiff_gt (col r "_eng_last_update_time") (VTime now) maxUpdateInterval.

(** The segments of a storage name: what stands between the underscores,
    once one leading underscore is dropped. *)
Definition segments (dbName : string) : list string :=
  PyStr.split "_" match dbName with
                  | String "_" rest => rest
                  | _ => dbName
                  end.

Definition nonempty (seg : string) : bool := negb (String.eqb seg "").

(** The number of fields of some named-tuple classes together. *)
Definition total_fields (namedTuples : list (list string)) : nat :=
  length (concat namedTuples).

(** A table in which the rows picked out by [key] are replaced by [r']. *)
Definition replace_where (key : row -> bool) (r' : row) (tbl : list row) : list row :=
  map (fun x => if key x then r' else x) tbl.

(** The other rows of a table. *)
Definition others (key : row -> bool) (tbl : list row) : list row :=
  List.filter (fun x => negb (key x)) tbl.

(** Whether the UPDATE of [jobSetStatus] changes a row it matches: the
    status is another one, or the row was not written in the present
    second. *)
Definition sets_status (now : Z) (status : string) (r : row) : bool :=
  negb (bool_decide (col r "status" = VStr status))
  || negb (bool_decide (col r "_eng_last_update_time" = VTime now)).

(** A job whose status is not [completed]. *)
Definition active_job (r : row) : bool :=
  sql_ne (col r "status") (VStr STATUS_COMPLETED).

(** The job ids of some rows, as a SELECT of [job_id] fetches them. *)
Definition job_ids (rows : list row) : list pyval :=
  map (fun r => of_sql (col r "job_id")) rows.



(** The rows an [IN] on column [c] selects for some ids. *)
Definition found_rows (c : string) (ids : list pyval) (tbl : list row) : list row :=
  List.filter (fun r => sql_in (col r c) (map to_sql ids)) tbl.

(** The ids are pairwise different as SQL values and each is the [c] of a
    row. *)
Definition all_found (c : string) (ids : list pyval) (tbl : list row) : Prop :=
  NoDup (map to_sql ids)
  /\ Forall (fun p => exists r, In r tbl /\ col_eq r c p = true) ids.

(** The values of the columns [cols] of some rows, as fetched. *)
Definition fetched (cols : list string) (rows : list row) : list (list pyval) :=
  map (fun r => map (fun c => of_sql (col r c)) cols) rows.

(** The columns behind the fields of the named-tuple classes. *)
Definition getParams_columns : list string := ["model_id"; "params"; "_eng_params_hash"].

Definition getResultAndStatus_columns : list string :=
  [ "model_id"; "results"; "status"; "update_counter"; "num_records";
    "completion_reason"; "completion_msg"; "_eng_params_hash"; "_eng_matured" ].

Definition getUpdateCounters_columns : list string := ["model_id"; "update_counter"].

Definition jobDemand_columns : list string :=
  [ "job_id"; "minimum_workers"; "maximum_workers"; "priority";
    "_eng_allocate_new_workers"; "_eng_untended_dead_workers"; "num_failed_workers";
    "_eng_job_type" ].

(** The named tuples of a class made from the columns of some rows. *)
Definition tuples_of (nt cols : list string) (rows : list row) : list namedtuple :=
  map (mkNamedTuple nt) (fetched cols rows).

(** [(id, [field1, ...])] for each of some rows. *)
Definition ids_with_fields (c : string) (cols : list string) (rows : list row)
    : list (pyval * list pyval) :=
  map (fun r => (of_sql (col r c), map (fun c' => of_sql (col r c')) cols)) rows.

(** The named tuple of all columns of a job row, of a model row. *)
Definition job_tuple (r : row) : namedtuple :=
  mkNamedTuple jobInfoNamedTuple (map (fun c => of_sql (col r c)) (dbFieldNames _jobs)).

Definition model_tuple (m : row) : namedtuple :=
  mkNamedTuple modelInfoNamedTuple (map (fun c => of_sql (col m c)) (dbFieldNames _models)).

(** The models of a job. *)
Definition model_of (jobID : pyval) (m : row) : bool := col_eq m "job_id" jobID.

(** A job whose status is [running]. *)
Definition running (r : row) : bool := col_eq r "status" (PStr STATUS_RUNNING).

(** The SET list of the INSERT of [_insertOrGetUniqueJobNoRetries]. *)
Definition job_insert_values (initStatus client cmdLine jobHash clientInfo clientKey
    params : string) (minimumWorkers maximumWorkers : Z) (jobType : string) (priority : Z)
    : list (string * expr) :=
  [ ("status", EParam (PStr initStatus));
    ("client", EParam (PStr client));
    ("client_info", EParam (PStr clientInfo));
    ("client_key", EParam (PStr clientKey));
    ("cmd_line", EParam (PStr cmdLine));
    ("params", EParam (PStr params));
    ("job_hash", EParam (PStr jobHash));
    ("_eng_last_update_time", EUtcTimestamp);
    ("minimum_workers", EParam (PInt minimumWorkers));
    ("maximum_workers", EParam (PInt maximumWorkers));
    ("priority", EParam (PInt priority));
    ("_eng_job_type", EParam (PStr jobType)) ].

(** The SET list of the UPDATE that marks a job inserted as already
    running. *)
Definition already_running_values (conn : Z) : list (string * expr) :=
  [ ("_eng_cjm_conn_id", EParam (PInt conn));
    ("start_time", EUtcTimestamp);
    ("_eng_last_update_time", EUtcTimestamp) ].

(** The row [jobInsert] leaves in the table. *)
Definition inserted_job (conn : Z) (client cmdLine jobHash clientInfo clientKey
    params : string) (alreadyRunning : bool) (minimumWorkers maximumWorkers : Z)
    (jobType : string) (priority : Z) (db : DB) : row :=
  let r := new_row jobs_schema (utc_timestamp db) (jobs_auto_increment db)
             (job_insert_values (if alreadyRunning then STATUS_TESTMODE else STATUS_NOTSTARTED)
                client cmdLine jobHash clientInfo clientKey params
                minimumWorkers maximumWorkers jobType priority) in
  if alreadyRunning
  then apply_assignments jobs_schema (utc_timestamp db) (already_running_values conn) r
  else r.

(** A model that was killed; one that has a checkpoint. *)
Definition killed (r : row) : bool :=
  sql_eq (col r "completion_reason") (VStr CMPL_REASON_KILLED).


(** The model ids of some rows, as a SELECT of [model_id] fetches them. *)
Definition model_ids (rows : list row) : list pyval :=
  map (fun r => of_sql (col r "model_id")) rows.

(** [AND _eng_worker_conn_id=%s] when [useConnectionID] *)
Definition owned_model (conn : Z) (useConnectionID : bool) (r : row) : bool :=
  if useConnectionID then col_eq r "_eng_worker_conn_id" (PInt conn) else true.

(** The SET list of [modelSetCompleted], and the row it writes. *)
Definition model_completed_values (completionReason : pyval) (completionMsg : option string)
    (cpuTime : pyval) : list (string * expr) :=
  [ ("status", EParam (PStr STATUS_COMPLETED));
    ("completion_reason", EParam completionReason);
    ("completion_msg", EParam (PStr match completionMsg with
                                    | None => ""
                                    | Some msg => msg
                                    end));
    ("end_time", EUtcTimestamp);
    ("cpu_time", EParam cpuTime);
    ("_eng_last_update_time", EUtcTimestamp);
    ("update_counter", EPlus "update_counter" 1) ].

Definition completed_model (now : Z) (completionReason : pyval) (completionMsg : option string)
    (cpuTime : pyval) (r : row) : row :=
  apply_assignments models_schema now
    (model_completed_values completionReason completionMsg cpuTime) r.




(** * [setup.py]: the options of the command line *)

Module Setup.

(** The variables the loop over [sys.argv] sets. *)
Record options : Type := mkOptions {
  cmakeOptions : string;
  makeOptions : string;
  setupOptions : string;
  mustBuildExtensions : bool
}.

Definition initial : options := mkOptions "" "" "" false.

(** One round of [for arg in sys.argv].  [option[0]] is the first
    character of [option], an [IndexError] when [option] is empty; it is
    asked for twice. *)
Definition step (st : options) (arg : string) : result options :=
  if PyStr.contains "cmake_options" arg || PyStr.contains "make_options" arg then
    let '(option_, _, rhs) := PyStr.partition "=" arg in
    result_bind (PyStr.index0 option_) (fun c =>
    let st := if String.eqb c "--cmake_options"
              then mkOptions rhs (makeOptions st) (setupOptions st) (mustBuildExtensions st)
              else st in
    result_bind (PyStr.index0 option_) (fun c' =>
    Ok (if String.eqb c' "--make_options"
        then mkOptions (cmakeOptions st) rhs (setupOptions st) (mustBuildExtensions st)
        else st)))
  else if negb (PyStr.contains "setup.py" arg) then
    Ok (mkOptions (cmakeOptions st) (makeOptions st) (setupOptions st ++ (arg ++ " "))
          (if PyStr.contains "build" arg || PyStr.contains "install" arg then true
           else mustBuildExtensions st))
  else Ok st.

Fixpoint loop (st : options) (argv : list string) : result options :=
  match argv with
  | [] => Ok st
  | arg :: rest => result_bind (step st arg) (fun st' => loop st' rest)
  end.

(** The module up to [execfile]: the variables, and [sys.argv], to which
    ['develop'] is appended when it holds the name of the script only. *)
Definition read_options (argv : list string) : result (options * list string) :=
  result_bind (loop initial argv) (fun st =>
  if (length argv =? 1)%nat
  then Ok (mkOptions (cmakeOptions st) (makeOptions st) (setupOptions st) true,
           (argv ++ ["develop"])%list)
  else Ok (st, argv)).

(** The two shell commands of [build_extensions_nupic]. *)
Definition cmake_command (sourceDir : string) (st : options) : string :=
  "cmake " ++ sourceDir ++ " " ++ cmakeOptions st.

Definition make_command (st : options) : string := "make " ++ makeOptions st.

End Setup.

(** An argument that names options of CMake or Make; one that is passed
    on to [setup]; one that asks for the extensions to be built. *)
Definition names_options (arg : string) : bool :=
  PyStr.contains "cmake_options" arg || PyStr.contains "make_options" arg.

Definition passed_on (arg : string) : bool :=
  negb (names_options arg) && negb (PyStr.contains "setup.py" arg).

Definition asks_build (arg : string) : bool :=
  PyStr.contains "build" arg || PyStr.contains "install" arg.

(** [arg + ' '] for each argument, joined. *)
Definition spaced (args : list string) : string :=
  PyStr.join (map (fun arg => arg ++ " ") args).

(** ** Basic facts *)

Lemma to_sql_of_sql (v : value) : to_sql (of_sql v) = v.
Proof. destruct v; reflexivity. Qed.

Lemma sql_eq_true (a b : value) : sql_eq a b = true -> a = b /\ a <> VNull.
Proof.
  unfold sql_eq. destruct a, b; try discriminate; intros H;
    apply bool_decide_eq_true in H; split; try assumption; discriminate.
Qed.

Lemma sql_eq_refl (a : value) : a <> VNull -> sql_eq a a = true.
Proof.
  intros Ha. destruct a; try contradiction; unfold sql_eq;
    apply bool_decide_eq_true; reflexivity.
Qed.

Lemma col_insert_eq (r : row) (c : string) (v : value) : col (<[c := v]> r) c = v.
Proof. unfold col. rewrite lookup_insert_eq. reflexivity. Qed.

Lemma col_insert_ne (r : row) (c c' : string) (v : value) :
  c <> c' -> col (<[c := v]> r) c' = col r c'.
Proof. intros Hne. unfold col. rewrite lookup_insert_ne by assumption. reflexivity. Qed.

Lemma filter_andb {A} (f g : A -> bool) (l : list A) :
  List.filter (fun x => f x && g x) l = List.filter g (List.filter f l).
Proof.
  induction l as [|x l IH]; simpl; [reflexivity|].
  destruct (f x); simpl; [destruct (g x)|]; rewrite IH; reflexivity.
Qed.

Lemma filter_ext_eq {A} (f g : A -> bool) (l : list A) :
  (forall x, f x = g x) -> List.filter f l = List.filter g l.
Proof. intros H. apply List.filter_ext. exact H. Qed.

(** *** The UPDATE evaluator *)

Lemma sql_update_unlimited sch now asg where_ tbl :
  sql_update sch now asg where_ None tbl =
    (length (List.filter (counts_changed sch now asg where_) tbl),
     map (updated_row sch now asg where_) tbl).
Proof.
  induction tbl as [|r tbl IH]; simpl; [reflexivity|].
  unfold counts_changed, updated_row at 1. rewrite IH. simpl.
  destruct (where_ r); simpl; [|reflexivity].
  destruct (row_changed asg r (apply_assignments sch now asg r)); reflexivity.
Qed.

Lemma updated_row_unchanged sch now asg where_ r :
  counts_changed sch now asg where_ r = false -> updated_row sch now asg where_ r = r.
Proof.
  unfold counts_changed, updated_row. destruct (where_ r); simpl; [|reflexivity].
  intros ->. reflexivity.
Qed.

Lemma updated_row_changed sch now asg where_ r :
  counts_changed sch now asg where_ r = true ->
  updated_row sch now asg where_ r = apply_assignments sch now asg r.
Proof.
  unfold counts_changed, updated_row. destruct (where_ r); simpl; [|discriminate].
  intros ->. reflexivity.
Qed.

Lemma map_updated_row_id sch now asg where_ tbl :
  List.filter (counts_changed sch now asg where_) tbl = [] ->
  map (updated_row sch now asg where_) tbl = tbl.
Proof.
  induction tbl as [|r tbl IH]; simpl; [reflexivity|].
  destruct (counts_changed sch now asg where_ r) eqn:E; [discriminate|].
  intros H. rewrite updated_row_unchanged by assumption. rewrite IH by assumption.
  reflexivity.
Qed.

Lemma set_table_rows_same t db : set_table_rows t (table_rows t db) db = db.
Proof. destruct t, db; reflexivity. Qed.

Lemma set_table_rows_map_id t (g : row -> row) db :
  (forall r, In r (table_rows t db) -> g r = r) ->
  set_table_rows t (map g (table_rows t db)) db = db.
Proof.
  intros H.
  assert (Hmap : map g (table_rows t db) = table_rows t db).
  { rewrite <- (map_id (table_rows t db)) at 2. apply map_ext_in. exact H. }
  rewrite Hmap. apply set_table_rows_same.
Qed.

Lemma table_rows_set_table_rows t rows db : table_rows t (set_table_rows t rows db) = rows.
Proof. destruct t; reflexivity. Qed.

(** ** Hashes *)

Lemma length_replicate_char (c : ascii) (n : nat) :
  String.length (PyStr.replicate_char c n) = n.
Proof. induction n as [|n IH]; simpl; [reflexivity|]. rewrite IH. reflexivity. Qed.

Lemma length_string_app (s1 s2 : string) :
  String.length (s1 ++ s2) = (String.length s1 + String.length s2)%nat.
Proof. induction s1 as [|c s1 IH]; simpl; [reflexivity|]. rewrite IH. reflexivity. Qed.

Lemma normalizeHash_short (hashValue : string) :
  (String.length hashValue < HASH_MAX_LEN)%nat ->
  _normalizeHash hashValue =
    Ok (hashValue ++ PyStr.replicate_char PyStr.NUL (HASH_MAX_LEN - String.length hashValue)).
Proof.
  intros H. unfold _normalizeHash.
  destruct (Nat.ltb_spec (String.length hashValue) HASH_MAX_LEN) as [_|Hge]; [reflexivity|lia].
Qed.

Lemma normalizeHash_exact (hashValue : string) :
  String.length hashValue = HASH_MAX_LEN -> _normalizeHash hashValue = Ok hashValue.
Proof.
  intros H. unfold _normalizeHash. rewrite H.
  rewrite Nat.ltb_irrefl, Nat.leb_refl. reflexivity.
Qed.

Lemma normalizeHash_long (hashValue : string) :
  (HASH_MAX_LEN < String.length hashValue)%nat ->
  _normalizeHash hashValue = Raise AssertionError.
Proof.
  intros H. unfold _normalizeHash.
  destruct (Nat.ltb_spec (String.length hashValue) HASH_MAX_LEN) as [Hlt|_]; [lia|].
  destruct (Nat.leb_spec (String.length hashValue) HASH_MAX_LEN) as [Hle|_]; [lia|].
  reflexivity.
Qed.

(** Whatever it is given, [_normalizeHash] answers with 16 bytes or raises
    the assertion error. *)
Lemma normalizeHash_result (hashValue : string) :
  (exists h, _normalizeHash hashValue = Ok h /\ String.length h = HASH_MAX_LEN)
  \/ _normalizeHash hashValue = Raise AssertionError.
Proof.
  destruct (lt_eq_lt_dec (String.length hashValue) HASH_MAX_LEN) as [[Hlt|Heq]|Hgt].
  - left. eexists. split; [apply normalizeHash_short; assumption|].
    rewrite length_string_app, length_replicate_char. lia.
  - left. exists hashValue. split; [apply normalizeHash_exact|]; assumption.
  - right. apply normalizeHash_long. assumption.
Qed.

(** C8. A hash shorter than 16 bytes is padded on the right with NUL bytes
    to exactly 16 bytes; a hash of 16 bytes is passed through unchanged; a
    longer hash makes [jobInsertUnique] and [modelInsertAndStart] fail with
    the assertion error of [_normalizeHash], the database untouched. *)
Theorem normalizeHash_pads_or_rejects (hashValue : string) :
  ((String.length hashValue < HASH_MAX_LEN)%nat ->
     exists padded,
       _normalizeHash hashValue = Ok padded
       /\ padded = hashValue
                   ++ PyStr.replicate_char PyStr.NUL (HASH_MAX_LEN - String.length hashValue)
       /\ String.length padded = HASH_MAX_LEN)
  /\ (String.length hashValue = HASH_MAX_LEN -> _normalizeHash hashValue = Ok hashValue)
  /\ ((HASH_MAX_LEN < String.length hashValue)%nat ->
        _normalizeHash hashValue = Raise AssertionError
        /\ (forall conn client cmdLine clientInfo clientKey params minW maxW jobType
                   priority db,
              jobInsertUnique conn client cmdLine hashValue clientInfo clientKey params
                minW maxW jobType priority db = (Raise AssertionError, db))
        /\ (forall conn env jobID params particleHash db,
              modelInsertAndStart conn env jobID params hashValue particleHash db
              = (Raise AssertionError, db))
        /\ (forall conn env jobID params paramsHash db,
              modelInsertAndStart conn env jobID params paramsHash (Some hashValue) db
              = (Raise AssertionError, db))).
Proof.
  split; [|split].
  - intros Hlt. eexists. split; [apply normalizeHash_short; assumption|].
    split; [reflexivity|]. rewrite length_string_app, length_replicate_char. lia.
  - apply normalizeHash_exact.
  - intros Hgt. pose proof (normalizeHash_long hashValue Hgt) as Hraise.
    split; [assumption|]. split; [|split].
    + intros. unfold jobInsertUnique, bind, assert_, lift.
      destruct (negb (cmdLine =? "")%string); simpl; [|reflexivity].
      rewrite Hraise. reflexivity.
    + intros. unfold modelInsertAndStart, bind, lift. rewrite Hraise. reflexivity.
    + intros. unfold modelInsertAndStart, bind, lift.
      destruct (normalizeHash_result paramsHash) as [(h & -> & _)| ->]; [|reflexivity].
      rewrite Hraise. reflexivity.
Qed.

Lemma normalizeHash_pads_or_rejects_witness :
  (exists padded, _normalizeHash "abc" = Ok padded /\ String.length padded = 16%nat)
  /\ _normalizeHash "0123456789abcdef" = Ok "0123456789abcdef"
  /\ _normalizeHash "0123456789abcdefg" = Raise AssertionError.
Proof.
  split; [|split].
  - destruct (proj1 (normalizeHash_pads_or_rejects "abc")) as (p & H1 & _ & H3).
    + simpl. unfold HASH_MAX_LEN. lia.
    + exists p. split; assumption.
  - apply (proj1 (proj2 (normalizeHash_pads_or_rejects "0123456789abcdef"))).
    reflexivity.
  - apply (proj2 (proj2 (normalizeHash_pads_or_rejects "0123456789abcdefg"))).
    simpl. unfold HASH_MAX_LEN. lia.
Defined.

(** ** Public names *)

Lemma capitalize_words_spec (words : list string) :
  forallb (fun seg => negb (String.eqb seg "")) words = true ->
  capitalize_words words = Ok (map capitalize_spec words).
Proof.
  induction words as [|w ws IH]; simpl; [reflexivity|].
  intros H. apply andb_true_iff in H as [Hw Hws].
  destruct w as [|c w]; [discriminate|]. simpl. rewrite IH by assumption. reflexivity.
Qed.

Lemma split_leading_sep (sep : ascii) (rest : string) :
  PyStr.split sep (String sep rest) = EmptyString :: PyStr.split sep rest.
Proof. simpl. rewrite Ascii.eqb_refl. reflexivity. Qed.

Lemma columnName_words (dbName : string) :
  (if PyStr.startswith_char "_" dbName then tail (PyStr.split "_" dbName)
   else PyStr.split "_" dbName)
  = PyStr.split "_" match dbName with
                    | String "_" rest => rest
                    | _ => dbName
                    end.
Proof.
  destruct dbName as [|c rest]; [reflexivity|].
  unfold PyStr.startswith_char.
  destruct (Ascii.eqb_spec c "_") as [->|Hne].
  - rewrite split_leading_sep. reflexivity.
  - destruct c as [[] [] [] [] [] [] [] []]; try reflexivity. contradiction.
Qed.

Lemma columnNameDBToPublic_spec (dbName : string) :
  storage_name_ok dbName = true ->
  _columnNameDBToPublic dbName = Ok (lowerCamelCase_spec dbName).
Proof.
  unfold storage_name_ok, _columnNameDBToPublic, lowerCamelCase_spec.
  rewrite columnName_words.
  destruct (PyStr.split "_" _) as [|w0 ws]; [discriminate|].
  intros H. apply andb_true_iff in H as [Hw0 Hws].
  apply String.eqb_eq in Hw0. rewrite capitalize_words_spec by assumption.
  simpl. rewrite Hw0. reflexivity.
Qed.

(** C9. Every column name of the two tables is mapped to its public name
    by the rule of the specification: one leading underscore stripped, the
    first segment in lower case, every later segment with a capital first
    letter; [job_id] becomes [jobId] and [_eng_last_update_time] becomes
    [engLastUpdateTime]. *)
Theorem columnNameDBToPublic_lowerCamelCase :
  (forall dbName, In dbName all_dbFieldNames ->
     storage_name_ok dbName = true
     /\ _columnNameDBToPublic dbName = Ok (lowerCamelCase_spec dbName))
  /\ _columnNameDBToPublic "job_id" = Ok "jobId"
  /\ _columnNameDBToPublic "_eng_last_update_time" = Ok "engLastUpdateTime".
Proof.
  split; [|split; reflexivity].
  intros dbName Hin.
  assert (Hok : storage_name_ok dbName = true).
  { assert (Hall : forallb storage_name_ok all_dbFieldNames = true) by (vm_compute; reflexivity).
    rewrite forallb_forall in Hall. apply Hall. assumption. }
  split; [assumption|]. apply columnNameDBToPublic_spec. assumption.
Qed.

Lemma columnNameDBToPublic_lowerCamelCase_witness :
  _columnNameDBToPublic "_eng_worker_conn_id" = Ok "engWorkerConnId".
Proof.
  destruct (proj1 columnNameDBToPublic_lowerCamelCase "_eng_worker_conn_id") as [_ H].
  - vm_compute. do 53 right. left. reflexivity.
  - exact H.
Defined.

(** ** The lookup helpers, evaluated *)

Lemma getMatchingRows_eval t fieldsToMatch selectFieldNames maxRows db :
  negb (is_nil fieldsToMatch) = true ->
  forallb (fun fm => in_names (dbFieldNames (table_info t)) (fst fm)) fieldsToMatch = true ->
  negb (is_nil selectFieldNames) = true ->
  forallb (in_names (dbFieldNames (table_info t))) selectFieldNames = true ->
  _getMatchingRowsNoRetries t fieldsToMatch selectFieldNames maxRows db =
    (Ok (map (map of_sql)
           (sql_select selectFieldNames (fun r => forallb (match_holds r) fieldsToMatch)
              maxRows (table_rows t db))), db).
Proof.
  intros H1 H2 H3 H4. unfold _getMatchingRowsNoRetries, bind, assert_.
  rewrite H1, H2, H3, H4. reflexivity.
Qed.

Lemma getOneMatchingRow_eval t fieldsToMatch selectFieldNames db :
  negb (is_nil fieldsToMatch) = true ->
  forallb (fun fm => in_names (dbFieldNames (table_info t)) (fst fm)) fieldsToMatch = true ->
  negb (is_nil selectFieldNames) = true ->
  forallb (in_names (dbFieldNames (table_info t))) selectFieldNames = true ->
  _getOneMatchingRowNoRetries t fieldsToMatch selectFieldNames db =
    (Ok match List.filter (fun r => forallb (match_holds r) fieldsToMatch) (table_rows t db) with
        | [] => None
        | r :: _ => Some (map (fun c => of_sql (col r c)) selectFieldNames)
        end, db).
Proof.
  intros H1 H2 H3 H4. unfold _getOneMatchingRowNoRetries, bind.
  rewrite getMatchingRows_eval by assumption. unfold sql_select.
  destruct (List.filter _ (table_rows t db)) as [|r rest]; simpl; [reflexivity|].
  rewrite map_map. reflexivity.
Qed.

Lemma filter_map_commute {A} (f : A -> bool) (g : A -> A) (l : list A) :
  (forall x, f (g x) = f x) -> List.filter f (map g l) = map g (List.filter f l).
Proof.
  intros H. induction l as [|x l IH]; simpl; [reflexivity|].
  rewrite H. destruct (f x); simpl; rewrite IH; reflexivity.
Qed.

Lemma filter_nil_In {A} (f : A -> bool) (l : list A) (x : A) :
  List.filter f l = [] -> In x l -> f x = false.
Proof.
  intros Hnil Hin. destruct (f x) eqn:E; [|reflexivity].
  assert (Hx : In x (List.filter f l)) by (apply List.filter_In; split; assumption).
  rewrite Hnil in Hx. destruct Hx.
Qed.

Lemma filter_singleton_In {A} (f : A -> bool) (l : list A) (x : A) :
  List.filter f l = [x] -> In x l /\ f x = true.
Proof.
  intros H. apply List.filter_In. rewrite H. left. reflexivity.
Qed.

(** ** Cancelling a job *)

Lemma field_assignments_cancel :
  field_assignments _jobs [("cancel", PBool true)] = Ok [("cancel", EParam (PBool true))].
Proof. reflexivity. Qed.

Lemma cancel_counts now jobID r :
  counts_changed jobs_schema now [("cancel", EParam (PBool true))]
    (fun r => col_eq r "job_id" jobID && true) r
  = job_is jobID r && negb (bool_decide (col r "cancel" = VInt 1)).
Proof.
  unfold counts_changed, job_is. simpl. rewrite col_insert_eq.
  rewrite andb_true_r, orb_false_r. reflexivity.
Qed.

Lemma cancel_updated_row now jobID r :
  updated_row jobs_schema now [("cancel", EParam (PBool true))]
    (fun r => col_eq r "job_id" jobID && true) r
  = if job_is jobID r && negb (bool_decide (col r "cancel" = VInt 1))
    then <["cancel" := VInt 1]> r else r.
Proof.
  rewrite <- cancel_counts with (now := now).
  destruct (counts_changed _ _ _ _ r) eqn:E.
  - rewrite updated_row_changed by assumption. reflexivity.
  - apply updated_row_unchanged. assumption.
Qed.

Lemma jobCancel_eval conn jobID db :
  jobCancel conn jobID db =
    let changed r := job_is jobID r && negb (bool_decide (col r "cancel" = VInt 1)) in
    let db' := set_table_rows JobsTable
                 (map (fun r => if changed r then <["cancel" := VInt 1]> r else r) (jobs db))
                 db in
    (if (length (List.filter changed (jobs db)) =? 1)%nat then Ok tt else Raise RuntimeError,
     db').
Proof.
  unfold jobCancel, jobSetFields, bind, lift. rewrite field_assignments_cancel. simpl.
  unfold execute_update. rewrite sql_update_unlimited. simpl.
  rewrite (filter_ext_eq _ _ _ (cancel_counts (utc_timestamp db) jobID)).
  rewrite (map_ext _ _ (cancel_updated_row (utc_timestamp db) jobID)).
  destruct (length _ =? 1)%nat; reflexivity.
Qed.

(** C10. [jobCancel] raises [RuntimeError] for a job whose stored cancel
    flag is already true and for a job id that does not exist; it returns
    silently on a job whose flag is false, setting it; and whenever it
    returns silently it has changed the flag of a row of that job. *)
Theorem jobCancel_raises_unless_flag_changes conn jobID db :
  (forall r, List.filter (job_is jobID) (jobs db) = [r] -> col r "cancel" = VInt 1 ->
     jobCancel conn jobID db = (Raise RuntimeError, db))
  /\ (List.filter (job_is jobID) (jobs db) = [] ->
        jobCancel conn jobID db = (Raise RuntimeError, db))
  /\ (forall r, List.filter (job_is jobID) (jobs db) = [r] -> col r "cancel" = VInt 0 ->
        fst (jobCancel conn jobID db) = Ok tt
        /\ List.filter (job_is jobID) (jobs (snd (jobCancel conn jobID db)))
           = [<["cancel" := VInt 1]> r])
  /\ (fst (jobCancel conn jobID db) = Ok tt ->
        exists r, In r (jobs db) /\ job_is jobID r = true /\ col r "cancel" <> VInt 1
                  /\ In (<["cancel" := VInt 1]> r) (jobs (snd (jobCancel conn jobID db)))).
Proof.
  rewrite jobCancel_eval. cbv zeta.
  set (changed := fun r => job_is jobID r && negb (bool_decide (col r "cancel" = VInt 1))).
  assert (Hfilter : List.filter changed (jobs db)
                    = List.filter (fun r => negb (bool_decide (col r "cancel" = VInt 1)))
                        (List.filter (job_is jobID) (jobs db))).
  { unfold changed. apply filter_andb. }
  assert (Hkeep : forall r, job_is jobID (if changed r then <["cancel" := VInt 1]> r else r)
                            = job_is jobID r).
  { intros r. destruct (changed r); [|reflexivity].
    unfold job_is, col_eq. rewrite col_insert_ne by discriminate. reflexivity. }
  assert (Hsame : List.filter changed (jobs db) = [] ->
                  set_table_rows JobsTable
                    (map (fun r => if changed r then <["cancel" := VInt 1]> r else r) (jobs db))
                    db = db).
  { intros Hnil. apply (set_table_rows_map_id JobsTable). intros r' Hin.
    rewrite (filter_nil_In _ _ _ Hnil Hin). reflexivity. }
  split; [|split; [|split]].
  - intros r Hr Hc.
    assert (Hnil : List.filter changed (jobs db) = []).
    { rewrite Hfilter, Hr. simpl. rewrite Hc.
      rewrite bool_decide_eq_true_2 by reflexivity. reflexivity. }
    rewrite Hsame by assumption. rewrite Hnil. reflexivity.
  - intros Hnone.
    assert (Hnil : List.filter changed (jobs db) = []).
    { rewrite Hfilter, Hnone. reflexivity. }
    rewrite Hsame by assumption. rewrite Hnil. reflexivity.
  - intros r Hr Hc. cbn [fst snd].
    assert (Hone : List.filter changed (jobs db) = [r]).
    { rewrite Hfilter, Hr. simpl. rewrite Hc.
      rewrite bool_decide_eq_false_2 by discriminate. reflexivity. }
    rewrite Hone. split; [reflexivity|].
    change (jobs (set_table_rows JobsTable ?l db)) with l.
    rewrite filter_map_commute by exact Hkeep. rewrite Hr. simpl.
    destruct (filter_singleton_In _ _ _ Hone) as [_ ->]. reflexivity.
  - cbn [fst snd]. intros Hok.
    destruct (List.filter changed (jobs db)) as [|r [|r2 rest]] eqn:E;
      try discriminate Hok.
    destruct (filter_singleton_In _ _ _ E) as [Hin Hch].
    exists r. pose proof Hch as Hch'. unfold changed in Hch'.
    apply andb_true_iff in Hch' as [Hjob Hneg].
    split; [assumption|]. split; [assumption|]. split.
    + intros Heq. rewrite Heq in Hneg. rewrite bool_decide_eq_true_2 in Hneg by reflexivity.
      discriminate.
    + change (jobs (set_table_rows JobsTable ?l db)) with l.
      apply in_map_iff. exists r. split; [|assumption]. rewrite Hch. reflexivity.
Qed.

Lemma jobCancel_raises_unless_flag_changes_witness :
  jobCancel 7 (PInt 1000) (db_one_job STATUS_RUNNING 1)
  = (Raise RuntimeError, db_one_job STATUS_RUNNING 1).
Proof.
  apply (proj1 (jobCancel_raises_unless_flag_changes 7 (PInt 1000)
                  (db_one_job STATUS_RUNNING 1))
           (example_job 1000 STATUS_RUNNING 1 50)).
  - reflexivity.
  - reflexivity.
Defined.

(** ** Columns under a SET clause *)

Lemma apply_assignments_cons sch now ce asg r :
  apply_assignments sch now (ce :: asg) r
  = apply_assignments sch now asg (<[fst ce := eval_expr sch now r (fst ce) (snd ce)]> r).
Proof. reflexivity. Qed.

Lemma apply_assignments_app sch now asg1 asg2 r :
  apply_assignments sch now (asg1 ++ asg2) r
  = apply_assignments sch now asg2 (apply_assignments sch now asg1 r).
Proof. unfold apply_assignments. apply fold_left_app. Qed.

(** A column no assignment names keeps its value. *)
Lemma col_apply_assignments_notin sch now asg c :
  forallb (fun ce => negb (String.eqb (fst ce) c)) asg = true ->
  forall r, col (apply_assignments sch now asg r) c = col r c.
Proof.
  induction asg as [|ce asg IH]; intros H r; [reflexivity|].
  simpl in H. apply andb_true_iff in H as [Hce Hrest].
  rewrite apply_assignments_cons, IH by assumption.
  apply col_insert_ne. apply negb_true_iff, String.eqb_neq in Hce. exact Hce.
Qed.

(** A column named once, by the first assignment, holds its value. *)
Lemma col_apply_assignments_head sch now c e asg r :
  forallb (fun ce => negb (String.eqb (fst ce) c)) asg = true ->
  col (apply_assignments sch now ((c, e) :: asg) r) c = eval_expr sch now r c e.
Proof.
  intros H. rewrite apply_assignments_cons, col_apply_assignments_notin by assumption.
  apply col_insert_eq.
Qed.

Lemma row_changed_intro asg r r' ce :
  In ce asg -> col r (fst ce) <> col r' (fst ce) -> row_changed asg r r' = true.
Proof.
  intros Hin Hne. unfold row_changed. apply existsb_exists. exists ce.
  split; [assumption|]. rewrite bool_decide_eq_false_2 by assumption. reflexivity.
Qed.

Lemma row_changed_false asg r r' :
  (forall ce, In ce asg -> col r (fst ce) = col r' (fst ce)) -> row_changed asg r r' = false.
Proof.
  intros H. unfold row_changed. apply not_true_is_false. intros Hex.
  apply existsb_exists in Hex as (ce & Hin & Hneg).
  rewrite bool_decide_eq_true_2 in Hneg by (apply H; assumption). discriminate.
Qed.

Lemma col_updated_row_notin sch now asg where_ c r :
  forallb (fun ce => negb (String.eqb (fst ce) c)) asg = true ->
  col (updated_row sch now asg where_ r) c = col r c.
Proof.
  intros H. unfold updated_row. destruct (where_ r); [|reflexivity].
  destruct (row_changed _ _ _); [|reflexivity].
  apply col_apply_assignments_notin. assumption.
Qed.

(** ** Reading one field of a job *)

Lemma dict_zip_values (keys vals : list string) (k v : string) :
  dict_zip keys vals !! k = Some v -> In v vals.
Proof.
  unfold dict_zip.
  assert (H : forall kvs (acc : gmap string string),
             fold_left (fun d kv => <[fst kv := snd kv]> d) kvs acc !! k = Some v ->
             In v (map snd kvs) \/ acc !! k = Some v).
  { induction kvs as [|kv kvs IH]; intros acc Hl; simpl in *; [right; assumption|].
    destruct (IH _ Hl) as [Hin|Hacc]; [left; right; assumption|].
    destruct (decide (fst kv = k)) as [Heq|Hne].
    - rewrite Heq, lookup_insert_eq in Hacc. left. left. congruence.
    - rewrite lookup_insert_ne in Hacc by assumption. right. assumption. }
  intros Hl. destruct (H _ _ Hl) as [Hin|Hempty].
  - clear -Hin. revert vals Hin. induction keys as [|k0 keys IH]; intros vals Hin.
    + destruct Hin.
    + destruct vals as [|v0 vals]; [destruct Hin|]. simpl in Hin.
      destruct Hin as [<-|Hin]; [left; reflexivity|right; apply IH; assumption].
  - rewrite lookup_empty in Hempty. discriminate.
Qed.

Lemma table_info_dict sch :
  pubToDBNameDict (table_info_or_empty (initTableInfo sch))
  = dict_zip (publicFieldNames (table_info_or_empty (initTableInfo sch)))
      (dbFieldNames (table_info_or_empty (initTableInfo sch))).
Proof. unfold initTableInfo. destruct (map_result _ _); reflexivity. Qed.

Lemma jobs_dict_is_zip :
  pubToDBNameDict _jobs = dict_zip (publicFieldNames _jobs) (dbFieldNames _jobs).
Proof. exact (table_info_dict jobs_schema). Qed.

Lemma models_dict_is_zip :
  pubToDBNameDict _models = dict_zip (publicFieldNames _models) (dbFieldNames _models).
Proof. exact (table_info_dict models_schema). Qed.

Lemma in_names_In names n : In n names -> in_names names n = true.
Proof.
  intros H. unfold in_names. apply existsb_exists. exists n. split; [assumption|].
  apply String.eqb_refl.
Qed.

Lemma jobs_dict_column f c :
  pubToDBNameDict _jobs !! f = Some c -> in_names (dbFieldNames _jobs) c = true.
Proof.
  rewrite jobs_dict_is_zip. intros H. apply in_names_In.
  apply dict_zip_values with (keys := publicFieldNames _jobs) (k := f). exact H.
Qed.

Lemma match_job_id_in r jobID :
  forallb (match_holds r) [("job_id", MSeq [jobID])] = job_is jobID r.
Proof.
  unfold job_is, col_eq, match_holds, sql_in. cbn.
  destruct (sql_eq (col r "job_id") (to_sql jobID)); reflexivity.
Qed.

Lemma map_result_getitem_one d f c :
  d !! f = Some c -> map_result (dict_getitem d) [f] = Ok [c].
Proof. intros H. unfold map_result, dict_getitem. rewrite H. reflexivity. Qed.

Lemma jobGetFields_found jobID f c db r rest :
  pubToDBNameDict _jobs !! f = Some c ->
  List.filter (job_is jobID) (jobs db) = r :: rest ->
  jobGetFields jobID [f] db = (Ok [of_sql (col r c)], db).
Proof.
  intros Hf Hr. unfold jobGetFields, jobsGetFields, bind, lift, assert_.
  rewrite (map_result_getitem_one _ _ _ Hf).
  cbn [length Nat.leb ret].
  unfold _getMatchingRowsWithRetries.
  rewrite getMatchingRows_eval.
  - unfold sql_select. change (table_rows JobsTable db) with (jobs db).
    rewrite (filter_ext_eq _ _ _ (fun r => match_job_id_in r jobID)), Hr. reflexivity.
  - reflexivity.
  - reflexivity.
  - reflexivity.
  - cbn [forallb table_info]. rewrite (jobs_dict_column f c Hf). reflexivity.
Qed.

Lemma jobGetFields_missing jobID f c db :
  pubToDBNameDict _jobs !! f = Some c ->
  List.filter (job_is jobID) (jobs db) = [] ->
  jobGetFields jobID [f] db = (Raise RuntimeError, db).
Proof.
  intros Hf Hr. unfold jobGetFields, jobsGetFields, bind, lift, assert_.
  rewrite (map_result_getitem_one _ _ _ Hf).
  cbn [length Nat.leb ret].
  unfold _getMatchingRowsWithRetries.
  rewrite getMatchingRows_eval.
  - unfold sql_select. change (table_rows JobsTable db) with (jobs db).
    rewrite (filter_ext_eq _ _ _ (fun r => match_job_id_in r jobID)), Hr. reflexivity.
  - reflexivity.
  - reflexivity.
  - reflexivity.
  - cbn [forallb table_info]. rewrite (jobs_dict_column f c Hf). reflexivity.
Qed.

(** ** Resuming a job *)

Lemma execute_update_unlimited t asg where_ db :
  execute_update t asg where_ None db =
    (Ok (length (List.filter
                   (counts_changed (table_schema t) (utc_timestamp db) asg where_)
                   (table_rows t db))),
     set_table_rows t
       (map (updated_row (table_schema t) (utc_timestamp db) asg where_) (table_rows t db))
       db).
Proof. unfold execute_update. rewrite sql_update_unlimited. reflexivity. Qed.

(** An UPDATE qualified on the job id, seen from the one row of that job. *)
Lemma filter_counts_job sch now asg jobID (extra : row -> bool) tbl :
  List.filter (counts_changed sch now asg (fun r => col_eq r "job_id" jobID && extra r)) tbl
  = List.filter (fun r => extra r && row_changed asg r (apply_assignments sch now asg r))
      (List.filter (job_is jobID) tbl).
Proof.
  rewrite <- filter_andb. apply filter_ext_eq. intros r.
  unfold counts_changed, job_is. rewrite andb_assoc. reflexivity.
Qed.

Lemma filter_job_updated sch now asg where_ jobID tbl :
  forallb (fun ce => negb (String.eqb (fst ce) "job_id")) asg = true ->
  List.filter (job_is jobID) (map (updated_row sch now asg where_) tbl)
  = map (updated_row sch now asg where_) (List.filter (job_is jobID) tbl).
Proof.
  intros H. apply filter_map_commute. intros r. unfold job_is, col_eq.
  rewrite col_updated_row_notin by assumption. reflexivity.
Qed.

Lemma resumeJob_update_completed conn jobID db r :
  List.filter (job_is jobID) (jobs db) = [r] ->
  col r "status" = VStr STATUS_COMPLETED ->
  exists db1 r1,
    resumeJob_update conn jobID false db = (Ok 1%nat, db1)
    /\ List.filter (job_is jobID) (jobs db1) = [r1]
    /\ col r1 "status" = VStr STATUS_NOTSTARTED.
Proof.
  intros Hr Hst. unfold resumeJob_update. rewrite execute_update_unlimited.
  cbn [table_schema table_rows app].
  match goal with |- context [updated_row ?sch ?now ?asg ?w] =>
    set (asg0 := asg); set (w0 := w); set (now0 := now) end.
  assert (Hstatus : col (apply_assignments jobs_schema now0 asg0 r) "status"
                    = VStr STATUS_NOTSTARTED).
  { unfold asg0. rewrite col_apply_assignments_head by reflexivity. reflexivity. }
  assert (Hchanged : row_changed asg0 r (apply_assignments jobs_schema now0 asg0 r) = true).
  { apply row_changed_intro with (ce := ("status", EParam (PStr STATUS_NOTSTARTED))).
    - left. reflexivity.
    - cbn [fst]. rewrite Hstatus, Hst. discriminate. }
  assert (Hcount : List.filter (counts_changed jobs_schema now0 asg0 w0) (jobs db) = [r]).
  { unfold w0. rewrite filter_counts_job, Hr. cbn [List.filter].
    unfold col_eq at 1. rewrite Hst, Hchanged. reflexivity. }
  eexists. exists (apply_assignments jobs_schema now0 asg0 r).
  split; [|split].
  - rewrite Hcount. reflexivity.
  - change (jobs (set_table_rows JobsTable ?l db)) with l.
    rewrite filter_job_updated by reflexivity. rewrite Hr. cbn [map].
    rewrite updated_row_changed; [reflexivity|].
    destruct (filter_singleton_In _ _ _ Hcount) as [_ H]. exact H.
  - exact Hstatus.
Qed.

Lemma resumeJob_update_not_completed conn jobID alreadyRunning db r :
  List.filter (job_is jobID) (jobs db) = [r] ->
  col r "status" <> VStr STATUS_COMPLETED ->
  resumeJob_update conn jobID alreadyRunning db = (Ok 0%nat, db).
Proof.
  intros Hr Hst. unfold resumeJob_update. rewrite execute_update_unlimited.
  cbn [table_schema table_rows].
  match goal with |- context [updated_row ?sch ?now ?asg ?w] =>
    set (asg0 := asg); set (w0 := w); set (now0 := now) end.
  assert (Hcount : List.filter (counts_changed jobs_schema now0 asg0 w0) (jobs db) = []).
  { unfold w0. rewrite filter_counts_job, Hr. cbn [List.filter].
    replace (col_eq r "status" (PStr STATUS_COMPLETED)) with false; [reflexivity|].
    symmetry. apply not_true_is_false. intros H. apply sql_eq_true in H as [H _].
    contradiction. }
  rewrite Hcount. f_equal.
  apply (set_table_rows_map_id JobsTable). intros r' Hin.
  apply updated_row_unchanged. exact (filter_nil_In _ _ _ Hcount Hin).
Qed.

(** C3 (amended). On a completed job the first [jobResume] succeeds and
    leaves the job in status notStarted; a second [jobResume] in succession
    raises [RuntimeError] and changes nothing.  It is the inner
    [_resumeJobNoRetries] for which a redundant resume is no error: run
    again on the resumed job it affects no row and returns. *)
Theorem jobResume_twice conn jobID db r :
  List.filter (job_is jobID) (jobs db) = [r] ->
  col r "status" = VStr STATUS_COMPLETED ->
  exists db1 r1,
    jobResume conn jobID false db = (Ok tt, db1)
    /\ List.filter (job_is jobID) (jobs db1) = [r1]
    /\ col r1 "status" = VStr STATUS_NOTSTARTED
    /\ jobResume conn jobID false db1 = (Raise RuntimeError, db1)
    /\ _resumeJobNoRetries conn jobID false db1 = (Ok tt, db1).
Proof.
  intros Hr Hst.
  destruct (resumeJob_update_completed conn jobID db r Hr Hst) as (db1 & r1 & Hup & Hr1 & Hst1).
  exists db1, r1.
  assert (Hdict : pubToDBNameDict _jobs !! "status" = Some "status") by reflexivity.
  assert (Hnot : col r1 "status" <> VStr STATUS_COMPLETED) by (rewrite Hst1; discriminate).
  split; [|split; [|split; [|split]]]; try assumption.
  - unfold jobResume, bind. rewrite (jobGetFields_found jobID "status" "status" db r []) by assumption.
    rewrite Hst. cbn [of_sql]. unfold py_eq. rewrite bool_decide_eq_true_2 by reflexivity.
    cbn [negb]. unfold _resumeJobNoRetries, bind. rewrite Hup. reflexivity.
  - unfold jobResume, bind.
    rewrite (jobGetFields_found jobID "status" "status" db1 r1 []) by assumption.
    rewrite Hst1. reflexivity.
  - unfold _resumeJobNoRetries, bind.
    rewrite (resumeJob_update_not_completed conn jobID false db1 r1) by assumption.
    reflexivity.
Qed.

Lemma jobResume_twice_witness :
  exists db1,
    jobResume 7 (PInt 1000) false (db_one_job STATUS_COMPLETED 0) = (Ok tt, db1)
    /\ jobResume 7 (PInt 1000) false db1 = (Raise RuntimeError, db1).
Proof.
  destruct (jobResume_twice 7 (PInt 1000) (db_one_job STATUS_COMPLETED 0)
              (example_job 1000 STATUS_COMPLETED 0 50))
    as (db1 & r1 & H1 & _ & _ & H2 & _).
  - reflexivity.
  - reflexivity.
  - exists db1. split; assumption.
Defined.

(** C3 as stated fails: the second of two [jobResume] calls in succession
    is an error, not a no-op. *)
Lemma jobResume_second_call_is_an_error :
  fst (jobResume 7 (PInt 1000) false (db_one_job STATUS_COMPLETED 0)) = Ok tt
  /\ fst (jobResume 7 (PInt 1000) false
            (snd (jobResume 7 (PInt 1000) false (db_one_job STATUS_COMPLETED 0))))
     = Raise RuntimeError.
Proof. split; reflexivity. Qed.

(** ** Starting the next job *)

Lemma match_not_started r :
  forallb (match_holds r) [("status", MScalar (PStr STATUS_NOTSTARTED))] = not_started r.
Proof. unfold not_started, match_holds, col_eq. cbn. apply andb_true_r. Qed.

Lemma select_not_started db :
  _getOneMatchingRowWithRetries JobsTable
    [("status", MScalar (PStr STATUS_NOTSTARTED))] ["job_id"] db
  = (Ok match List.filter not_started (jobs db) with
        | [] => None
        | r :: _ => Some [of_sql (col r "job_id")]
        end, db).
Proof.
  unfold _getOneMatchingRowWithRetries. rewrite getOneMatchingRow_eval by reflexivity.
  change (table_rows JobsTable db) with (jobs db).
  rewrite (filter_ext_eq _ _ _ match_not_started). reflexivity.
Qed.

(** C1 (amended). [jobStartNext] answers with the job id its SELECT found,
    whatever the other sessions did before its UPDATE and however many
    rows that UPDATE changed; it answers [None] only when no job has
    status notStarted. *)
Theorem jobStartNext_returns_selected conn env db :
  (List.filter not_started (jobs db) = [] -> jobStartNext conn env db = (Ok None, db))
  /\ (forall r rest, List.filter not_started (jobs db) = r :: rest ->
        jobStartNext conn env db
        = (Ok (Some (of_sql (col r "job_id"))),
           snd (startJob_update conn (of_sql (col r "job_id")) (env db)))).
Proof.
  split.
  - intros Hnone. unfold jobStartNext, bind. rewrite select_not_started, Hnone. reflexivity.
  - intros r rest Hsel. unfold jobStartNext, bind. rewrite select_not_started, Hsel.
    unfold interfere, _startJobWithRetries, bind, startJob_update, execute_update.
    reflexivity.
Qed.

Lemma jobStartNext_returns_selected_witness :
  fst (jobStartNext 7 other_scheduler_starts (db_one_job STATUS_NOTSTARTED 0))
  = Ok (Some (PInt 1000)).
Proof.
  rewrite (proj2 (jobStartNext_returns_selected 7 other_scheduler_starts
                    (db_one_job STATUS_NOTSTARTED 0))
             (example_job 1000 STATUS_NOTSTARTED 0 50) []).
  - reflexivity.
  - reflexivity.
Defined.

(** C1 as stated fails: session 8 starts job 1000 between the SELECT and
    the UPDATE of session 7, whose UPDATE then changes no row, yet session
    7 is handed job 1000. *)
Lemma jobStartNext_lost_race_returns_job :
  ~ jobStartNext_no_work_claim 7 other_scheduler_starts (db_one_job STATUS_NOTSTARTED 0).
Proof.
  intros Hclaim. specialize (Hclaim (PInt 1000) eq_refl eq_refl).
  change (Ok (Some (PInt 1000)) = Ok None :> result (option pyval)) in Hclaim.
  discriminate Hclaim.
Qed.

(** ** Compare-and-set on a job field *)

Lemma cas_row_changed now c newValue r :
  c <> "_eng_last_update_time" ->
  row_changed [("_eng_last_update_time", EUtcTimestamp); (c, EParam newValue)] r
    (apply_assignments jobs_schema now
       [("_eng_last_update_time", EUtcTimestamp); (c, EParam newValue)] r)
  = cas_changes now c newValue r.
Proof.
  intros Hc. unfold row_changed, cas_changes, apply_assignments. cbn.
  rewrite col_insert_eq, col_insert_ne, col_insert_eq by assumption.
  rewrite orb_false_r. reflexivity.
Qed.

(** C4 (amended). For a field other than the job id and the update time,
    [jobSetFieldIfEqual] answers true exactly when the stored value passes
    the qualification on [curValue] and the statement changes the row; a
    read of the field then observes the new value; when it answers false
    the database is as before. *)
Theorem jobSetFieldIfEqual_cas jobID fieldName c newValue curValue db r :
  pubToDBNameDict _jobs !! fieldName = Some c ->
  c <> "job_id" ->
  c <> "_eng_last_update_time" ->
  List.filter (job_is jobID) (jobs db) = [r] ->
  let won := condition_holds curValue (col r c)
             && cas_changes (utc_timestamp db) c newValue r in
  exists db',
    jobSetFieldIfEqual jobID fieldName newValue curValue db = (Ok won, db')
    /\ (won = true ->
          jobGetFields jobID [fieldName] db' = (Ok [of_sql (to_sql newValue)], db'))
    /\ (won = false -> db' = db).
Proof.
  intros Hf Hid Htime Hr won.
  unfold jobSetFieldIfEqual, bind, lift, dict_getitem. rewrite Hf.
  rewrite execute_update_unlimited. cbn [table_schema table_rows].
  set (asg := [("_eng_last_update_time", EUtcTimestamp); (c, EParam newValue)]).
  set (now := utc_timestamp db).
  assert (Hcount : List.filter
                     (counts_changed jobs_schema now asg
                        (fun r0 => col_eq r0 "job_id" jobID
                                   && condition_holds curValue (col r0 c)))
                     (jobs db)
                   = if won then [r] else []).
  { rewrite (filter_counts_job jobs_schema now asg jobID
               (fun r0 => condition_holds curValue (col r0 c))).
    rewrite Hr. cbn [List.filter]. unfold asg. rewrite cas_row_changed by assumption.
    reflexivity. }
  eexists. split; [|split].
  - rewrite Hcount. unfold ret. destruct won; reflexivity.
  - intros Hwon. rewrite Hwon in Hcount.
    rewrite (jobGetFields_found jobID fieldName c _
               (apply_assignments jobs_schema now asg r) []).
    + unfold asg, apply_assignments. cbn. rewrite col_insert_eq. reflexivity.
    + assumption.
    + change (jobs (set_table_rows JobsTable ?l db)) with l.
      rewrite filter_job_updated.
      * rewrite Hr. cbn [map]. rewrite updated_row_changed; [reflexivity|].
        destruct (filter_singleton_In _ _ _ Hcount) as [_ H]. exact H.
      * unfold asg. cbn. apply String.eqb_neq in Hid. rewrite Hid. reflexivity.
  - intros Hlost. rewrite Hlost in Hcount.
    apply (set_table_rows_map_id JobsTable). intros r' Hin.
    apply updated_row_unchanged. exact (filter_nil_In _ _ _ Hcount Hin).
Qed.

Lemma jobSetFieldIfEqual_cas_witness :
  fst (jobSetFieldIfEqual (PInt 1000) "engWorkerState" (PStr "B") (PStr "A")
         db_worker_state_A) = Ok true.
Proof.
  destruct (jobSetFieldIfEqual_cas (PInt 1000) "engWorkerState" "_eng_worker_state"
              (PStr "B") (PStr "A") db_worker_state_A
              (<["_eng_worker_state" := VStr "A"]> (example_job 1000 STATUS_RUNNING 0 50)))
    as (db' & H & _ & _).
  - reflexivity.
  - discriminate.
  - discriminate.
  - reflexivity.
  - rewrite H. reflexivity.
Defined.

(** C4 as stated fails: the stored worker state equals [curValue], but the
    new value is the same and the row was last written in the same second,
    so no row changes and the answer is false. *)
Lemma jobSetFieldIfEqual_same_value_same_second :
  ~ jobSetFieldIfEqual_claim (PInt 1000) "engWorkerState" (PStr "A") (PStr "A")
      db_worker_state_A.
Proof.
  intros Hclaim.
  destruct (Hclaim (<["_eng_worker_state" := VStr "A"]> (example_job 1000 STATUS_RUNNING 0 50))
              "_eng_worker_state" eq_refl eq_refl) as [_ H].
  specialize (H eq_refl).
  change (Ok false = Ok true :> result bool) in H. discriminate H.
Qed.

(** ** Progress reports of a model *)

Lemma SFeqb_self (m : spec_float) : SFeqb m m = negb (is_nan m).
Proof.
  destruct m as [s|s| |s m e]; unfold SFeqb; cbn.
  - reflexivity.
  - destruct s; reflexivity.
  - reflexivity.
  - destruct s; rewrite Z.compare_refl, Pos.compare_cont_refl; reflexivity.
Qed.

Lemma metric_given_nan : metric_given (Some S754_nan) = None.
Proof. reflexivity. Qed.

Lemma metric_given_number m : is_nan m = false -> metric_given (Some m) = Some m.
Proof. intros H. unfold metric_given. rewrite SFeqb_self, H. reflexivity. Qed.

(** An UPDATE qualified by a key and a further condition, seen from the
    rows with that key. *)
Lemma filter_counts_where sch now asg (key extra : row -> bool) tbl :
  List.filter (counts_changed sch now asg (fun r => key r && extra r)) tbl
  = List.filter (fun r => extra r && row_changed asg r (apply_assignments sch now asg r))
      (List.filter key tbl).
Proof.
  rewrite <- filter_andb. apply filter_ext_eq. intros r.
  unfold counts_changed. rewrite andb_assoc. reflexivity.
Qed.

Lemma filter_model_updated sch now asg where_ modelID tbl :
  forallb (fun ce => negb (String.eqb (fst ce) "model_id")) asg = true ->
  List.filter (model_is modelID) (map (updated_row sch now asg where_) tbl)
  = map (updated_row sch now asg where_) (List.filter (model_is modelID) tbl).
Proof.
  intros H. apply filter_map_commute. intros r. unfold model_is, col_eq.
  rewrite col_updated_row_notin by assumption. reflexivity.
Qed.

Ltac col_insert_simpl :=
  repeat first [ rewrite col_insert_eq | rewrite col_insert_ne by discriminate ].

Lemma updateResults_row now results metric numRecords r n :
  col r "update_counter" = VInt n ->
  let r' := apply_assignments models_schema now
              ([ ("_eng_last_update_time", EUtcTimestamp);
                 ("update_counter", EPlus "update_counter" 1) ]
               ++ optional_assignment "results" (PStr <$> results)
               ++ optional_assignment "num_records" (PInt <$> numRecords)
               ++ optional_assignment "optimized_metric" (PFloat <$> metric))%list r in
  col r' "update_counter" = VInt (n + 1)
  /\ col r' "_eng_last_update_time" = VTime now
  /\ col r' "results" = supplied (VStr <$> results) (col r "results")
  /\ col r' "num_records" = supplied (VInt <$> numRecords) (col r "num_records")
  /\ col r' "optimized_metric" = supplied (VFloat <$> metric) (col r "optimized_metric")
  /\ col r' "model_id" = col r "model_id".
Proof.
  intros Hn r'. unfold r', apply_assignments.
  destruct results, numRecords, metric;
    cbn [optional_assignment fmap option_fmap option_map app fold_left fst snd eval_expr
         to_sql supplied];
    col_insert_simpl; rewrite ?Hn; cbn [sql_plus]; repeat split; reflexivity.
Qed.

(** C5. A session whose connection id is not the stored [engWorkerConnId]
    changes no row, gets [InvalidConnectionException] and leaves the
    database as it was.  For the owner the call succeeds, adds one to
    [updateCounter], stamps [engLastUpdateTime] and stores the results and
    record count supplied; a NaN metric is left out, the stored metric
    staying as it was, while the other fields are still updated. *)
Theorem modelUpdateResults_ownership conn modelID results metricValue numRecords db r :
  List.filter (model_is modelID) (models db) = [r] ->
  (col r "_eng_worker_conn_id" <> VInt conn ->
     fst (updateResults_update conn modelID results metricValue numRecords db) = Ok 0%nat
     /\ modelUpdateResults conn modelID results metricValue numRecords db
        = (Raise InvalidConnectionException, db))
  /\ (forall n, col r "_eng_worker_conn_id" = VInt conn ->
        col r "update_counter" = VInt n ->
        exists db' r',
          modelUpdateResults conn modelID results metricValue numRecords db = (Ok tt, db')
          /\ List.filter (model_is modelID) (models db') = [r']
          /\ col r' "update_counter" = VInt (n + 1)
          /\ col r' "_eng_last_update_time" = VTime (utc_timestamp db)
          /\ col r' "results" = supplied (VStr <$> results) (col r "results")
          /\ col r' "num_records" = supplied (VInt <$> numRecords) (col r "num_records")
          /\ col r' "optimized_metric"
             = match metricValue with
               | Some m => if is_nan m then col r "optimized_metric" else VFloat m
               | None => col r "optimized_metric"
               end).
Proof.
  intros Hr.
  unfold modelUpdateResults, updateResults_update, bind.
  rewrite execute_update_unlimited. cbn [table_schema table_rows fst].
  match goal with |- context [updated_row ?sch ?now ?a ?w] =>
    set (asg := a); set (now0 := now) end.
  assert (Hsplit : forall tbl,
            List.filter
              (counts_changed models_schema now0 asg
                 (fun r0 => col_eq r0 "model_id" modelID
                            && col_eq r0 "_eng_worker_conn_id" (PInt conn))) tbl
            = List.filter
                (fun r0 => col_eq r0 "_eng_worker_conn_id" (PInt conn)
                           && row_changed asg r0 (apply_assignments models_schema now0 asg r0))
                (List.filter (model_is modelID) tbl)).
  { intros tbl. apply (filter_counts_where models_schema now0 asg
                         (fun r0 => col_eq r0 "model_id" modelID)). }
  split.
  - intros Hother.
    assert (Hcount : List.filter
              (counts_changed models_schema now0 asg
                 (fun r0 => col_eq r0 "model_id" modelID
                            && col_eq r0 "_eng_worker_conn_id" (PInt conn))) (models db) = []).
    { rewrite Hsplit, Hr. cbn [List.filter].
      replace (col_eq r "_eng_worker_conn_id" (PInt conn)) with false; [reflexivity|].
      symmetry. apply not_true_is_false. intros H. apply sql_eq_true in H as [H _].
      contradiction. }
    rewrite Hcount. cbn [length Nat.eqb negb].
    split; [reflexivity|]. unfold raise. f_equal.
    apply (set_table_rows_map_id ModelsTable). intros r0 Hin.
    apply updated_row_unchanged. exact (filter_nil_In _ _ _ Hcount Hin).
  - intros n Howner Hn.
    destruct (updateResults_row now0 results (metric_given metricValue) numRecords r n Hn)
      as (Huc & Htime & Hres & Hnum & Hmetric & Hid).
    fold asg in Huc, Htime, Hres, Hnum, Hmetric, Hid.
    assert (Hchanged : row_changed asg r (apply_assignments models_schema now0 asg r) = true).
    { apply row_changed_intro with (ce := ("update_counter", EPlus "update_counter" 1)).
      - right. left. reflexivity.
      - cbn [fst]. rewrite Huc, Hn. intros H. injection H as H. lia. }
    assert (Hcount : List.filter
              (counts_changed models_schema now0 asg
                 (fun r0 => col_eq r0 "model_id" modelID
                            && col_eq r0 "_eng_worker_conn_id" (PInt conn))) (models db) = [r]).
    { rewrite Hsplit, Hr. cbn [List.filter].
      unfold col_eq at 1. rewrite Howner. cbn [to_sql].
      rewrite sql_eq_refl by discriminate. rewrite Hchanged. reflexivity. }
    eexists. exists (apply_assignments models_schema now0 asg r).
    rewrite Hcount. cbn [length Nat.eqb negb].
    split; [reflexivity|]. split.
    + change (models (set_table_rows ModelsTable ?l db)) with l.
      rewrite filter_model_updated.
      * rewrite Hr. cbn [map]. rewrite updated_row_changed; [reflexivity|].
        destruct (filter_singleton_In _ _ _ Hcount) as [_ H]. exact H.
      * unfold asg. destruct results, numRecords, (metric_given metricValue); reflexivity.
    + rewrite Huc, Htime, Hres, Hnum, Hmetric. repeat split.
      destruct metricValue as [m|]; [|reflexivity].
      unfold metric_given. rewrite SFeqb_self. destruct (is_nan m); reflexivity.
Qed.

(** Evaluation of a WHERE clause over the rows of a concrete table. *)
Ltac eval_filter :=
  cbn [jobs models List.filter];
  repeat match goal with
         | |- context [if ?c then _ else _] =>
             let b := eval vm_compute in c in
             let H := fresh in
             assert (H : c = b) by (vm_compute; reflexivity);
             rewrite H; clear H
         end;
  try reflexivity.

Lemma example_model_row owner counter :
  List.filter (model_is (PInt 1000)) (models (db_one_model owner counter))
  = [example_model 1000 1000 owner counter].
Proof. unfold db_one_model. eval_filter. Qed.

Lemma modelUpdateResults_ownership_witness :
  modelUpdateResults 8 (PInt 1000) (Some "x") None None (db_one_model 7 0)
  = (Raise InvalidConnectionException, db_one_model 7 0)
  /\ fst (modelUpdateResults 7 (PInt 1000) (Some "x") (Some S754_nan) (Some 3)
            (db_one_model 7 0)) = Ok tt.
Proof.
  split.
  - apply (proj1 (modelUpdateResults_ownership 8 (PInt 1000) (Some "x") None None
                    (db_one_model 7 0) (example_model 1000 1000 7 0)
                    (example_model_row 7 0))).
    vm_compute. discriminate.
  - destruct (proj2 (modelUpdateResults_ownership 7 (PInt 1000) (Some "x") (Some S754_nan)
                       (Some 3) (db_one_model 7 0) (example_model 1000 1000 7 0)
                       (example_model_row 7 0))
                0) as (db' & r' & H & _).
    + vm_compute. reflexivity.
    + vm_compute. reflexivity.
    + rewrite H. reflexivity.
Defined.

(** ** The update counter of a model *)

Lemma counter_step_monotone r r' n :
  counter_step r r' -> col r "update_counter" = VInt n ->
  col r' "update_counter" = VInt n \/ col r' "update_counter" = VInt (n + 1).
Proof. intros [H|H] Hn; rewrite H, Hn; [left|right]; reflexivity. Qed.

Lemma Forall2_counter_step_refl tbl : Forall2 counter_step tbl tbl.
Proof. induction tbl; constructor; [left; reflexivity|assumption]. Qed.

(** A SET clause that names the counter once, as [update_counter+1]. *)
Lemma col_apply_increment sch now pre post c r :
  forallb (fun ce => negb (String.eqb (fst ce) c)) pre = true ->
  forallb (fun ce => negb (String.eqb (fst ce) c)) post = true ->
  col (apply_assignments sch now (pre ++ (c, EPlus c 1) :: post) r) c
  = sql_plus (col r c) 1.
Proof.
  intros Hpre Hpost. rewrite apply_assignments_app.
  rewrite col_apply_assignments_head by assumption. cbn [eval_expr].
  rewrite col_apply_assignments_notin by assumption. reflexivity.
Qed.

Lemma sql_update_counter_step sch now pre post where_ limit tbl :
  forallb (fun ce => negb (String.eqb (fst ce) "update_counter")) pre = true ->
  forallb (fun ce => negb (String.eqb (fst ce) "update_counter")) post = true ->
  Forall2 counter_step tbl
    (snd (sql_update sch now
            (pre ++ ("update_counter", EPlus "update_counter" 1) :: post)
            where_ limit tbl)).
Proof.
  intros Hpre Hpost. revert limit.
  induction tbl as [|r tbl IH]; intros limit; cbn [sql_update]; [constructor|].
  destruct (limit_reached limit); [apply Forall2_counter_step_refl|].
  destruct (where_ r).
  - destruct (row_changed _ r _); cbn [snd]; constructor; try apply IH.
    + right. apply col_apply_increment; assumption.
    + left. reflexivity.
  - cbn [snd]. constructor; [left; reflexivity|apply IH].
Qed.

Lemma sql_update_keeps_col sch now asg where_ limit c tbl :
  forallb (fun ce => negb (String.eqb (fst ce) c)) asg = true ->
  map (fun r => col r c) (snd (sql_update sch now asg where_ limit tbl))
  = map (fun r => col r c) tbl.
Proof.
  intros Hasg. revert limit.
  induction tbl as [|r tbl IH]; intros limit; cbn [sql_update]; [reflexivity|].
  destruct (limit_reached limit); [reflexivity|].
  destruct (where_ r).
  - destruct (row_changed _ r _); cbn [snd map]; rewrite IH; [|reflexivity].
    rewrite col_apply_assignments_notin by assumption. reflexivity.
  - cbn [snd map]. rewrite IH. reflexivity.
Qed.

(** *** Which columns the generic setter assigns *)

Lemma dict_zip_pair (keys vals : list string) (k v : string) :
  dict_zip keys vals !! k = Some v -> In (k, v) (combine keys vals).
Proof.
  unfold dict_zip.
  assert (H : forall kvs (acc : gmap string string),
             fold_left (fun d kv => <[fst kv := snd kv]> d) kvs acc !! k = Some v ->
             In (k, v) kvs \/ acc !! k = Some v).
  { induction kvs as [|kv kvs IH]; intros acc Hl; cbn [fold_left] in Hl; [right; assumption|].
    destruct (IH _ Hl) as [Hin|Hacc]; [left; right; assumption|].
    destruct (decide (fst kv = k)) as [Heq|Hne].
    - rewrite Heq, lookup_insert_eq in Hacc. left. left.
      destruct kv as [k0 v0]. cbn [fst snd] in *. congruence.
    - rewrite lookup_insert_ne in Hacc by assumption. right. assumption. }
  intros Hl. destruct (H _ _ Hl) as [Hin|Hempty]; [assumption|].
  rewrite lookup_empty in Hempty. discriminate.
Qed.

Lemma models_update_counter_name f :
  pubToDBNameDict _models !! f = Some "update_counter" -> f = "updateCounter".
Proof.
  rewrite models_dict_is_zip. intros H. apply dict_zip_pair in H.
  vm_compute in H.
  repeat (destruct H as [H|H];
          [first [discriminate H | injection H as H1; symmetry; exact H1]|]).
  destruct H.
Qed.

Lemma field_assignments_columns info fields asg :
  field_assignments info fields = Ok asg ->
  forall ce, In ce asg ->
    exists f v, In (f, v) fields /\ pubToDBNameDict info !! f = Some (fst ce).
Proof.
  unfold field_assignments. revert asg.
  induction fields as [|[f v] fields IH]; intros asg H ce Hin; cbn [map_result] in H.
  - injection H as <-. destruct Hin.
  - unfold dict_getitem in H at 1. cbn [fst snd] in H.
    destruct (pubToDBNameDict info !! f) as [c|] eqn:Hc; [|discriminate H].
    cbn [result_bind] in H.
    destruct (map_result _ fields) as [rest|e] eqn:Hrest; [|discriminate H].
    cbn [result_bind] in H. injection H as <-.
    destruct Hin as [<-|Hin].
    + exists f, v. split; [left; reflexivity|assumption].
    + destruct (IH rest eq_refl ce Hin) as (f' & v' & Hin' & Hd).
      exists f', v'. split; [right; assumption|assumption].
Qed.

Lemma field_assignments_keep_counter fields asg :
  (forall f v, In (f, v) fields -> f <> "updateCounter") ->
  field_assignments _models fields = Ok asg ->
  forallb (fun ce => negb (String.eqb (fst ce) "update_counter")) asg = true.
Proof.
  intros Hfields Hasg. apply forallb_forall. intros ce Hin.
  apply negb_true_iff, String.eqb_neq. intros Heq.
  destruct (field_assignments_columns _ _ _ Hasg ce Hin) as (f & v & Hin' & Hd).
  rewrite Heq in Hd. apply models_update_counter_name in Hd.
  exact (Hfields f v Hin' Hd).
Qed.

(** *** The four writers *)

Lemma modelSetFields_counter_step modelID fields ignoreUnchanged db :
  (forall f v, In (f, v) fields -> f <> "updateCounter") ->
  Forall2 counter_step (models db)
    (models (snd (modelSetFields modelID fields ignoreUnchanged db))).
Proof.
  intros Hfields. unfold modelSetFields, bind, lift.
  destruct (field_assignments _models fields) as [asg|e] eqn:Hasg;
    [|apply Forall2_counter_step_refl].
  destruct (is_nil asg); cbn [raise ret]; [apply Forall2_counter_step_refl|].
  unfold execute_update.
  match goal with
  | |- context [sql_update ?sch ?now ?a ?w ?l ?t] =>
      assert (Hstep : Forall2 counter_step (models db) (snd (sql_update sch now a w l t)))
  end.
  { apply (sql_update_counter_step models_schema _ asg []); [|reflexivity].
    apply field_assignments_keep_counter with (fields := fields); assumption. }
  destruct (negb _ && negb _); exact Hstep.
Qed.

Lemma modelUpdateResults_counter_step conn modelID results metricValue numRecords db :
  Forall2 counter_step (models db)
    (models (snd (modelUpdateResults conn modelID results metricValue numRecords db))).
Proof.
  unfold modelUpdateResults, updateResults_update, bind, execute_update.
  match goal with
  | |- context [sql_update ?sch ?now ?a ?w ?l ?t] =>
      assert (Hstep : Forall2 counter_step (models db) (snd (sql_update sch now a w l t)))
  end.
  { apply (sql_update_counter_step models_schema _
             [("_eng_last_update_time", EUtcTimestamp)]); [reflexivity|].
    destruct results, numRecords, (metric_given metricValue); reflexivity. }
  destruct (negb _); exact Hstep.
Qed.

Lemma modelSetCompleted_counter_step conn modelID completionReason completionMsg cpuTime
    useConnectionID db :
  Forall2 counter_step (models db)
    (models (snd (modelSetCompleted conn modelID completionReason completionMsg cpuTime
                    useConnectionID db))).
Proof.
  unfold modelSetCompleted, bind, execute_update.
  match goal with
  | |- context [sql_update ?sch ?now ?a ?w ?l ?t] =>
      assert (Hstep : Forall2 counter_step (models db) (snd (sql_update sch now a w l t)))
  end.
  { apply (sql_update_counter_step models_schema _
             [ ("status", EParam (PStr STATUS_COMPLETED));
               ("completion_reason", EParam completionReason);
               ("completion_msg", EParam (PStr match completionMsg with
                                               | None => ""
                                               | Some msg => msg
                                               end));
               ("end_time", EUtcTimestamp);
               ("cpu_time", EParam cpuTime);
               ("_eng_last_update_time", EUtcTimestamp) ] []); reflexivity. }
  destruct (negb _); exact Hstep.
Qed.

Lemma keeps_counters_bind {A B} (m : M A) (k : A -> M B) :
  keeps_counters m -> (forall a, keeps_counters (k a)) -> keeps_counters (bind m k).
Proof.
  intros Hm Hk db. unfold bind. specialize (Hm db).
  destruct (m db) as [[a|e] db1]; cbn [snd] in *; [|assumption].
  rewrite Hk. assumption.
Qed.

Lemma keeps_counters_same {A} (m : M A) :
  (forall db, snd (m db) = db) -> keeps_counters m.
Proof. intros H db. rewrite H. reflexivity. Qed.

Lemma keeps_counters_assert b : keeps_counters (assert_ b).
Proof. apply keeps_counters_same. intros db. destruct b; reflexivity. Qed.

Lemma keeps_counters_select t cols where_ limit :
  keeps_counters (execute_select t cols where_ limit).
Proof. apply keeps_counters_same. reflexivity. Qed.

Lemma keeps_counters_getMatchingRows t fieldsToMatch selectFieldNames maxRows :
  keeps_counters (_getMatchingRowsNoRetries t fieldsToMatch selectFieldNames maxRows).
Proof.
  unfold _getMatchingRowsNoRetries.
  repeat (apply keeps_counters_bind; [apply keeps_counters_assert|intros _]).
  apply keeps_counters_select.
Qed.

Lemma keeps_counters_getOneMatchingRow t fieldsToMatch selectFieldNames :
  keeps_counters (_getOneMatchingRowNoRetries t fieldsToMatch selectFieldNames).
Proof.
  unfold _getOneMatchingRowNoRetries.
  apply keeps_counters_bind; [apply keeps_counters_getMatchingRows|].
  intros [|r rest]; [apply keeps_counters_same; reflexivity|].
  apply keeps_counters_bind; [apply keeps_counters_assert|].
  intros _. apply keeps_counters_same. reflexivity.
Qed.

Lemma keeps_counters_update asg where_ limit :
  forallb (fun ce => negb (String.eqb (fst ce) "update_counter")) asg = true ->
  keeps_counters (execute_update ModelsTable asg where_ limit).
Proof.
  intros H db. unfold counters, execute_update. cbn [snd].
  change (models (set_table_rows ModelsTable ?l db)) with l.
  apply sql_update_keeps_col. assumption.
Qed.

Lemma keeps_counters_findCandidate jobId maxUpdateInterval :
  keeps_counters (findCandidateModelWithRetries jobId maxUpdateInterval).
Proof.
  unfold findCandidateModelWithRetries.
  apply keeps_counters_bind; [apply keeps_counters_same; reflexivity|]. intros now.
  apply keeps_counters_bind; [apply keeps_counters_select|]. intros rows.
  apply keeps_counters_bind; [apply keeps_counters_assert|]. intros _.
  apply keeps_counters_same. intros db.
  destruct rows as [|[|modelID [|x xs]] rest]; reflexivity.
Qed.

Lemma keeps_counters_adoptModel conn modelID maxUpdateInterval :
  keeps_counters (adoptModelWithRetries conn modelID maxUpdateInterval).
Proof.
  unfold adoptModelWithRetries.
  apply keeps_counters_bind; [apply keeps_counters_same; reflexivity|]. intros now.
  apply keeps_counters_bind; [apply keeps_counters_update; reflexivity|]. intros n.
  apply keeps_counters_bind; [apply keeps_counters_assert|]. intros _.
  destruct (n =? 1)%nat; [apply keeps_counters_same; reflexivity|].
  apply keeps_counters_bind; [apply keeps_counters_getOneMatchingRow|].
  intros row. apply keeps_counters_same. intros db.
  destruct row as [[|status [|connectionID [|x xs]]]|]; reflexivity.
Qed.

Lemma keeps_counters_adopt conn fuel jobId maxUpdateInterval :
  keeps_counters (modelAdoptNextOrphan conn fuel jobId maxUpdateInterval).
Proof.
  unfold modelAdoptNextOrphan.
  induction fuel as [|fuel IH]; cbn [adopt_loop]; [apply keeps_counters_same; reflexivity|].
  apply keeps_counters_bind; [apply keeps_counters_findCandidate|].
  intros [m|]; [|apply keeps_counters_same; reflexivity].
  apply keeps_counters_bind; [apply keeps_counters_adoptModel|].
  intros [|]; [apply keeps_counters_same; reflexivity|exact IH].
Qed.

(** C7 (amended). Every write to the models table steps the counter of each
    row by zero or by one: [modelUpdateResults], [modelSetCompleted] and
    orphan adoption always, [modelSetFields] when its field dict does not
    itself assign [updateCounter].  An integer counter therefore never
    decreases under these writes. *)
Theorem updateCounter_steps conn db :
  (forall modelID fields ignoreUnchanged,
     (forall f v, In (f, v) fields -> f <> "updateCounter") ->
     Forall2 counter_step (models db)
       (models (snd (modelSetFields modelID fields ignoreUnchanged db))))
  /\ (forall modelID results metricValue numRecords,
        Forall2 counter_step (models db)
          (models (snd (modelUpdateResults conn modelID results metricValue numRecords db))))
  /\ (forall modelID completionReason completionMsg cpuTime useConnectionID,
        Forall2 counter_step (models db)
          (models (snd (modelSetCompleted conn modelID completionReason completionMsg
                          cpuTime useConnectionID db))))
  /\ (forall fuel jobId maxUpdateInterval,
        counters (snd (modelAdoptNextOrphan conn fuel jobId maxUpdateInterval db))
        = counters db)
  /\ (forall r r' n, counter_step r r' -> col r "update_counter" = VInt n ->
        exists n', col r' "update_counter" = VInt n' /\ n <= n' <= n + 1).
Proof.
  split; [|split; [|split; [|split]]].
  - intros. apply modelSetFields_counter_step. assumption.
  - intros. apply modelUpdateResults_counter_step.
  - intros. apply modelSetCompleted_counter_step.
  - intros. apply keeps_counters_adopt.
  - intros r r' n Hstep Hn.
    destruct (counter_step_monotone r r' n Hstep Hn) as [H|H]; eexists; (split; [exact H|lia]).
Qed.

Lemma updateCounter_steps_witness :
  Forall2 counter_step (models (db_one_model 7 2))
    (models (snd (modelSetFields (PInt 1000) [("results", PStr "x")] false
                    (db_one_model 7 2)))).
Proof.
  apply (proj1 (updateCounter_steps 7 (db_one_model 7 2))).
  intros f v [H|[]]. injection H as <- _. discriminate.
Defined.

(** C7 as stated fails: [modelSetFields] with [updateCounter] in its dict
    takes the counter of model 1000 from 2 down to 1. *)
Lemma modelSetFields_can_lower_counter :
  ~ modelSetFields_monotone_claim (PInt 1000) [("updateCounter", PInt 0)] (db_one_model 7 2).
Proof.
  unfold modelSetFields_monotone_claim. intros Hclaim.
  assert (Hafter : map (fun r => col r "update_counter")
                     (models (snd (modelSetFields (PInt 1000) [("updateCounter", PInt 0)]
                                     false (db_one_model 7 2))))
                   = [VInt 1]) by (vm_compute; reflexivity).
  destruct (models (snd (modelSetFields _ _ _ _))) as [|r' [|x xs]]; try discriminate Hafter.
  injection Hafter as Hr'.
  inversion Hclaim as [|r0 r0' l l' Hrow _ Hl]. subst.
  assert (Hbefore : col (example_model 1000 1000 7 2) "update_counter" = VInt 2)
    by (vm_compute; reflexivity).
  specialize (Hrow 2 1 Hbefore Hr'). lia.
Qed.

(** ** Admission of a unique job *)

Lemma normalizeHash_ok_length hashValue h :
  _normalizeHash hashValue = Ok h -> String.length h = HASH_MAX_LEN.
Proof.
  intros H. destruct (normalizeHash_result hashValue) as [(h' & H' & Hlen)|H'];
    rewrite H' in H; [injection H as <-; assumption|discriminate H].
Qed.

Lemma col_apply_assignments_mid sch now pre c e post r :
  forallb (fun ce => negb (String.eqb (fst ce) c)) post = true ->
  col (apply_assignments sch now (pre ++ (c, e) :: post) r) c
  = eval_expr sch now (apply_assignments sch now pre r) c e.
Proof.
  intros H. rewrite apply_assignments_app. apply col_apply_assignments_head. assumption.
Qed.

Lemma sql_update_keeps {B} (g : row -> B) sch now asg where_ limit tbl :
  (forall r, g (apply_assignments sch now asg r) = g r) ->
  map g (snd (sql_update sch now asg where_ limit tbl)) = map g tbl.
Proof.
  intros Hg. revert limit.
  induction tbl as [|r tbl IH]; intros limit; cbn [sql_update]; [reflexivity|].
  destruct (limit_reached limit); [reflexivity|].
  destruct (where_ r).
  - destruct (row_changed _ r _); cbn [snd map]; rewrite IH; [|reflexivity].
    rewrite Hg. reflexivity.
  - cbn [snd map]. rewrite IH. reflexivity.
Qed.

Lemma job_identity_kept sch now asg r :
  forallb (fun ce => negb (String.eqb (fst ce) "client")) asg = true ->
  forallb (fun ce => negb (String.eqb (fst ce) "job_hash")) asg = true ->
  forallb (fun ce => negb (String.eqb (fst ce) "job_id")) asg = true ->
  job_identity (apply_assignments sch now asg r) = job_identity r.
Proof.
  intros H1 H2 H3. unfold job_identity.
  rewrite !col_apply_assignments_notin by assumption. reflexivity.
Qed.

Lemma filter_projection {A B} (g : A -> B) (P : A -> bool) (Q : B -> bool) (l : list A) :
  (forall x, P x = Q (g x)) -> map g (List.filter P l) = List.filter Q (map g l).
Proof.
  intros H. induction l as [|x l IH]; cbn [List.filter map]; [reflexivity|].
  rewrite H. destruct (Q (g x)); cbn [map]; rewrite IH; reflexivity.
Qed.

Lemma same_job_by_identity client h r :
  same_job client h r = same_job_identity client h (job_identity r).
Proof. reflexivity. Qed.

(** The rows of a job are the same, up to the columns that identify them,
    in two tables that agree on those columns. *)
Lemma same_job_rows_agree client h tbl tbl' :
  map job_identity tbl' = map job_identity tbl ->
  map job_identity (List.filter (same_job client h) tbl')
  = map job_identity (List.filter (same_job client h) tbl).
Proof.
  intros H.
  rewrite !(filter_projection job_identity _ (same_job_identity client h))
    by apply same_job_by_identity.
  rewrite H. reflexivity.
Qed.

Lemma match_client_hash client h r :
  forallb (match_holds r)
    [("client", MScalar (PStr client)); ("job_hash", MScalar (PStr h))]
  = same_job client h r.
Proof.
  unfold same_job, match_holds, col_eq. cbn. rewrite andb_true_r. reflexivity.
Qed.

Lemma select_same_job client h db :
  _getOneMatchingRowNoRetries JobsTable
    [("client", MScalar (PStr client)); ("job_hash", MScalar (PStr h))]
    ["job_id"; "status"] db
  = (Ok match List.filter (same_job client h) (jobs db) with
        | [] => None
        | r :: _ => Some [of_sql (col r "job_id"); of_sql (col r "status")]
        end, db).
Proof.
  rewrite getOneMatchingRow_eval by reflexivity.
  change (table_rows JobsTable db) with (jobs db).
  rewrite (filter_ext_eq _ _ _ (match_client_hash client h)). reflexivity.
Qed.

(** The row [_insertOrGetUniqueJobNoRetries] inserts. *)
Lemma inserted_job_columns now auto client cmdLine h clientInfo clientKey params
    minW maxW jobType priority :
  let r := new_row jobs_schema now auto
             [ ("status", EParam (PStr STATUS_NOTSTARTED));
               ("client", EParam (PStr client));
               ("client_info", EParam (PStr clientInfo));
               ("client_key", EParam (PStr clientKey));
               ("cmd_line", EParam (PStr cmdLine));
               ("params", EParam (PStr params));
               ("job_hash", EParam (PStr h));
               ("_eng_last_update_time", EUtcTimestamp);
               ("minimum_workers", EParam (PInt minW));
               ("maximum_workers", EParam (PInt maxW));
               ("priority", EParam (PInt priority));
               ("_eng_job_type", EParam (PStr jobType)) ] in
  col r "job_id" = VInt auto
  /\ col r "client" = VStr client
  /\ col r "job_hash" = VStr h
  /\ col r "status" = VStr STATUS_NOTSTARTED.
Proof.
  intros r. unfold r, new_row. split; [|split; [|split]].
  - rewrite col_apply_assignments_notin by reflexivity. apply col_insert_eq.
  - rewrite apply_assignments_cons.
    rewrite col_apply_assignments_head by reflexivity. reflexivity.
  - do 6 rewrite apply_assignments_cons.
    rewrite col_apply_assignments_head by reflexivity. reflexivity.
  - rewrite col_apply_assignments_head by reflexivity. reflexivity.
Qed.

Lemma duplicate_entry_jobs_false r tbl :
  Forall (fun r0 => col r0 "job_id" <> col r "job_id") tbl ->
  List.filter (fun r0 => sql_eq (col r0 "client") (col r "client")
                         && sql_eq (col r0 "job_hash") (col r "job_hash")) tbl = [] ->
  duplicate_entry jobs_schema r tbl = false.
Proof.
  intros Hid Hkey. unfold duplicate_entry. apply not_true_is_false. intros Hdup.
  apply existsb_exists in Hdup as (r0 & Hin & Hkeys).
  cbn [sch_unique jobs_schema existsb same_key forallb] in Hkeys.
  rewrite !andb_true_r, orb_false_r in Hkeys.
  apply orb_true_iff in Hkeys as [Hpk|Hck].
  - apply sql_eq_true in Hpk as [Heq _].
    exact (proj1 (List.Forall_forall _ _) Hid r0 Hin Heq).
  - pose proof (filter_nil_In _ _ r0 Hkey Hin) as Hfalse. cbv beta in Hfalse.
    rewrite Hck in Hfalse. discriminate.
Qed.

Lemma jobInsertUnique_absent conn client cmdLine jobHash h clientInfo clientKey params
    minW maxW jobType priority db :
  (String.length client <= CLIENT_MAX_LEN)%nat ->
  cmdLine <> "" ->
  _normalizeHash jobHash = Ok h ->
  jobs_table_ok db ->
  List.filter (same_job client h) (jobs db) = [] ->
  exists r,
    jobInsertUnique conn client cmdLine jobHash clientInfo clientKey params minW maxW
      jobType priority db
    = (Ok (PInt (jobs_auto_increment db)), append_row JobsTable r db)
    /\ same_job client h r = true
    /\ col r "job_id" = VInt (jobs_auto_increment db)
    /\ col r "status" = VStr STATUS_NOTSTARTED.
Proof.
  intros Hclient Hcmd Hnorm (_ & _ & Hids & Hauto) Hnone.
  pose proof (inserted_job_columns (utc_timestamp db) (jobs_auto_increment db) client
                cmdLine h clientInfo clientKey params minW maxW jobType priority) as Hcols.
  cbv zeta in Hcols. destruct Hcols as (Hid & Hcl & Hjh & Hst).
  match type of Hid with col ?r _ = _ => exists r; set (new := r) in * end.
  split; [|split; [|split]]; [|
    unfold same_job, col_eq; rewrite Hcl, Hjh; cbn [to_sql];
    rewrite !sql_eq_refl by discriminate; reflexivity | exact Hid | exact Hst].
  unfold jobInsertUnique, bind, assert_, lift.
  apply String.eqb_neq in Hcmd. rewrite Hcmd. cbn [negb ret]. rewrite Hnorm.
  rewrite select_same_job, Hnone.
  unfold _insertOrGetUniqueJobNoRetries, bind, assert_.
  apply Nat.leb_le in Hclient. rewrite Hclient. rewrite Hcmd. cbn [negb ret].
  rewrite (normalizeHash_ok_length _ _ Hnorm), Nat.eqb_refl. cbn [ret].
  unfold execute_insert. cbv beta iota zeta.
  cbn [table_schema table_rows table_auto_increment]. fold new.
  rewrite duplicate_entry_jobs_false.
  - cbn [fst snd Nat.eqb ret]. unfold py_eq.
    rewrite bool_decide_eq_false_2 by (intros H; injection H as H; contradiction).
    reflexivity.
  - rewrite Hid. apply List.Forall_impl with (2 := Hids). intros r0 [_ H]. exact H.
  - rewrite Hcl, Hjh. exact Hnone.
Qed.

Lemma jobInsertUnique_not_completed conn client cmdLine jobHash h clientInfo clientKey
    params minW maxW jobType priority db r rest :
  cmdLine <> "" ->
  _normalizeHash jobHash = Ok h ->
  List.filter (same_job client h) (jobs db) = r :: rest ->
  col r "status" <> VStr STATUS_COMPLETED ->
  jobInsertUnique conn client cmdLine jobHash clientInfo clientKey params minW maxW
    jobType priority db
  = (Ok (of_sql (col r "job_id")), db).
Proof.
  intros Hcmd Hnorm Hsel Hst.
  unfold jobInsertUnique, bind, assert_, lift.
  apply String.eqb_neq in Hcmd. rewrite Hcmd. cbn [negb ret]. rewrite Hnorm.
  rewrite select_same_job, Hsel. unfold py_eq.
  rewrite bool_decide_eq_false_2; [reflexivity|].
  intros H. apply Hst. rewrite <- (to_sql_of_sql (col r "status")), H. reflexivity.
Qed.

Lemma index_single key tbl r probe :
  index_ok key tbl -> In r tbl -> same_key key r probe = true ->
  List.filter (fun r0 => same_key key r0 probe) tbl = [r].
Proof.
  intros Hidx Hin Hkey. specialize (Hidx probe).
  assert (Hr : In r (List.filter (fun r0 => same_key key r0 probe) tbl))
    by (apply List.filter_In; split; assumption).
  destruct (List.filter _ tbl) as [|x [|y rest]]; cbn [length] in Hidx.
  - destruct Hr.
  - destruct Hr as [->|[]]. reflexivity.
  - lia.
Qed.

Lemma job_row_by_id db r :
  index_ok ["job_id"] (jobs db) -> In r (jobs db) -> col r "job_id" <> VNull ->
  List.filter (job_is (of_sql (col r "job_id"))) (jobs db) = [r].
Proof.
  intros Hidx Hin Hid.
  rewrite <- (index_single ["job_id"] (jobs db) r r Hidx Hin).
  - apply filter_ext_eq. intros r0. unfold job_is, col_eq, same_key. cbn [forallb].
    rewrite to_sql_of_sql, andb_true_r. reflexivity.
  - unfold same_key. cbn [forallb]. rewrite sql_eq_refl by assumption. reflexivity.
Qed.

Lemma map_updated_row_keeps {B} (g : row -> B) sch now asg where_ tbl :
  (forall r, g (apply_assignments sch now asg r) = g r) ->
  map g (map (updated_row sch now asg where_) tbl) = map g tbl.
Proof.
  intros Hg. rewrite map_map. apply map_ext. intros r. unfold updated_row.
  destruct (where_ r); [|reflexivity]. destruct (row_changed _ _ _); [apply Hg|reflexivity].
Qed.

Lemma resumeJob_update_identity conn jobID alreadyRunning db :
  map job_identity (jobs (snd (resumeJob_update conn jobID alreadyRunning db)))
  = map job_identity (jobs db).
Proof.
  unfold resumeJob_update, execute_update. cbn [snd].
  change (jobs (set_table_rows JobsTable ?l db)) with l.
  apply sql_update_keeps. intros r.
  destruct alreadyRunning; apply job_identity_kept; reflexivity.
Qed.

Lemma jobInsertUnique_completed conn client cmdLine jobHash h clientInfo clientKey
    params minW maxW jobType priority db r0 :
  cmdLine <> "" ->
  _normalizeHash jobHash = Ok h ->
  jobs_table_ok db ->
  List.filter (same_job client h) (jobs db) = [r0] ->
  col r0 "status" = VStr STATUS_COMPLETED ->
  exists db1 r1,
    jobInsertUnique conn client cmdLine jobHash clientInfo clientKey params minW maxW
      jobType priority db
    = (Ok (of_sql (col r0 "job_id")), db1)
    /\ List.filter (same_job client h) (jobs db1) = [r1]
    /\ col r1 "job_id" = col r0 "job_id"
    /\ col r1 "status" = VStr STATUS_NOTSTARTED.
Proof.
  intros Hcmd Hnorm (Hpk & _ & Hids & _) Hsel Hst.
  destruct (filter_singleton_In _ _ _ Hsel) as [Hin0 _].
  assert (Hnn : col r0 "job_id" <> VNull).
  { exact (proj1 (proj1 (List.Forall_forall _ _) Hids r0 Hin0)). }
  set (jid := of_sql (col r0 "job_id")).
  pose proof (job_row_by_id db r0 Hpk Hin0 Hnn) as Hjob. fold jid in Hjob.
  unfold jobInsertUnique, bind, assert_, lift.
  apply String.eqb_neq in Hcmd. rewrite Hcmd. cbn [negb ret]. rewrite Hnorm.
  rewrite select_same_job, Hsel. fold jid. rewrite Hst. cbn [of_sql]. unfold py_eq.
  rewrite bool_decide_eq_true_2 by reflexivity.
  rewrite execute_update_unlimited. cbn [table_schema table_rows].
  match goal with |- context [updated_row ?sch ?now ?a ?w] =>
    set (asg1 := a); set (w1 := w); set (now0 := now) end.
  set (db' := set_table_rows JobsTable (map (updated_row jobs_schema now0 asg1 w1) (jobs db)) db).
  assert (Hcount : (length (List.filter (counts_changed jobs_schema now0 asg1 w1) (jobs db))
                    <=? 1)%nat = true).
  { apply Nat.leb_le. unfold w1.
    rewrite (filter_counts_where jobs_schema now0 asg1 (fun r => col_eq r "job_id" jid)).
    change (fun r => col_eq r "job_id" jid) with (job_is jid). rewrite Hjob.
    cbn [List.filter]. destruct (_ && _); cbn [length]; lia. }
  rewrite Hcount.
  assert (Hjob' : List.filter (job_is jid) (jobs db')
                  = [updated_row jobs_schema now0 asg1 w1 r0]).
  { unfold db'. change (jobs (set_table_rows JobsTable ?l db)) with l.
    rewrite filter_job_updated by reflexivity. rewrite Hjob. reflexivity. }
  assert (Hst' : col (updated_row jobs_schema now0 asg1 w1 r0) "status"
                 = VStr STATUS_COMPLETED).
  { rewrite col_updated_row_notin by reflexivity. exact Hst. }
  destruct (resumeJob_update_completed conn jid db' _ Hjob' Hst')
    as (db1 & r1 & Hres & Hjob1 & Hst1).
  exists db1, r1.
  assert (Hident : map job_identity (jobs db1) = map job_identity (jobs db)).
  { replace db1 with (snd (resumeJob_update conn jid false db')) by (rewrite Hres; reflexivity).
    rewrite resumeJob_update_identity. unfold db'.
    change (jobs (set_table_rows JobsTable ?l db)) with l.
    apply map_updated_row_keeps. intros r. apply job_identity_kept; reflexivity. }
  pose proof (same_job_rows_agree client h _ _ Hident) as Hsame.
  rewrite Hsel in Hsame. cbn [map] in Hsame.
  destruct (List.filter (same_job client h) (jobs db1)) as [|x [|y rest]] eqn:Hsel1;
    try discriminate Hsame.
  assert (Hxid : col x "job_id" = col r0 "job_id").
  { exact (f_equal (fun l => match l with
                             | [k] => snd k
                             | _ => VNull
                             end) Hsame). }
  assert (Hx1 : x = r1).
  { assert (Hxin : In x (List.filter (job_is jid) (jobs db1))).
    { apply List.filter_In. split.
      - apply (filter_singleton_In _ _ _ Hsel1).
      - unfold job_is, col_eq, jid. rewrite to_sql_of_sql, Hxid.
        apply sql_eq_refl. assumption. }
    rewrite Hjob1 in Hxin. destruct Hxin as [<-|[]]. reflexivity. }
  subst x.
  split; [|split; [|split]]; try assumption; [|reflexivity].
  unfold _resumeJobNoRetries, bind, assert_. cbn [ret].
  fold db'. rewrite Hres. reflexivity.
Qed.

Lemma same_job_at_most_one client h tbl :
  index_ok ["client"; "job_hash"] tbl ->
  (length (List.filter (same_job client h) tbl) <= 1)%nat.
Proof.
  intros Hidx.
  specialize (Hidx (<["client" := VStr client]> (<["job_hash" := VStr h]> ∅))).
  erewrite filter_ext_eq; [exact Hidx|].
  intros r. unfold same_job, col_eq, same_key. cbn [forallb to_sql].
  rewrite col_insert_eq, col_insert_ne, col_insert_eq by discriminate.
  rewrite andb_true_r. reflexivity.
Qed.

(** C6. Two calls of [jobInsertUnique] with the same arguments, one after
    the other, return the same job id, and afterwards the jobs table holds
    exactly one row for the client and the normalized hash. *)
Theorem jobInsertUnique_twice conn client cmdLine jobHash h clientInfo clientKey params
    minW maxW jobType priority db :
  (String.length client <= CLIENT_MAX_LEN)%nat ->
  cmdLine <> "" ->
  _normalizeHash jobHash = Ok h ->
  jobs_table_ok db ->
  exists jobID db1 db2,
    jobInsertUnique conn client cmdLine jobHash clientInfo clientKey params minW maxW
      jobType priority db = (Ok jobID, db1)
    /\ jobInsertUnique conn client cmdLine jobHash clientInfo clientKey params minW maxW
         jobType priority db1 = (Ok jobID, db2)
    /\ length (List.filter (same_job client h) (jobs db2)) = 1%nat.
Proof.
  intros Hclient Hcmd Hnorm Hok.
  pose proof (same_job_at_most_one client h (jobs db) (proj1 (proj2 Hok))) as Hone.
  destruct (List.filter (same_job client h) (jobs db)) as [|r0 [|r' rest]] eqn:Hsel;
    cbn [length] in Hone; [| |lia].
  - destruct (jobInsertUnique_absent conn client cmdLine jobHash h clientInfo clientKey
                params minW maxW jobType priority db Hclient Hcmd Hnorm Hok Hsel)
      as (r & Hfirst & Hsame & Hid & Hst).
    assert (Hsel1 : List.filter (same_job client h) (jobs (append_row JobsTable r db)) = [r]).
    { cbn [append_row jobs]. rewrite List.filter_app, Hsel. cbn [List.filter app].
      rewrite Hsame. reflexivity. }
    exists (PInt (jobs_auto_increment db)), (append_row JobsTable r db),
      (append_row JobsTable r db).
    split; [exact Hfirst|]. split; [|rewrite Hsel1; reflexivity].
    rewrite (jobInsertUnique_not_completed conn client cmdLine jobHash h clientInfo
               clientKey params minW maxW jobType priority _ r []);
      try assumption.
    + rewrite Hid. reflexivity.
    + rewrite Hst. discriminate.
  - destruct (decide (col r0 "status" = VStr STATUS_COMPLETED)) as [Hst|Hst].
    + destruct (jobInsertUnique_completed conn client cmdLine jobHash h clientInfo clientKey
                  params minW maxW jobType priority db r0 Hcmd Hnorm Hok Hsel Hst)
        as (db1 & r1 & Hfirst & Hsel1 & Hid1 & Hst1).
      exists (of_sql (col r0 "job_id")), db1, db1.
      split; [exact Hfirst|]. split; [|rewrite Hsel1; reflexivity].
      rewrite (jobInsertUnique_not_completed conn client cmdLine jobHash h clientInfo
                 clientKey params minW maxW jobType priority _ r1 []);
        try assumption.
      * rewrite Hid1. reflexivity.
      * rewrite Hst1. discriminate.
    + exists (of_sql (col r0 "job_id")), db, db.
      pose proof (jobInsertUnique_not_completed conn client cmdLine jobHash h clientInfo
                    clientKey params minW maxW jobType priority db r0 [] Hcmd Hnorm Hsel Hst)
        as Hcall.
      split; [exact Hcall|]. split; [exact Hcall|]. rewrite Hsel. reflexivity.
Qed.

Lemma db_empty_ok : jobs_table_ok db_empty.
Proof.
  unfold jobs_table_ok, index_ok, db_empty. cbn [jobs jobs_auto_increment List.filter length].
  repeat split; try (intros; lia); constructor.
Qed.

Lemma jobInsertUnique_twice_witness :
  exists jobID db1 db2,
    jobInsertUnique 7 "UI" "run" "H" "" "" "" 0 0 "" 0 db_empty = (Ok jobID, db1)
    /\ jobInsertUnique 7 "UI" "run" "H" "" "" "" 0 0 "" 0 db1 = (Ok jobID, db2)
    /\ length (List.filter
                 (same_job "UI" ("H" ++ PyStr.replicate_char PyStr.NUL 15)) (jobs db2))
       = 1%nat.
Proof.
  apply (jobInsertUnique_twice 7 "UI" "run" "H").
  - cbn. unfold CLIENT_MAX_LEN. lia.
  - discriminate.
  - reflexivity.
  - exact db_empty_ok.
Defined.

(** ** Insertion of a model *)

Lemma match_exact_model j ph pth r :
  forallb (match_holds r)
    [ ("job_id", MScalar (PInt j));
      ("_eng_params_hash", MScalar (PStr ph));
      ("_eng_particle_hash", MScalar (PStr pth)) ]
  = exact_model (PInt j) ph pth r.
Proof. unfold exact_model, match_holds, col_eq. cbn. rewrite andb_true_r. reflexivity. Qed.

Lemma findExactMatch_eval j ph pth db :
  findExactMatchNoRetries (PInt j) ph pth db
  = (Ok match List.filter (exact_model (PInt j) ph pth) (models db) with
        | [] => None
        | r :: _ => Some [of_sql (col r "model_id"); of_sql (col r "_eng_worker_conn_id")]
        end, db).
Proof.
  unfold findExactMatchNoRetries. rewrite getOneMatchingRow_eval by reflexivity.
  change (table_rows ModelsTable db) with (models db).
  rewrite (filter_ext_eq _ _ _ (match_exact_model j ph pth)). reflexivity.
Qed.

(** The look-up after the INSERT, evaluated. *)
Lemma reconcile_eval conn j ph pth db :
  (let* row := findExactMatchNoRetries (PInt j) ph pth in
   match row with
   | Some [modelID; connectionID] => ret (modelID, py_eq connectionID (PInt conn))
   | Some _ => raise ValueError
   | None =>
       let* rows := execute_select ModelsTable ["model_id"]
                      (fun r => col_eq r "job_id" (PInt j)
                                && (col_eq r "_eng_params_hash" (PStr ph)
                                    || col_eq r "_eng_particle_hash" (PStr pth)))
                      (Some 1%nat) in
       match rows with
       | [[modelID]] => ret (modelID, false)
       | _ => raise AssertionError
       end
   end) db
  = (reconciled conn (PInt j) ph pth db, db).
Proof.
  unfold bind, reconciled. rewrite findExactMatch_eval.
  destruct (List.filter (exact_model (PInt j) ph pth) (models db)) as [|r rest];
    [|reflexivity].
  unfold execute_select, sql_select. change (table_rows ModelsTable db) with (models db).
  change (fun r => col_eq r "job_id" (PInt j)
                   && (col_eq r "_eng_params_hash" (PStr ph)
                       || col_eq r "_eng_particle_hash" (PStr pth)))
    with (colliding_model (PInt j) ph pth).
  destruct (List.filter (colliding_model (PInt j) ph pth) (models db)) as [|r rest];
    reflexivity.
Qed.

Lemma modelInsertAndStart_eval conn env j params paramsHash particleHash ph pth db :
  _normalizeHash paramsHash = Ok ph ->
  _normalizeHash match particleHash with
                 | None => paramsHash
                 | Some h => h
                 end = Ok pth ->
  modelInsertAndStart conn env (PInt j) params paramsHash particleHash db
  = match List.filter (exact_model (PInt j) ph pth) (models db) with
    | r :: _ => (Ok (of_sql (col r "model_id"), false), db)
    | [] =>
        let d := env db in
        let new := inserted_model conn (PInt j) params ph pth d in
        if duplicate_entry models_schema new (models d) then
          (reconciled conn (PInt j) ph pth d, d)
        else if py_eq (PInt (models_auto_increment d)) (PInt 0) then
          (reconciled conn (PInt j) ph pth (append_row ModelsTable new d),
           append_row ModelsTable new d)
        else (Ok (PInt (models_auto_increment d), true), append_row ModelsTable new d)
    end.
Proof.
  intros Hph Hpth. unfold modelInsertAndStart. cbv zeta.
  unfold bind at 1, lift at 1. rewrite Hph.
  unfold bind at 1, lift at 1. rewrite Hpth.
  unfold bind at 1. unfold findExactMatchWithRetries. rewrite findExactMatch_eval.
  destruct (List.filter (exact_model (PInt j) ph pth) (models db)) as [|r rest];
    [|reflexivity].
  unfold bind at 1, interfere at 1.
  unfold insertModelWithRetries.
  unfold bind at 1. unfold try_, execute_insert.
  cbn [table_schema table_rows table_auto_increment].
  fold (inserted_model conn (PInt j) params ph pth (env db)).
  destruct (duplicate_entry models_schema _ (models (env db))).
  - cbn [fst snd is_duplicate_entry]. unfold bind at 1. cbn [ret].
    apply reconcile_eval.
  - cbn [fst snd Nat.eqb]. unfold bind at 1.
    destruct (py_eq (PInt (models_auto_increment (env db))) (PInt 0)); cbn [negb ret].
    + apply reconcile_eval.
    + reflexivity.
Qed.

Lemma inserted_model_columns conn jobID params ph pth db :
  let r := inserted_model conn jobID params ph pth db in
  col r "model_id" = VInt (models_auto_increment db)
  /\ col r "job_id" = to_sql jobID
  /\ col r "_eng_params_hash" = VStr ph
  /\ col r "_eng_particle_hash" = VStr pth
  /\ col r "_eng_worker_conn_id" = VInt conn.
Proof.
  intros r. unfold r, inserted_model, new_row. split; [|split; [|split; [|split]]].
  - rewrite col_apply_assignments_notin by reflexivity. apply col_insert_eq.
  - rewrite col_apply_assignments_head by reflexivity. reflexivity.
  - do 3 rewrite apply_assignments_cons.
    rewrite col_apply_assignments_head by reflexivity. reflexivity.
  - do 4 rewrite apply_assignments_cons.
    rewrite col_apply_assignments_head by reflexivity. reflexivity.
  - do 7 rewrite apply_assignments_cons.
    rewrite col_apply_assignments_head by reflexivity. reflexivity.
Qed.

(** Two rows that collide with the same probe collide with each other. *)
Lemma same_key_trans key r1 r2 probe :
  same_key key r1 probe = true -> same_key key r2 probe = true ->
  same_key key r1 r2 = true.
Proof.
  unfold same_key. intros H1 H2. apply forallb_forall. intros c Hc.
  rewrite forallb_forall in H1, H2.
  destruct (sql_eq_true _ _ (H1 c Hc)) as [E1 N1].
  destruct (sql_eq_true _ _ (H2 c Hc)) as [E2 _].
  rewrite E1, <- E2. apply sql_eq_refl. rewrite E2, <- E1. exact N1.
Qed.

(** A row the INSERT accepts leaves every unique index of the table intact. *)
Lemma index_ok_append sch key r tbl :
  In key (sch_unique sch) -> index_ok key tbl -> duplicate_entry sch r tbl = false ->
  index_ok key (tbl ++ [r]).
Proof.
  intros Hkey Hidx Hdup probe. rewrite List.filter_app, length_app. cbn [List.filter].
  destruct (same_key key r probe) eqn:Hr; cbn [length]; [|specialize (Hidx probe); lia].
  assert (Hnone : List.filter (fun r0 => same_key key r0 probe) tbl = []).
  { destruct (List.filter (fun r0 => same_key key r0 probe) tbl) as [|r0 rest] eqn:E;
      [reflexivity|].
    assert (Hin : In r0 (List.filter (fun r0 => same_key key r0 probe) tbl))
      by (rewrite E; left; reflexivity).
    apply List.filter_In in Hin as [Hin Hr0].
    assert (Hdup' : duplicate_entry sch r tbl = true).
    { unfold duplicate_entry. apply existsb_exists. exists r0. split; [assumption|].
      apply existsb_exists. exists key. split; [assumption|].
      apply same_key_trans with (probe := probe); assumption. }
    rewrite Hdup in Hdup'. discriminate. }
  rewrite Hnone. cbn [length]. lia.
Qed.

Lemma exact_is_colliding jobID ph pth r :
  exact_model jobID ph pth r = true -> colliding_model jobID ph pth r = true.
Proof.
  unfold exact_model, colliding_model. intros H.
  apply andb_true_iff in H as [Hj H]. apply andb_true_iff in H as [Hp _].
  rewrite Hj, Hp. reflexivity.
Qed.

(** A stored row that collides with the request on either hash makes the
    INSERT a duplicate entry. *)
Lemma colliding_is_duplicate conn jobID params ph pth db r0 :
  In r0 (models db) -> colliding_model jobID ph pth r0 = true ->
  duplicate_entry models_schema (inserted_model conn jobID params ph pth db) (models db)
  = true.
Proof.
  intros Hin Hcol.
  destruct (inserted_model_columns conn jobID params ph pth db) as (_ & Hj & Hp & Hq & _).
  unfold duplicate_entry. apply existsb_exists. exists r0. split; [assumption|].
  cbn [sch_unique models_schema existsb same_key forallb].
  rewrite Hj, Hp, Hq. unfold colliding_model, col_eq in Hcol. cbn [to_sql] in Hcol.
  apply andb_true_iff in Hcol as [Hjob Hhash]. rewrite Hjob.
  apply orb_true_iff in Hhash as [H|H]; rewrite H; cbn [andb orb];
    rewrite ?orb_true_r; reflexivity.
Qed.

Lemma reconciled_ours conn jobID ph pth db modelID :
  reconciled conn jobID ph pth db = Ok (modelID, true) ->
  exists r, In r (models db) /\ col r "model_id" = to_sql modelID
            /\ col r "_eng_worker_conn_id" = VInt conn.
Proof.
  unfold reconciled.
  destruct (List.filter (exact_model jobID ph pth) (models db)) as [|r rest] eqn:E.
  - destruct (List.filter (colliding_model jobID ph pth) (models db)); discriminate.
  - intros H. injection H as Hid Hconn. exists r. split; [|split].
    + assert (Hin : In r (List.filter (exact_model jobID ph pth) (models db)))
        by (rewrite E; left; reflexivity).
      apply List.filter_In in Hin. tauto.
    + rewrite <- Hid. symmetry. apply to_sql_of_sql.
    + unfold py_eq in Hconn. apply bool_decide_eq_true in Hconn.
      rewrite <- (to_sql_of_sql (col r "_eng_worker_conn_id")), Hconn. reflexivity.
Qed.

Lemma reconciled_collision conn jobID ph pth db r0 :
  List.filter (exact_model jobID ph pth) (models db) = [] ->
  In r0 (models db) -> colliding_model jobID ph pth r0 = true ->
  exists r1, In r1 (models db) /\ colliding_model jobID ph pth r1 = true
             /\ reconciled conn jobID ph pth db = Ok (of_sql (col r1 "model_id"), false).
Proof.
  intros Hex Hin Hcol. unfold reconciled. rewrite Hex.
  destruct (List.filter (colliding_model jobID ph pth) (models db)) as [|r1 rest] eqn:E.
  - rewrite (filter_nil_In _ _ _ E Hin) in Hcol. discriminate.
  - exists r1.
    assert (Hin1 : In r1 (List.filter (colliding_model jobID ph pth) (models db)))
      by (rewrite E; left; reflexivity).
    apply List.filter_In in Hin1 as [Hin1 Hcol1]. repeat split; assumption.
Qed.

(** C2 (amended). [modelInsertAndStart] adds at most one row and keeps the
    unique indexes on both hashes.  Whenever it answers [ours = true], the
    model it names carries the caller's connection id.  Run without
    interference on a table that holds a model of the job colliding on
    either hash, it inserts nothing and answers with the id of such a
    model and [ours = false]. *)
Theorem modelInsertAndStart_at_most_once conn env j params paramsHash particleHash ph pth db :
  _normalizeHash paramsHash = Ok ph ->
  _normalizeHash match particleHash with
                 | None => paramsHash
                 | Some h => h
                 end = Ok pth ->
  let res := modelInsertAndStart conn env (PInt j) params paramsHash particleHash db in
  (models (snd res) = models db
   \/ models (snd res) = models (env db)
   \/ exists r, models (snd res) = (models (env db) ++ [r])%list)
  /\ (forall key, In key model_hash_indexes ->
        index_ok key (models db) -> index_ok key (models (env db)) ->
        index_ok key (models (snd res)))
  /\ (forall modelID, fst res = Ok (modelID, true) ->
        exists r, In r (models (snd res)) /\ col r "model_id" = to_sql modelID
                  /\ col r "_eng_worker_conn_id" = VInt conn)
  /\ ((forall d, env d = d) ->
      forall r0, In r0 (models db) -> colliding_model (PInt j) ph pth r0 = true ->
      exists r1, In r1 (models db) /\ colliding_model (PInt j) ph pth r1 = true
                 /\ res = (Ok (of_sql (col r1 "model_id"), false), db)).
Proof.
  intros Hph Hpth res. unfold res.
  rewrite (modelInsertAndStart_eval conn env j params paramsHash particleHash ph pth db)
    by assumption.
  destruct (List.filter (exact_model (PInt j) ph pth) (models db)) as [|r rest] eqn:Hex.
  - cbv zeta. set (d := env db). set (new := inserted_model conn (PInt j) params ph pth d).
    destruct (inserted_model_columns conn (PInt j) params ph pth d)
      as (Hid & _ & _ & _ & Hconn). fold new in Hid, Hconn.
    assert (Hnew : In new (models (append_row ModelsTable new d))).
    { cbn [append_row models]. apply in_or_app. right. left. reflexivity. }
    destruct (duplicate_entry models_schema new (models d)) eqn:Hdup;
      [|destruct (py_eq (PInt (models_auto_increment d)) (PInt 0)) eqn:Hzero];
      cbn [fst snd].
    + split; [right; left; reflexivity|]. split; [intros; assumption|].
      split; [apply reconciled_ours|].
      intros Henv r0 Hin Hcol. unfold d in *. rewrite Henv in *.
      destruct (reconciled_collision conn (PInt j) ph pth db r0 Hex Hin Hcol)
        as (r1 & Hin1 & Hcol1 & Hrec).
      exists r1. rewrite Hrec. repeat split; assumption.
    + split; [right; right; exists new; reflexivity|]. split.
      { intros key Hkey _ Hd. cbn [append_row models].
        apply index_ok_append with (sch := models_schema); try assumption.
        cbn [sch_unique models_schema]. right. exact Hkey. }
      split; [apply reconciled_ours|].
      intros Henv r0 Hin Hcol. exfalso. unfold new, d in Hdup. rewrite Henv in Hdup.
      rewrite (colliding_is_duplicate conn (PInt j) params ph pth db r0 Hin Hcol) in Hdup.
      discriminate.
    + split; [right; right; exists new; reflexivity|]. split.
      { intros key Hkey _ Hd. cbn [append_row models].
        apply index_ok_append with (sch := models_schema); try assumption.
        cbn [sch_unique models_schema]. right. exact Hkey. }
      split.
      { intros modelID H. injection H as <-. exists new. repeat split; assumption. }
      intros Henv r0 Hin Hcol. exfalso. unfold new, d in Hdup. rewrite Henv in Hdup.
      rewrite (colliding_is_duplicate conn (PInt j) params ph pth db r0 Hin Hcol) in Hdup.
      discriminate.
  - cbn [fst snd]. split; [left; reflexivity|]. split; [intros; assumption|].
    split; [intros modelID H; discriminate H|].
    intros _ r0 Hin Hcol. exists r.
    assert (Hr : In r (List.filter (exact_model (PInt j) ph pth) (models db)))
      by (rewrite Hex; left; reflexivity).
    apply List.filter_In in Hr as [Hr Hexact].
    split; [assumption|]. split; [apply exact_is_colliding; assumption|reflexivity].
Qed.

Lemma modelInsertAndStart_at_most_once_witness :
  exists r,
    In r (models (snd (modelInsertAndStart 7 (fun d => d) (PInt 1000) "p" "h1" None
                         db_empty)))
    /\ col r "model_id" = VInt 1000
    /\ col r "_eng_worker_conn_id" = VInt 7.
Proof.
  apply (proj1 (proj2 (proj2
           (modelInsertAndStart_at_most_once 7 (fun d => d) 1000 "p" "h1" None
              ("h1" ++ PyStr.replicate_char PyStr.NUL 14)
              ("h1" ++ PyStr.replicate_char PyStr.NUL 14)
              db_empty eq_refl eq_refl)))
         (PInt 1000)).
  reflexivity.
Defined.

Lemma example_model_exact owner counter :
  List.filter (exact_model (PInt 1000) "aaaaaaaaaaaaaaaa" "bbbbbbbbbbbbbbbb")
    (models (db_one_model owner counter))
  = [example_model 1000 1000 owner counter].
Proof. unfold db_one_model. eval_filter. Qed.

Lemma second_insert_same_session :
  modelInsertAndStart 7 (fun d => d) (PInt 1000) "p" "aaaaaaaaaaaaaaaa"
    (Some "bbbbbbbbbbbbbbbb") (db_one_model 7 0)
  = (Ok (PInt 1000, false), db_one_model 7 0).
Proof.
  rewrite (modelInsertAndStart_eval 7 (fun d => d) 1000 "p" "aaaaaaaaaaaaaaaa"
             (Some "bbbbbbbbbbbbbbbb") "aaaaaaaaaaaaaaaa" "bbbbbbbbbbbbbbbb")
    by reflexivity.
  rewrite example_model_exact.
  assert (Hid : col (example_model 1000 1000 7 0) "model_id" = VInt 1000)
    by (vm_compute; reflexivity).
  rewrite Hid. reflexivity.
Qed.

(** C2 as stated fails: session 7 owns model 1000 and asks again for the
    same hashes; the pre-check finds the row and the answer is
    [ours = false], although the row carries the caller's connection id. *)
Lemma ours_false_for_the_owner :
  ~ ours_iff_owner_claim 7 (PInt 1000) "p" "aaaaaaaaaaaaaaaa" (Some "bbbbbbbbbbbbbbbb")
      (db_one_model 7 0).
Proof.
  unfold ours_iff_owner_claim. rewrite second_insert_same_session. cbn [fst snd].
  intros Hclaim. destruct (Hclaim (PInt 1000) false eq_refl) as [_ H].
  assert (Hfalse : false = true); [|discriminate Hfalse].
  apply H. exists (example_model 1000 1000 7 0). split; [|split].
  - left. reflexivity.
  - vm_compute. reflexivity.
  - vm_compute. reflexivity.
Qed.

(** ** Orphan adoption returns *)

Lemma sql_update_limit_zero sch now asg where_ tbl :
  sql_update sch now asg where_ (Some O) tbl = (O, tbl).
Proof. destruct tbl; reflexivity. Qed.

(** LIMIT 1 makes no difference when at most one row qualifies. *)
Lemma sql_update_limit_one sch now asg where_ tbl :
  (length (List.filter where_ tbl) <= 1)%nat ->
  sql_update sch now asg where_ (Some 1%nat) tbl = sql_update sch now asg where_ None tbl.
Proof.
  induction tbl as [|r tbl IH]; intros Hlen; [reflexivity|].
  cbn [sql_update limit_reached limit_pred Nat.pred]. cbn [List.filter] in Hlen.
  destruct (where_ r) eqn:Hr.
  - cbn [length] in Hlen.
    assert (Hnone : List.filter where_ tbl = []).
    { destruct (List.filter where_ tbl); [reflexivity|cbn [length] in Hlen; lia]. }
    rewrite sql_update_limit_zero, sql_update_unlimited.
    assert (Hc : List.filter (counts_changed sch now asg where_) tbl = []).
    { unfold counts_changed. rewrite filter_andb, Hnone. reflexivity. }
    rewrite Hc, (map_updated_row_id _ _ _ _ _ Hc). reflexivity.
  - rewrite IH by assumption. reflexivity.
Qed.

Lemma match_model_id v :
  v <> VNull ->
  forall r,
    forallb (match_holds r) [("model_id", MScalar (of_sql v))] = model_is (of_sql v) r.
Proof.
  intros Hv r. unfold model_is, col_eq, match_holds. cbn [forallb fst snd].
  rewrite andb_true_r. destruct v; try reflexivity. contradiction.
Qed.

Lemma model_row_by_id tbl r :
  index_ok ["model_id"] tbl -> In r tbl -> col r "model_id" <> VNull ->
  List.filter (model_is (of_sql (col r "model_id"))) tbl = [r].
Proof.
  intros Hidx Hin Hid.
  rewrite <- (index_single ["model_id"] tbl r r Hidx Hin).
  - apply filter_ext_eq. intros r0. unfold model_is, col_eq, same_key. cbn [forallb].
    rewrite to_sql_of_sql, andb_true_r. reflexivity.
  - unfold same_key. cbn [forallb]. rewrite sql_eq_refl by assumption. reflexivity.
Qed.

Lemma adoptModel_adopts conn jobId maxUpdateInterval db r :
  index_ok ["model_id"] (models db) ->
  In r (models db) -> col r "model_id" <> VNull ->
  orphan jobId maxUpdateInterval (utc_timestamp db) r = true ->
  fst (adoptModelWithRetries conn (of_sql (col r "model_id")) maxUpdateInterval db) = Ok true.
Proof.
  intros Hidx Hin Hid Horphan.
  set (m := of_sql (col r "model_id")).
  pose proof (model_row_by_id (models db) r Hidx Hin Hid) as Hrow. fold m in Hrow.
  unfold orphan in Horphan.
  apply andb_true_iff in Horphan as [Horphan Hlate].
  apply andb_true_iff in Horphan as [Hrunning _].
  unfold adoptModelWithRetries, bind, get_utc_timestamp, execute_update.
  cbn [table_schema table_rows].
  set (now := utc_timestamp db) in *.
  match goal with |- context [sql_update ?sch ?n ?a ?w ?l ?t] =>
    set (asg := a); set (w0 := w) end.
  assert (Hw : List.filter w0 (models db) = [r]).
  { unfold w0.
    rewrite (filter_ext_eq _
               (fun r0 => model_is m r0
                          && (col_eq r0 "status" (PStr STATUS_RUNNING)
                              && sql_timestampdiff_gt (col r0 "_eng_last_update_time")
                                   (VTime now) maxUpdateInterval)))
      by (intros r0; unfold model_is; rewrite andb_assoc; reflexivity).
    rewrite filter_andb, Hrow. cbn [List.filter]. rewrite Hrunning, Hlate. reflexivity. }
  rewrite sql_update_limit_one by (rewrite Hw; cbn [length]; lia).
  rewrite sql_update_unlimited. cbn [fst snd].
  assert (Hcount : List.filter (counts_changed models_schema now asg w0) (models db)
                   = if row_changed asg r (apply_assignments models_schema now asg r)
                     then [r] else []).
  { unfold counts_changed. rewrite filter_andb, Hw. reflexivity. }
  rewrite Hcount.
  destruct (row_changed asg r (apply_assignments models_schema now asg r)) eqn:Hch;
    cbn [length Nat.leb Nat.eqb assert_ ret]; [reflexivity|].
  rewrite (map_updated_row_id _ _ _ _ _ Hcount).
  change (set_table_rows ModelsTable (models db) db)
    with (set_table_rows ModelsTable (table_rows ModelsTable db) db).
  rewrite set_table_rows_same.
  rewrite getOneMatchingRow_eval by reflexivity.
  change (table_rows ModelsTable db) with (models db).
  unfold m. rewrite (filter_ext_eq _ _ _ (match_model_id (col r "model_id") Hid)).
  fold m. rewrite Hrow. cbn [map fst].
  assert (Hconn : col r "_eng_worker_conn_id" = VInt conn).
  { destruct (decide (col r "_eng_worker_conn_id" = VInt conn)) as [H|H]; [assumption|].
    rewrite (row_changed_intro asg r _ ("_eng_worker_conn_id", EParam (PInt conn))) in Hch.
    - discriminate.
    - left. reflexivity.
    - cbn [fst]. unfold asg, apply_assignments. cbn [fold_left fst snd eval_expr to_sql].
      rewrite col_insert_ne, col_insert_eq by discriminate. assumption. }
  rewrite Hconn. apply sql_eq_true in Hrunning as [Hst _]. rewrite Hst.
  unfold py_eq. cbn [of_sql to_sql]. rewrite !bool_decide_eq_true_2 by reflexivity.
  reflexivity.
Qed.

Lemma findCandidate_eval jobId maxUpdateInterval db :
  findCandidateModelWithRetries jobId maxUpdateInterval db
  = (Ok match List.filter (orphan jobId maxUpdateInterval (utc_timestamp db)) (models db) with
        | [] => None
        | r :: _ => Some (of_sql (col r "model_id"))
        end, db).
Proof.
  unfold findCandidateModelWithRetries, bind, get_utc_timestamp, execute_select, sql_select.
  change (table_rows ModelsTable db) with (models db).
  change (fun r => col_eq r "status" (PStr STATUS_RUNNING) && col_eq r "job_id" jobId
                   && sql_timestampdiff_gt (col r "_eng_last_update_time")
                        (VTime (utc_timestamp db)) maxUpdateInterval)
    with (orphan jobId maxUpdateInterval (utc_timestamp db)).
  destruct (List.filter (orphan jobId maxUpdateInterval (utc_timestamp db)) (models db))
    as [|r rest]; reflexivity.
Qed.

(** One round of the loop is enough when no other session interferes: the
    call answers with the model it adopted, or with [None] when no model is
    an orphan. *)
Lemma modelAdoptNextOrphan_returns conn fuel jobId maxUpdateInterval db :
  index_ok ["model_id"] (models db) ->
  Forall (fun r => col r "model_id" <> VNull) (models db) ->
  fst (modelAdoptNextOrphan conn (S fuel) jobId maxUpdateInterval db)
  = Ok match List.filter (orphan jobId maxUpdateInterval (utc_timestamp db)) (models db) with
       | [] => None
       | r :: _ => Some (of_sql (col r "model_id"))
       end.
Proof.
  intros Hidx Hids. unfold modelAdoptNextOrphan. cbn [adopt_loop].
  unfold bind at 1. rewrite findCandidate_eval.
  destruct (List.filter (orphan jobId maxUpdateInterval (utc_timestamp db)) (models db))
    as [|r rest] eqn:Hsel; [reflexivity|].
  assert (Hr : In r (List.filter (orphan jobId maxUpdateInterval (utc_timestamp db))
                       (models db))) by (rewrite Hsel; left; reflexivity).
  apply List.filter_In in Hr as [Hin Horphan].
  pose proof (adoptModel_adopts conn jobId maxUpdateInterval db r Hidx Hin
                (proj1 (List.Forall_forall _ _) Hids r Hin) Horphan) as Hadopt.
  unfold bind.
  destruct (adoptModelWithRetries conn (of_sql (col r "model_id")) maxUpdateInterval db)
    as [[b|e] db1]; cbn [fst] in Hadopt; [|discriminate Hadopt].
  injection Hadopt as ->. reflexivity.
Qed.

(** ** Strings *)

Lemma string_app_cons (x : ascii) (a b : string) : String x a ++ b = String x (a ++ b).
Proof. reflexivity. Qed.

Lemma string_app_nil_l (a : string) : "" ++ a = a.
Proof. reflexivity. Qed.

Lemma string_app_assoc (a b c : string) : (a ++ b) ++ c = a ++ (b ++ c).
Proof.
  induction a as [|x a IH]; [reflexivity|].
  rewrite !string_app_cons, IH. reflexivity.
Qed.

Lemma string_app_nil_r (a : string) : a ++ "" = a.
Proof.
  induction a as [|x a IH]; [reflexivity|]. rewrite string_app_cons, IH. reflexivity.
Qed.

Lemma string_app_inv_head (p a b : string) : p ++ a = p ++ b -> a = b.
Proof.
  induction p as [|x p IH]; intros H; [exact H|].
  rewrite !string_app_cons in H. injection H as H. auto.
Qed.

Lemma string_app_inv_tail (a b t : string) : a ++ t = b ++ t -> a = b.
Proof.
  revert b. induction a as [|x a IH]; intros [|y b] H.
  - reflexivity.
  - apply (f_equal String.length) in H. rewrite !length_string_app in H. cbn in H. lia.
  - apply (f_equal String.length) in H. rewrite !length_string_app in H. cbn in H. lia.
  - rewrite !string_app_cons in H. injection H as -> H. rewrite (IH b H). reflexivity.
Qed.






(** ** [_abbreviate] *)



(** ** The name of the database *)

Lemma format_d_inj (v1 v2 : Z) : PyStr.format_d v1 = PyStr.format_d v2 -> v1 = v2.
Proof.
  unfold PyStr.format_d. intros H. apply DecimalZ.to_int_inj.
  apply (f_equal NilEmpty.int_of_string) in H. rewrite !NilEmpty.isi in H.
  injection H as H. exact H.
Qed.

Lemma contains_char_cons (c x : ascii) (s : string) :
  PyStr.contains (String c "") (String x s)
  = Ascii.eqb c x || PyStr.contains (String c "") s.
Proof.
  cbn [PyStr.contains String.prefix].
  destruct (ascii_dec c x) as [->|Hne].
  - rewrite Ascii.eqb_refl. destruct s; reflexivity.
  - apply Ascii.eqb_neq in Hne. rewrite Hne. reflexivity.
Qed.

Lemma contains_char_app (c : ascii) (a b : string) :
  PyStr.contains (String c "") (a ++ b)
  = PyStr.contains (String c "") a || PyStr.contains (String c "") b.
Proof.
  induction a as [|x a IH]; [reflexivity|].
  rewrite string_app_cons, !contains_char_cons, IH, orb_assoc. reflexivity.
Qed.

Lemma no_dash_replaced (s : string) :
  PyStr.contains "-" (PyStr.replace_char "-" "_" s) = false.
Proof.
  induction s as [|x s IH]; [reflexivity|].
  cbn [PyStr.replace_char]. rewrite contains_char_cons, IH, orb_false_r.
  destruct (Ascii.eqb x "-") eqn:Hx; [reflexivity|].
  rewrite Ascii.eqb_sym. exact Hx.
Qed.

Lemma no_dash_digits (d : uint) : PyStr.contains "-" (NilEmpty.string_of_uint d) = false.
Proof.
  induction d; cbn [NilEmpty.string_of_uint]; [reflexivity| |  | | | | | | | | ];
    rewrite contains_char_cons, IHd; reflexivity.
Qed.

Lemma no_dash_format_d (v : Z) : 0 <= v -> PyStr.contains "-" (PyStr.format_d v) = false.
Proof.
  intros Hv. unfold PyStr.format_d. destruct v as [|p|p]; [reflexivity| |lia].
  apply no_dash_digits.
Qed.

Lemma getDBNameForVersion_inj (nameSuffix : string) (v1 v2 : Z) :
  __getDBNameForVersion nameSuffix v1 = __getDBNameForVersion nameSuffix v2 -> v1 = v2.
Proof.
  unfold __getDBNameForVersion, __getDBNamePrefixForVersion. intros H.
  apply string_app_inv_tail, string_app_inv_head, string_app_inv_head in H.
  apply format_d_inj. exact H.
Qed.

(** X2: the name of the database determines the version, has no dash when
    the version is not negative, and is not among the names dropped when
    old versions are deleted without recreating the current one. *)
Theorem database_name_of_version (nameSuffix : string) :
  (forall v1 v2,
     __getDBNameForVersion nameSuffix v1 = __getDBNameForVersion nameSuffix v2 <-> v1 = v2)
  /\ (forall v, 0 <= v -> PyStr.contains "-" (__getDBNameForVersion nameSuffix v) = false)
  /\ (forall deleteOldVersions,
        ~ In (_getDBName nameSuffix) (dropped_databases nameSuffix deleteOldVersions false))
  /\ In (_getDBName nameSuffix) (dropped_databases nameSuffix false true).
Proof.
  split; [|split; [|split]].
  - intros v1 v2. split; [apply getDBNameForVersion_inj|intros ->; reflexivity].
  - intros v Hv. unfold __getDBNameForVersion, __getDBNamePrefixForVersion.
    rewrite !contains_char_app, no_dash_format_d, no_dash_replaced by assumption.
    reflexivity.
  - intros deleteOldVersions Hin. unfold dropped_databases in Hin.
    rewrite List.app_nil_r in Hin. destruct deleteOldVersions; [|destruct Hin].
    apply List.in_map_iff in Hin as [i [Heq Hi]].
    apply getDBNameForVersion_inj in Heq. apply List.in_seq in Hi.
    unfold _DB_VERSION in *. lia.
  - left. reflexivity.
Qed.

(** ** Public names in general *)

Lemma split_no_sep (sep : ascii) (s : string) :
  Forall (fun w => PyStr.contains (String sep "") w = false) (PyStr.split sep s).
Proof.
  induction s as [|c s IH]; [repeat constructor|].
  cbn [PyStr.split]. destruct (Ascii.eqb c sep) eqn:Hc.
  - constructor; [reflexivity|exact IH].
  - destruct (PyStr.split sep s) as [|w ws]; [repeat constructor|].
    + rewrite contains_char_cons, Ascii.eqb_sym, Hc. reflexivity.
    + inversion IH as [|? ? Hw Hws]; subst. constructor; [|exact Hws].
      rewrite contains_char_cons, Ascii.eqb_sym, Hc, Hw. reflexivity.
Qed.

Lemma split_nonempty_list (sep : ascii) (s : string) : PyStr.split sep s <> [].
Proof.
  destruct s as [|c s]; [discriminate|]. cbn [PyStr.split].
  destruct (Ascii.eqb c sep); [discriminate|]. destruct (PyStr.split sep s); discriminate.
Qed.

Lemma upper_char_underscore (c : ascii) :
  Ascii.eqb "_" (PyStr.upper_char c) = Ascii.eqb "_" c.
Proof. destruct c as [[] [] [] [] [] [] [] []]; reflexivity. Qed.

Lemma capitalize_words_result (words : list string) :
  Forall (fun w => PyStr.contains "_" w = false) words ->
  if forallb nonempty words
  then exists pubWords,
         capitalize_words words = Ok pubWords
         /\ PyStr.contains "_" (PyStr.join pubWords) = false
  else capitalize_words words = Raise IndexError.
Proof.
  induction words as [|w words IH]; intros Hw.
  - exists []. split; reflexivity.
  - inversion Hw as [|? ? Hw0 Hws]; subst. specialize (IH Hws).
    cbn [forallb capitalize_words]. destruct w as [|c w]; [reflexivity|].
    cbn [nonempty String.eqb negb andb PyStr.index0 result_bind].
    destruct (forallb nonempty words).
    + destruct IH as [pubWords [-> Hno]]. cbn [result_bind].
      eexists. split; [reflexivity|].
      cbn [PyStr.join fold_right PyStr.upper PyStr.from1].
      fold (PyStr.join pubWords).
      rewrite string_app_cons, string_app_nil_l, string_app_cons, contains_char_cons,
        contains_char_app, Hno, orb_false_r.
      rewrite contains_char_cons in Hw0. apply orb_false_iff in Hw0 as [Hc Hw0].
      rewrite upper_char_underscore, Hc, Hw0. reflexivity.
    + rewrite IH. reflexivity.
Qed.

(** X3: the conversion answers exactly when every segment after the first
    has a character, and raises [IndexError] otherwise; the public name it
    answers with has no underscore. *)
Theorem columnNameDBToPublic_total_or_IndexError (dbName : string) :
  if forallb nonempty (tail (segments dbName))
  then exists pubName,
         _columnNameDBToPublic dbName = Ok pubName
         /\ PyStr.contains "_" pubName = false
  else _columnNameDBToPublic dbName = Raise IndexError.
Proof.
  unfold _columnNameDBToPublic, segments. rewrite columnName_words.
  set (stripped := match dbName with
                   | String "_" rest => rest
                   | _ => dbName
                   end).
  pose proof (split_no_sep "_" stripped) as Hno.
  pose proof (split_nonempty_list "_" stripped) as Hne.
  destruct (PyStr.split "_" stripped) as [|w0 ws]; [contradiction|].
  inversion Hno as [|? ? Hw0 Hws]; subst. cbn [tail].
  pose proof (capitalize_words_result ws Hws) as Hcap.
  destruct (forallb nonempty ws).
  - destruct Hcap as [pubWords [-> Hpub]]. cbn [result_bind].
    eexists. split; [reflexivity|].
    cbn [PyStr.join fold_right]. fold (PyStr.join pubWords).
    rewrite contains_char_app, Hw0, Hpub. reflexivity.
  - rewrite Hcap. reflexivity.
Qed.

(** ** The name dictionaries *)

Lemma dict_zip_snoc (d : gmap string string) (kvs : list (string * string)) (k v : string) :
  fold_left (fun d kv => <[fst kv := snd kv]> d) (kvs ++ [(k, v)])%list d
  = <[k := v]> (fold_left (fun d kv => <[fst kv := snd kv]> d) kvs d).
Proof. rewrite fold_left_app. reflexivity. Qed.

Lemma fold_insert_lookup (kvs : list (string * string)) (k v : string) :
  NoDup (map fst kvs) ->
  fold_left (fun (d : gmap string string) kv => <[fst kv := snd kv]> d) kvs ∅ !! k = Some v
  <-> In (k, v) kvs.
Proof.
  induction kvs as [|[k0 v0] kvs IH] using rev_ind; intros Hnd.
  - cbn. rewrite lookup_empty. split; [discriminate|tauto].
  - rewrite dict_zip_snoc. rewrite map_app in Hnd. cbn [map fst] in Hnd.
    apply NoDup_app in Hnd as [Hnd [Hdisj _]]. specialize (IH Hnd).
    rewrite List.in_app_iff. cbn [In].
    destruct (decide (k0 = k)) as [->|Hne].
    + rewrite lookup_insert_eq. split.
      * intros [= ->]. right. left. reflexivity.
      * intros [Hin|[[= ->]|[]]]; [|reflexivity].
        exfalso. apply (Hdisj k); [|left; reflexivity].
        apply list_elem_of_In, List.in_map_iff. exists (k, v). split; [reflexivity|exact Hin].
    + rewrite lookup_insert_ne by assumption. rewrite IH. split; [tauto|].
      intros [Hin|[[= -> _]|[]]]; [assumption|contradiction].
Qed.

Lemma dict_zip_lookup (keys vals : list string) (k v : string) :
  NoDup keys -> length keys = length vals ->
  dict_zip keys vals !! k = Some v <-> In (k, v) (combine keys vals).
Proof.
  intros Hnd Hlen. unfold dict_zip. apply fold_insert_lookup.
  clear k v. revert vals Hlen.
  induction keys as [|k keys IH]; intros [|v vals] Hlen; cbn in *; try constructor;
    try discriminate.
  - apply NoDup_cons in Hnd as [Hk Hnd]. intros Hin. apply Hk.
    apply list_elem_of_In in Hin. apply List.in_map_iff in Hin as [[k' v'] [Heq Hin]].
    cbn in Heq. subst k'. apply list_elem_of_In. eapply List.in_combine_l. exact Hin.
  - apply NoDup_cons in Hnd as [_ Hnd]. apply IH; [assumption|lia].
Qed.

Lemma in_combine_swap {A B} (l1 : list A) (l2 : list B) (a : A) (b : B) :
  In (a, b) (combine l1 l2) <-> In (b, a) (combine l2 l1).
Proof.
  revert l2. induction l1 as [|x l1 IH]; intros [|y l2]; cbn; try tauto.
  rewrite IH. split; intros [[= -> ->]|H]; auto.
Qed.

Lemma map_result_combine {A B} (f : A -> result B) (l : list A) (l' : list B) :
  map_result f l = Ok l' ->
  length l = length l'
  /\ forall a b, In (a, b) (combine l l') -> f a = Ok b.
Proof.
  revert l'. induction l as [|x l IH]; intros l' H; cbn in H.
  - injection H as <-. split; [reflexivity|intros a b []].
  - destruct (f x) as [y|e] eqn:Hx; [|discriminate]. cbn in H.
    destruct (map_result f l) as [ys|e] eqn:Hl; [|discriminate]. cbn in H.
    injection H as <-. destruct (IH ys eq_refl) as [Hlen Hall].
    split; [cbn; lia|]. intros a b [[= <- <-]|Hin]; [assumption|auto].
Qed.

Lemma map_result_In {A B} (f : A -> result B) (l : list A) (l' : list B) (a : A) (b : B) :
  map_result f l = Ok l' -> In a l -> f a = Ok b -> In (a, b) (combine l l').
Proof.
  revert l'. induction l as [|x l IH]; intros l' H Hin Hb; [destruct Hin|].
  cbn in H. destruct (f x) as [y|e] eqn:Hx; [|discriminate]. cbn in H.
  destruct (map_result f l) as [ys|e] eqn:Hl; [|discriminate]. cbn in H.
  injection H as <-. destruct Hin as [->|Hin].
  - left. congruence.
  - right. apply IH; auto.
Qed.

Lemma public_names_computed (t : table) :
  exists pubs, map_result _columnNameDBToPublic (map fst (sch_columns (table_schema t)))
               = Ok pubs.
Proof. destruct t; eexists; vm_compute; reflexivity. Qed.

Lemma table_info_ok (t : table) :
  initTableInfo (table_schema t) = Ok (table_info t).
Proof.
  destruct (public_names_computed t) as [pubs Hpubs].
  assert (H : initTableInfo (table_schema t)
              = Ok (table_info_or_empty (initTableInfo (table_schema t)))).
  { unfold initTableInfo. rewrite Hpubs. reflexivity. }
  destruct t; exact H.
Qed.

Lemma table_names_NoDup (t : table) :
  NoDup (dbFieldNames (table_info t)) /\ NoDup (publicFieldNames (table_info t)).
Proof.
  pose proof (table_info_ok t) as Hinfo. unfold initTableInfo in Hinfo.
  destruct (map_result _columnNameDBToPublic (map fst (sch_columns (table_schema t))))
    as [pubs|e] eqn:Hpubs; [|discriminate]. cbn [result_bind] in Hinfo.
  injection Hinfo as Hinfo. rewrite <- Hinfo. cbn [dbFieldNames publicFieldNames].
  split.
  - destruct t; apply (bool_decide_unpack _); vm_compute; reflexivity.
  - destruct t; vm_compute in Hpubs; injection Hpubs as <-;
      apply (bool_decide_unpack _); vm_compute; reflexivity.
Qed.

(** X4: the two dictionaries of a table are inverse to each other, and an
    entry of either is a column of the table with the public name the
    conversion gives it. *)
Theorem name_dicts_inverse (t : table) (dbName pubName : string) :
  (dbToPubNameDict (table_info t) !! dbName = Some pubName
   <-> pubToDBNameDict (table_info t) !! pubName = Some dbName)
  /\ (pubToDBNameDict (table_info t) !! pubName = Some dbName
      <-> In dbName (map fst (sch_columns (table_schema t)))
          /\ _columnNameDBToPublic dbName = Ok pubName).
Proof.
  pose proof (table_info_ok t) as Hinfo. unfold initTableInfo in Hinfo.
  destruct (map_result _columnNameDBToPublic (map fst (sch_columns (table_schema t))))
    as [pubs|e] eqn:Hpubs; [|discriminate]. cbn [result_bind] in Hinfo.
  injection Hinfo as Hinfo.
  destruct (table_names_NoDup t) as [Hdb Hpub]. rewrite <- Hinfo in Hdb, Hpub |- *.
  cbn [dbFieldNames publicFieldNames pubToDBNameDict dbToPubNameDict] in *.
  destruct (map_result_combine _ _ _ Hpubs) as [Hlen Hall].
  rewrite !dict_zip_lookup by (assumption || lia).
  split; [apply in_combine_swap|].
  rewrite <- in_combine_swap. split.
  - intros Hin. split; [eapply List.in_combine_l; exact Hin|auto].
  - intros [Hin Hc]. eapply map_result_In; eassumption.
Qed.

(** ** Slices of a joined row *)

Lemma fold_left_add (l : list Z) (a : Z) : fold_left Z.add l a = a + fold_left Z.add l 0.
Proof.
  revert a. induction l as [|x l IH]; intros a; cbn [fold_left]; [lia|].
  rewrite (IH (a + x)), (IH (0 + x)). lia.
Qed.

Lemma py_sum_cons (i : Z) (rest : list Z) : py_sum (i :: rest) = i + py_sum rest.
Proof. unfold py_sum. cbn [fold_left]. rewrite fold_left_add. lia. Qed.

Lemma py_sum_nonneg (intervals : list Z) :
  Forall (fun i => 0 <= i) intervals -> 0 <= py_sum intervals.
Proof.
  induction 1 as [|i rest Hi _ IH]; [unfold py_sum; cbn; lia|]. rewrite py_sum_cons. lia.
Qed.

Lemma list_slice_inside {A} (data : list A) (start interval : Z) :
  0 <= start -> 0 <= interval -> start + interval <= Z.of_nat (length data) ->
  list_slice data start (start + interval)
  = take (Z.to_nat interval) (drop (Z.to_nat start) data).
Proof.
  intros Hs Hi Hlen. unfold list_slice, PyStr.slice_index.
  destruct (start <? 0) eqn:H1; [apply Z.ltb_lt in H1; lia|].
  destruct (start + interval <? 0) eqn:H2; [apply Z.ltb_lt in H2; lia|].
  rewrite !Nat.min_l by lia. f_equal. lia.
Qed.

Lemma partition_loop_slices {A} (data : list A) (intervals : list Z) (start : Z) :
  Forall (fun i => 0 <= i) intervals ->
  0 <= start -> start + py_sum intervals <= Z.of_nat (length data) ->
  concat (partition_loop data start intervals)
  = take (Z.to_nat (py_sum intervals)) (drop (Z.to_nat start) data)
  /\ map (fun p => Z.of_nat (length p)) (partition_loop data start intervals) = intervals.
Proof.
  intros Hall. revert start.
  induction Hall as [|i rest Hi Hrest IH]; intros start Hs Hlen.
  - split; reflexivity.
  - rewrite py_sum_cons in Hlen |- *. pose proof (py_sum_nonneg rest Hrest) as Hsum.
    cbn [partition_loop concat map].
    destruct (IH (start + i)) as [Hcat Hlens]; [lia|lia|].
    rewrite list_slice_inside by lia. rewrite Hcat, Hlens. split.
    + replace (Z.to_nat (start + i)) with (Z.to_nat start + Z.to_nat i)%nat by lia.
      rewrite <- drop_drop, take_take_drop. f_equal. lia.
    + f_equal. rewrite length_take, length_drop. lia.
Qed.

(** X5: for intervals that are not negative and add up to no more than the
    length of the data, the slices follow one another from the start of
    the data, each as long as its interval; a sum beyond the length of the
    data is an [AssertionError]. *)
Theorem partitionAtIntervals_slices {A} (data : list A) (intervals : list Z) :
  Forall (fun i => 0 <= i) intervals ->
  (py_sum intervals <= Z.of_nat (length data) ->
     exists parts,
       partitionAtIntervals data intervals = Ok parts
       /\ concat parts = take (Z.to_nat (py_sum intervals)) data
       /\ map (fun p => Z.of_nat (length p)) parts = intervals)
  /\ (Z.of_nat (length data) < py_sum intervals ->
        partitionAtIntervals data intervals = Raise AssertionError).
Proof.
  intros Hall. unfold partitionAtIntervals. split; intros Hlen.
  - destruct (py_sum intervals <=? Z.of_nat (length data)) eqn:H;
      [|apply Z.leb_gt in H; lia].
    eexists. split; [reflexivity|].
    apply (partition_loop_slices data intervals 0); [assumption|lia|lia].
  - destruct (py_sum intervals <=? Z.of_nat (length data)) eqn:H;
      [apply Z.leb_le in H; lia|reflexivity].
Qed.

Lemma partitionAtIntervals_slices_witness :
  exists parts,
    partitionAtIntervals [PInt 1; PInt 2; PInt 3; PInt 4; PInt 5; PInt 6] [2; 0; 3]
    = Ok parts
    /\ concat parts
       = take (Z.to_nat (py_sum [2; 0; 3])) [PInt 1; PInt 2; PInt 3; PInt 4; PInt 5; PInt 6]
    /\ map (fun p => Z.of_nat (length p)) parts = [2; 0; 3].
Proof.
  destruct (partitionAtIntervals_slices
              [PInt 1; PInt 2; PInt 3; PInt 4; PInt 5; PInt 6] [2; 0; 3]) as [H _].
  - repeat constructor; lia.
  - apply H. vm_compute. discriminate.
Defined.

Lemma py_sum_lengths (namedTuples : list (list string)) :
  py_sum (map (fun nt => Z.of_nat (length nt)) namedTuples)
  = Z.of_nat (total_fields namedTuples).
Proof.
  unfold total_fields. induction namedTuples as [|nt rest IH]; [reflexivity|].
  cbn [map concat]. rewrite py_sum_cons, IH, List.length_app. lia.
Qed.

Lemma make_all_slices (namedTuples : list (list string)) (results : list (list pyval)) :
  map (fun p => Z.of_nat (length p)) results
  = map (fun nt => Z.of_nat (length nt)) namedTuples ->
  exists ts,
    make_all namedTuples results = Ok ts
    /\ map _fields ts = namedTuples
    /\ map nt_values ts = results.
Proof.
  revert results. induction namedTuples as [|nt rest IH]; intros [|r results] H;
    cbn [map] in H; try discriminate.
  - exists []. repeat split.
  - injection H as Hlen H. destruct (IH results H) as [ts [Hts [Hf Hv]]].
    cbn [make_all]. unfold _make.
    destruct (length r =? length nt)%nat eqn:Hr; [|apply Nat.eqb_neq in Hr; lia].
    cbn [result_bind]. rewrite Hts. cbn [result_bind].
    eexists. split; [reflexivity|]. cbn [map _fields nt_values].
    rewrite Hf, Hv. split; reflexivity.
Qed.

(** X6: a joined row with at least as many values as the classes have
    fields together is cut into one named tuple for each class, in order,
    the values taken from the front of the row; a shorter row is an
    [AssertionError]. *)
Theorem combineResults_splits (result_ : list pyval) (namedTuples : list (list string)) :
  namedTuples <> [] ->
  ((total_fields namedTuples <= length result_)%nat ->
     exists ts,
       _combineResults result_ namedTuples = Ok ts
       /\ map _fields ts = namedTuples
       /\ concat (map nt_values ts) = take (total_fields namedTuples) result_)
  /\ ((length result_ < total_fields namedTuples)%nat ->
        _combineResults result_ namedTuples = Raise AssertionError).
Proof.
  intros Hne. unfold _combineResults, partitionAtIntervals.
  destruct namedTuples as [|nt0 rest]; [contradiction|].
  set (nts := nt0 :: rest). rewrite py_sum_lengths.
  split; intros Hlen.
  - destruct (Z.of_nat (total_fields nts) <=? Z.of_nat (length result_)) eqn:H;
      [|apply Z.leb_gt in H; lia].
    cbn [result_bind].
    destruct (partition_loop_slices result_ (map (fun nt => Z.of_nat (length nt)) nts) 0)
      as [Hcat Hlens].
    + apply List.Forall_forall. intros i Hi. apply List.in_map_iff in Hi as [nt [<- _]]. lia.
    + lia.
    + rewrite py_sum_lengths. lia.
    + destruct (make_all_slices nts _ Hlens) as [ts [Hts [Hf Hv]]].
      exists ts. split; [exact Hts|]. split; [exact Hf|].
      rewrite Hv, Hcat, py_sum_lengths. rewrite Nat2Z.id. reflexivity.
  - destruct (Z.of_nat (total_fields nts) <=? Z.of_nat (length result_)) eqn:H;
      [apply Z.leb_le in H; lia|reflexivity].
Qed.

Lemma combineResults_splits_witness :
  exists ts,
    _combineResults [PInt 7; PStr "running"; PNone] [["jobId"; "status"]; ["modelId"]]
    = Ok ts
    /\ map _fields ts = [["jobId"; "status"]; ["modelId"]]
    /\ concat (map nt_values ts)
       = take (total_fields [["jobId"; "status"]; ["modelId"]])
           [PInt 7; PStr "running"; PNone].
Proof.
  destruct (combineResults_splits [PInt 7; PStr "running"; PNone]
              [["jobId"; "status"]; ["modelId"]]) as [H _].
  - discriminate.
  - apply H. vm_compute. lia.
Defined.

(** ** An UPDATE of the one row with a given key *)

Lemma replace_where_same (key : row -> bool) (r : row) (tbl : list row) :
  List.filter key tbl = [r] -> replace_where key r tbl = tbl.
Proof.
  intros Hrow. unfold replace_where.
  rewrite <- (map_id tbl) at 2. apply map_ext_in. intros x Hx.
  destruct (key x) eqn:Hk; [|reflexivity].
  assert (Hin : In x (List.filter key tbl)) by (apply List.filter_In; auto).
  rewrite Hrow in Hin. destruct Hin as [->|[]]. reflexivity.
Qed.

Lemma filter_replace_where (key : row -> bool) (r r' : row) (tbl : list row) :
  List.filter key tbl = [r] -> key r' = true ->
  List.filter key (replace_where key r' tbl) = [r'].
Proof.
  intros Hrow Hk'. unfold replace_where.
  induction tbl as [|x tbl IH]; [discriminate|].
  cbn [List.filter map] in *. destruct (key x) eqn:Hx.
  - injection Hrow as -> Hrest. rewrite Hk'. f_equal.
    clear IH. induction tbl as [|y tbl IH]; [reflexivity|].
    cbn [List.filter map] in *. destruct (key y) eqn:Hy; [discriminate|].
    rewrite Hy. auto.
  - rewrite Hx. auto.
Qed.

Lemma others_replace_where (key : row -> bool) (r' : row) (tbl : list row) :
  key r' = true -> others key (replace_where key r' tbl) = others key tbl.
Proof.
  intros Hk'. unfold others, replace_where.
  induction tbl as [|x tbl IH]; [reflexivity|].
  cbn [List.filter map]. destruct (key x) eqn:Hx.
  - rewrite Hk'. cbn [negb]. exact IH.
  - rewrite Hx. cbn [negb]. rewrite IH. reflexivity.
Qed.

Lemma length_replace_where (key : row -> bool) (r' : row) (tbl : list row) :
  length (replace_where key r' tbl) = length tbl.
Proof. apply List.length_map. Qed.

Lemma In_replace_where (key : row -> bool) (r r' : row) (tbl : list row) :
  List.filter key tbl = [r] -> In r' (replace_where key r' tbl).
Proof.
  intros Hrow. unfold replace_where. apply List.in_map_iff. exists r.
  assert (Hin : In r (List.filter key tbl)) by (rewrite Hrow; left; reflexivity).
  apply List.filter_In in Hin as [Hin Hk]. rewrite Hk. auto.
Qed.

(** The UPDATE of the module that addresses one row: the row count is 1
    when the row passes the further condition and an assignment changes
    it, and then the row is replaced; otherwise nothing happens. *)
Lemma update_one_row (t : table) (asg : list (string * expr)) (key extra : row -> bool)
    (db : DB) (r : row) :
  List.filter key (table_rows t db) = [r] ->
  let r' := apply_assignments (table_schema t) (utc_timestamp db) asg r in
  let hit := extra r && row_changed asg r r' in
  execute_update t asg (fun x => key x && extra x) None db
  = (Ok (if hit then 1 else 0)%nat,
     if hit then set_table_rows t (replace_where key r' (table_rows t db)) db else db).
Proof.
  intros Hrow r' hit. rewrite execute_update_unlimited.
  rewrite filter_counts_where, Hrow. cbn [List.filter]. fold r'. fold hit.
  assert (Hmap : map (updated_row (table_schema t) (utc_timestamp db) asg
                        (fun x => key x && extra x)) (table_rows t db)
                 = replace_where key (if hit then r' else r) (table_rows t db)).
  { unfold replace_where. apply map_ext_in. intros x Hx. unfold updated_row.
    destruct (key x) eqn:Hk; [|reflexivity].
    assert (Hin : In x (List.filter key (table_rows t db))) by (apply List.filter_In; auto).
    rewrite Hrow in Hin. destruct Hin as [<-|[]].
    cbn [andb]. fold r'. unfold hit. destruct (extra r); [|reflexivity].
    cbn [andb]. destruct (row_changed asg r r'); reflexivity. }
  rewrite Hmap. destruct hit; cbn [length]; [reflexivity|].
  rewrite (replace_where_same key r _ Hrow), set_table_rows_same. reflexivity.
Qed.

(** The same for a key that no row has. *)
Lemma update_no_row (t : table) (asg : list (string * expr)) (key extra : row -> bool)
    (db : DB) :
  List.filter key (table_rows t db) = [] ->
  execute_update t asg (fun x => key x && extra x) None db = (Ok 0%nat, db).
Proof.
  intros Hrow. rewrite execute_update_unlimited.
  assert (Hc : List.filter (counts_changed (table_schema t) (utc_timestamp db) asg
                              (fun x => key x && extra x)) (table_rows t db) = []).
  { rewrite filter_counts_where, Hrow. reflexivity. }
  rewrite Hc, (map_updated_row_id _ _ _ _ _ Hc), set_table_rows_same. reflexivity.
Qed.

Lemma jobs_set_table_rows rows db : jobs (set_table_rows JobsTable rows db) = rows.
Proof. reflexivity. Qed.

Lemma models_set_jobs rows db : models (set_table_rows JobsTable rows db) = models db.
Proof. reflexivity. Qed.

Lemma models_set_table_rows rows db : models (set_table_rows ModelsTable rows db) = rows.
Proof. reflexivity. Qed.

Lemma jobs_set_models rows db : jobs (set_table_rows ModelsTable rows db) = jobs db.
Proof. reflexivity. Qed.

(** A column an UPDATE assigns once, and one it does not assign. *)
Lemma col_apply_assigned sch now pre c e post r :
  forallb (fun ce => negb (String.eqb (fst ce) c)) post = true ->
  col (apply_assignments sch now (pre ++ (c, e) :: post) r) c
  = eval_expr sch now (apply_assignments sch now pre r) c e.
Proof. apply col_apply_assignments_mid. Qed.

Lemma col_apply_other sch now asg c r :
  ~ In c (map fst asg) -> col (apply_assignments sch now asg r) c = col r c.
Proof.
  intros Hc. apply col_apply_assignments_notin. apply forallb_forall. intros ce Hce.
  apply negb_true_iff, String.eqb_neq. intros Heq. apply Hc.
  apply List.in_map_iff. exists ce. auto.
Qed.

(** ** Status changes of a job *)

Lemma negb_bool_decide_false {P : Prop} `{Decision P} :
  negb (bool_decide P) = false <-> P.
Proof. rewrite negb_false_iff, bool_decide_eq_true. reflexivity. Qed.

Lemma setStatus_row_changed now status r :
  row_changed [("status", EParam (PStr status)); ("_eng_last_update_time", EUtcTimestamp)] r
    (apply_assignments jobs_schema now
       [("status", EParam (PStr status)); ("_eng_last_update_time", EUtcTimestamp)] r)
  = sets_status now status r.
Proof.
  unfold row_changed, sets_status, apply_assignments.
  cbn [existsb fold_left fst snd eval_expr to_sql].
  rewrite col_insert_eq, col_insert_ne, col_insert_eq by discriminate.
  rewrite orb_false_r. reflexivity.
Qed.

(** X7: [jobSetStatus] on the one row of a job.  It succeeds exactly when
    the row passes the ownership condition and the statement changes it;
    then the row has the new status and the time of the server, and no
    other column, no other job and no model is touched.  Otherwise it
    raises [RuntimeError] and the database is as before: also for the
    owner who sets the status the row already has, within the second of
    its last update.  A job that does not exist is a [RuntimeError] too. *)
Theorem jobSetStatus_owner conn jobID status useConnectionID db :
  (List.filter (job_is (PInt jobID)) (jobs db) = [] ->
     jobSetStatus conn jobID status useConnectionID db = (Raise RuntimeError, db))
  /\ (forall r, List.filter (job_is (PInt jobID)) (jobs db) = [r] ->
        let done := owned_job conn useConnectionID r
                    && sets_status (utc_timestamp db) status r in
        exists db',
          jobSetStatus conn jobID status useConnectionID db
          = (if done then Ok tt else Raise RuntimeError, db')
          /\ (done = false -> db' = db)
          /\ (done = true ->
                exists r',
                  List.filter (job_is (PInt jobID)) (jobs db') = [r']
                  /\ col r' "status" = VStr status
                  /\ col r' "_eng_last_update_time" = VTime (utc_timestamp db)
                  /\ (forall c, c <> "status" -> c <> "_eng_last_update_time" ->
                        col r' c = col r c)
                  /\ others (job_is (PInt jobID)) (jobs db')
                     = others (job_is (PInt jobID)) (jobs db)
                  /\ models db' = models db)).
Proof.
  set (asg := [("status", EParam (PStr status)); ("_eng_last_update_time", EUtcTimestamp)]).
  split.
  - intros Hnone. unfold jobSetStatus, bind.
    pose proof (update_no_row JobsTable asg (job_is (PInt jobID))
                  (owned_job conn useConnectionID) db Hnone) as Hupd.
    unfold job_is in Hupd. fold asg. rewrite Hupd. reflexivity.
  - intros r Hrow done.
    pose proof (update_one_row JobsTable asg (job_is (PInt jobID))
                  (owned_job conn useConnectionID) db r Hrow) as Hupd.
    cbv zeta in Hupd. cbn [table_schema table_rows] in Hupd.
    unfold asg in Hupd. rewrite !setStatus_row_changed in Hupd. fold asg in Hupd.
    fold done in Hupd. unfold job_is in Hupd at 1.
    unfold jobSetStatus, bind. fold asg. rewrite Hupd.
    set (r' := apply_assignments jobs_schema (utc_timestamp db) asg r).
    destruct done eqn:Hdone; cbv iota; cbn [Nat.eqb negb]; cbv iota.
    + eexists. split; [reflexivity|]. split; [discriminate|]. intros _.
      assert (Hid : job_is (PInt jobID) r' = true).
      { assert (Hin : In r (List.filter (job_is (PInt jobID)) (jobs db)))
          by (rewrite Hrow; left; reflexivity).
        apply List.filter_In in Hin as [_ Hk]. unfold job_is, col_eq, r' in *.
        rewrite col_apply_other; [exact Hk|]. cbn. intuition discriminate. }
      exists r'. rewrite jobs_set_table_rows.
      split; [apply (filter_replace_where _ r); assumption|].
      split; [unfold r', asg, apply_assignments; cbn [fold_left fst snd eval_expr to_sql];
              rewrite col_insert_ne, col_insert_eq by discriminate; reflexivity|].
      split; [unfold r', asg, apply_assignments; cbn [fold_left fst snd eval_expr to_sql];
              rewrite col_insert_eq; reflexivity|].
      split; [intros c Hc1 Hc2; unfold r'; apply col_apply_other; cbn;
              intuition congruence|].
      split; [apply others_replace_where; exact Hid|reflexivity].
    + eexists. split; [reflexivity|]. split; [reflexivity|discriminate].
Qed.

Lemma jobSetStatus_owner_witness :
  jobSetStatus 8 1000 STATUS_COMPLETED true (db_one_job STATUS_RUNNING 0)
  = (Raise RuntimeError, db_one_job STATUS_RUNNING 0)
  /\ fst (jobSetStatus 8 1000 STATUS_COMPLETED false (db_one_job STATUS_RUNNING 0)) = Ok tt.
Proof.
  split.
  - destruct (proj2 (jobSetStatus_owner 8 1000 STATUS_COMPLETED true
                       (db_one_job STATUS_RUNNING 0))
                (example_job 1000 STATUS_RUNNING 0 50) eq_refl)
      as (db' & Hres & Hsame & _).
    rewrite Hres, (Hsame eq_refl). reflexivity.
  - destruct (proj2 (jobSetStatus_owner 8 1000 STATUS_COMPLETED false
                       (db_one_job STATUS_RUNNING 0))
                (example_job 1000 STATUS_RUNNING 0 50) eq_refl)
      as (db' & Hres & _).
    rewrite Hres. reflexivity.
Defined.

(** ** Completion of a job *)

Lemma key_kept_by_assignments sch now asg c p r :
  ~ In c (map fst asg) ->
  col_eq (apply_assignments sch now asg r) c p = col_eq r c p.
Proof. intros Hc. unfold col_eq. rewrite col_apply_other by assumption. reflexivity. Qed.

Lemma filter_singleton_holds {A} (f : A -> bool) (l : list A) (x : A) :
  List.filter f l = [x] -> f x = true.
Proof. intros H. apply (filter_singleton_In f l x H). Qed.

Lemma jobResume_of_completed conn jobID db r :
  List.filter (job_is jobID) (jobs db) = [r] ->
  col r "status" = VStr STATUS_COMPLETED ->
  exists db1 r1,
    jobResume conn jobID false db = (Ok tt, db1)
    /\ List.filter (job_is jobID) (jobs db1) = [r1]
    /\ col r1 "status" = VStr STATUS_NOTSTARTED.
Proof.
  intros Hr Hst.
  destruct (resumeJob_update_completed conn jobID db r Hr Hst) as (db1 & r1 & Hup & Hr1 & Hst1).
  exists db1, r1. split; [|split; assumption].
  assert (Hdict : pubToDBNameDict _jobs !! "status" = Some "status") by reflexivity.
  unfold jobResume, bind. rewrite (jobGetFields_found jobID "status" "status" db r []) by assumption.
  rewrite Hst. cbn [of_sql]. unfold py_eq. rewrite bool_decide_eq_true_2 by reflexivity.
  cbn [negb]. unfold _resumeJobNoRetries, bind. rewrite Hup. reflexivity.
Qed.

(** X8: [jobSetCompleted] on the one row of a job that is not completed.
    A caller that fails the ownership condition gets [RuntimeError] and
    changes nothing.  Otherwise the row becomes completed with the given
    reason and message and the time of the server as its end time, no
    other job and no model is touched, and a [jobResume] that follows
    succeeds and leaves the job not started. *)
Theorem jobSetCompleted_completes conn jobID completionReason completionMsg
    useConnectionID db r :
  List.filter (job_is jobID) (jobs db) = [r] ->
  col r "status" <> VStr STATUS_COMPLETED ->
  (owned_job conn useConnectionID r = false ->
     jobSetCompleted conn jobID completionReason completionMsg useConnectionID db
     = (Raise RuntimeError, db))
  /\ (owned_job conn useConnectionID r = true ->
        exists db1 r1,
          jobSetCompleted conn jobID completionReason completionMsg useConnectionID db
          = (Ok tt, db1)
          /\ List.filter (job_is jobID) (jobs db1) = [r1]
          /\ col r1 "status" = VStr STATUS_COMPLETED
          /\ col r1 "completion_reason" = to_sql completionReason
          /\ col r1 "completion_msg" = to_sql completionMsg
          /\ col r1 "end_time" = VTime (utc_timestamp db)
          /\ col r1 "_eng_last_update_time" = VTime (utc_timestamp db)
          /\ others (job_is jobID) (jobs db1) = others (job_is jobID) (jobs db)
          /\ models db1 = models db
          /\ exists db2 r2,
               jobResume conn jobID false db1 = (Ok tt, db2)
               /\ List.filter (job_is jobID) (jobs db2) = [r2]
               /\ col r2 "status" = VStr STATUS_NOTSTARTED).
Proof.
  intros Hrow Hst.
  set (asg := [ ("status", EParam (PStr STATUS_COMPLETED));
                ("completion_reason", EParam completionReason);
                ("completion_msg", EParam completionMsg);
                ("end_time", EUtcTimestamp);
                ("_eng_last_update_time", EUtcTimestamp) ]).
  pose proof (update_one_row JobsTable asg (job_is jobID)
                (owned_job conn useConnectionID) db r Hrow) as Hupd.
  cbv zeta in Hupd. cbn [table_schema table_rows] in Hupd.
  set (r1 := apply_assignments jobs_schema (utc_timestamp db) asg r) in *.
  assert (Hcols : col r1 "status" = VStr STATUS_COMPLETED
                  /\ col r1 "completion_reason" = to_sql completionReason
                  /\ col r1 "completion_msg" = to_sql completionMsg
                  /\ col r1 "end_time" = VTime (utc_timestamp db)
                  /\ col r1 "_eng_last_update_time" = VTime (utc_timestamp db)).
  { unfold r1, asg, apply_assignments. cbn [fold_left fst snd eval_expr].
    repeat split; repeat (rewrite col_insert_ne by discriminate); rewrite col_insert_eq;
      reflexivity. }
  assert (Hch : row_changed asg r r1 = true).
  { apply (row_changed_intro asg r r1 ("status", EParam (PStr STATUS_COMPLETED)));
      [left; reflexivity|]. cbn [fst]. rewrite (proj1 Hcols). exact Hst. }
  rewrite Hch, andb_true_r in Hupd. unfold job_is in Hupd at 1.
  split; intros Hown; rewrite Hown in Hupd; unfold jobSetCompleted, bind; fold asg;
    rewrite Hupd; [reflexivity|].
  cbn [Nat.eqb negb].
  assert (Hid : job_is jobID r1 = true).
  { unfold job_is, r1. rewrite key_kept_by_assignments by (cbn; intuition discriminate).
    exact (filter_singleton_holds _ _ _ Hrow). }
  pose proof (filter_replace_where (job_is jobID) r r1 (jobs db) Hrow Hid) as Hrow1.
  destruct Hcols as (H1 & H2 & H3 & H4 & H5).
  eexists. exists r1. split; [reflexivity|]. rewrite jobs_set_table_rows.
  split; [exact Hrow1|]. do 5 (split; [assumption|]).
  split; [apply others_replace_where; exact Hid|]. split; [reflexivity|].
  apply (jobResume_of_completed conn jobID _ r1); [exact Hrow1|exact H1].
Qed.

Lemma jobSetCompleted_completes_witness :
  jobSetCompleted 8 (PInt 1000) (PStr "success") (PStr "done") true
    (db_one_job STATUS_RUNNING 0)
  = (Raise RuntimeError, db_one_job STATUS_RUNNING 0)
  /\ fst (jobSetCompleted 8 (PInt 1000) (PStr "success") (PStr "done") false
            (db_one_job STATUS_RUNNING 0)) = Ok tt.
Proof.
  split.
  - apply (proj1 (jobSetCompleted_completes 8 (PInt 1000) (PStr "success") (PStr "done") true
                    (db_one_job STATUS_RUNNING 0) (example_job 1000 STATUS_RUNNING 0 50)
                    eq_refl ltac:(discriminate))).
    reflexivity.
  - destruct (proj2 (jobSetCompleted_completes 8 (PInt 1000) (PStr "success") (PStr "done")
                       false (db_one_job STATUS_RUNNING 0)
                       (example_job 1000 STATUS_RUNNING 0 50) eq_refl ltac:(discriminate))
                eq_refl) as (db1 & r1 & H & _).
    rewrite H. reflexivity.
Defined.

(** ** Cancelling *)

Lemma filter_map_pre {A B} (f : B -> bool) (g : A -> B) (l : list A) :
  List.filter f (map g l) = map g (List.filter (fun x => f (g x)) l).
Proof.
  induction l as [|x l IH]; [reflexivity|]. cbn [map List.filter].
  destruct (f (g x)); cbn [map]; rewrite IH; reflexivity.
Qed.

Lemma execute_select_ids t (where_ : row -> bool) db :
  execute_select t ["job_id"] where_ None db
  = (Ok (map (fun r => [of_sql (col r "job_id")]) (List.filter where_ (table_rows t db))), db).
Proof.
  unfold execute_select, sql_select. rewrite !map_map. reflexivity.
Qed.

Lemma of_sql_inj (a b : value) : of_sql a = of_sql b -> a = b.
Proof. intros H. rewrite <- (to_sql_of_sql a), <- (to_sql_of_sql b), H. reflexivity. Qed.

Lemma filter_with_ids (P : row -> bool) (tbl : list row) :
  Forall (fun r => col r "job_id" <> VNull) tbl ->
  List.filter (fun r => P r && negb (sql_is_null (col r "job_id"))) tbl = List.filter P tbl.
Proof.
  intros Hids. induction Hids as [|r tbl Hr _ IH]; [reflexivity|].
  cbn [List.filter]. rewrite IH.
  destruct (col r "job_id"); try contradiction; rewrite andb_true_r; reflexivity.
Qed.

Lemma cancel_all_row now r :
  let r' := updated_row jobs_schema now [("cancel", EParam (PBool true))] active_job r in
  cancelling r' = active_job r
  /\ active_job r' = active_job r
  /\ col r' "job_id" = col r "job_id".
Proof.
  cbv zeta.
  assert (Hother : forall c, c <> "cancel" ->
            col (updated_row jobs_schema now [("cancel", EParam (PBool true))] active_job r) c
            = col r c).
  { intros c Hc. apply col_updated_row_notin. cbn [forallb fst].
    rewrite andb_true_r. apply negb_true_iff, String.eqb_neq. congruence. }
  assert (Hact' : active_job (updated_row jobs_schema now [("cancel", EParam (PBool true))]
                                active_job r) = active_job r).
  { unfold active_job at 1 3. rewrite Hother by discriminate. reflexivity. }
  split; [|split; [exact Hact'|apply Hother; discriminate]].
  unfold cancelling.
  change (sql_ne (col ?x "status") (VStr STATUS_COMPLETED)) with (active_job x).
  rewrite Hact'. unfold updated_row. destruct (active_job r) eqn:Hact; [|reflexivity].
  cbn [andb].
  unfold row_changed, apply_assignments. cbn [existsb fold_left fst snd eval_expr to_sql].
  rewrite col_insert_eq, orb_false_r.
  destruct (bool_decide (col r "cancel" = VInt 1)) eqn:Hc; cbn [negb].
  - apply bool_decide_eq_true in Hc. rewrite Hc. reflexivity.
  - rewrite col_insert_eq. reflexivity.
Qed.

(** X9: [jobCancelAllRunningJobs] never raises.  After it the cancelling
    jobs are all the jobs whose status is not [completed], whether they
    were running or not, in number and by id; the other jobs are as before
    and no model is touched. *)
Theorem jobCancelAllRunningJobs_cancels db :
  Forall (fun r => col r "job_id" <> VNull) (jobs db) ->
  exists db',
    jobCancelAllRunningJobs db = (Ok tt, db')
    /\ jobGetCancellingJobs db' = (Ok (job_ids (List.filter active_job (jobs db))), db')
    /\ jobCountCancellingJobs db'
       = (Ok (PInt (Z.of_nat (length (List.filter active_job (jobs db))))), db')
    /\ others active_job (jobs db') = others active_job (jobs db)
    /\ models db' = models db.
Proof.
  intros Hids. unfold jobCancelAllRunningJobs, bind. rewrite execute_update_unlimited.
  cbn [table_schema table_rows].
  set (upd := updated_row jobs_schema (utc_timestamp db) [("cancel", EParam (PBool true))]
                (fun r => sql_ne (col r "status") (VStr STATUS_COMPLETED))).
  assert (Hupd : forall r, cancelling (upd r) = active_job r
                           /\ active_job (upd r) = active_job r
                           /\ col (upd r) "job_id" = col r "job_id").
  { intros r. exact (cancel_all_row (utc_timestamp db) r). }
  eexists. split; [reflexivity|].
  assert (Hsel : List.filter cancelling (map upd (jobs db))
                 = map upd (List.filter active_job (jobs db))).
  { rewrite filter_map_pre. f_equal. apply filter_ext_eq. intros r. apply Hupd. }
  split; [|split; [|split]].
  - unfold jobGetCancellingJobs, bind. rewrite execute_select_ids.
    cbn [table_rows]. rewrite jobs_set_table_rows, Hsel. unfold ret, job_ids.
    rewrite !map_map. cbn [hd]. f_equal. f_equal. apply map_ext. intros r.
    rewrite (proj2 (proj2 (Hupd r))). reflexivity.
  - unfold jobCountCancellingJobs, execute_count. cbn [table_rows].
    rewrite jobs_set_table_rows, filter_with_ids, Hsel, List.length_map; [reflexivity|].
    apply List.Forall_forall. intros r' Hr'. apply List.in_map_iff in Hr' as [r [<- Hr]].
    rewrite (proj2 (proj2 (Hupd r))). exact (proj1 (List.Forall_forall _ _) Hids r Hr).
  - rewrite jobs_set_table_rows. unfold others. rewrite filter_map_pre.
    rewrite (filter_ext_eq (fun x => negb (active_job (upd x))) (fun x => negb (active_job x)))
      by (intros r; rewrite (proj1 (proj2 (Hupd r))); reflexivity).
    rewrite <- (map_id (List.filter _ (jobs db))) at 2. apply map_ext_in.
    intros r Hr. apply List.filter_In in Hr as [_ Hr]. apply negb_true_iff in Hr.
    unfold upd, updated_row. fold (active_job r). rewrite Hr. reflexivity.
  - reflexivity.
Qed.

Lemma jobCancelAllRunningJobs_cancels_witness :
  exists db',
    jobCancelAllRunningJobs (db_one_job STATUS_NOTSTARTED 0) = (Ok tt, db')
    /\ jobGetCancellingJobs db' = (Ok [PInt 1000], db').
Proof.
  destruct (jobCancelAllRunningJobs_cancels (db_one_job STATUS_NOTSTARTED 0))
    as (db' & H1 & H2 & _).
  - repeat constructor. discriminate.
  - exists db'. split; [exact H1|]. rewrite H2. reflexivity.
Defined.

(** ** Suspending a job *)

Lemma In_job_ids_unique jobID (P : row -> bool) tbl r :
  List.filter (job_is jobID) tbl = [r] ->
  In (of_sql (col r "job_id")) (job_ids (List.filter P tbl)) <-> P r = true.
Proof.
  intros Hrow. pose proof (filter_singleton_In _ _ _ Hrow) as [Hin Hk].
  unfold job_ids. rewrite List.in_map_iff. split.
  - intros [x [Hid Hx]]. apply of_sql_inj in Hid. apply List.filter_In in Hx as [Hx HP].
    assert (Hkx : job_is jobID x = true).
    { unfold job_is, col_eq in *. rewrite Hid. exact Hk. }
    assert (Hx' : In x (List.filter (job_is jobID) tbl)) by (apply List.filter_In; auto).
    rewrite Hrow in Hx'. destruct Hx' as [->|[]]. exact HP.
  - intros HP. exists r. split; [reflexivity|]. apply List.filter_In. auto.
Qed.

(** X10: [jobSuspend] of a job whose cancel flag is 0 sets the flag,
    whatever the status of the job: afterwards the job is among the
    cancelling jobs exactly when it is not completed.  A second
    [jobSuspend] raises [RuntimeError] and changes nothing. *)
Theorem jobSuspend_sets_cancel conn jobID db r :
  List.filter (job_is jobID) (jobs db) = [r] ->
  col r "cancel" = VInt 0 ->
  exists db' ids,
    jobSuspend conn jobID db = (Ok tt, db')
    /\ List.filter (job_is jobID) (jobs db') = [<["cancel" := VInt 1]> r]
    /\ jobGetCancellingJobs db' = (Ok ids, db')
    /\ (In (of_sql (col r "job_id")) ids <-> active_job r = true)
    /\ jobSuspend conn jobID db' = (Raise RuntimeError, db').
Proof.
  intros Hrow Hcancel. unfold jobSuspend. rewrite jobCancel_eval. cbv zeta.
  set (changed := fun r0 => job_is jobID r0 && negb (bool_decide (col r0 "cancel" = VInt 1))).
  set (r' := <["cancel" := VInt 1]> r).
  assert (Hk : job_is jobID r = true) by exact (filter_singleton_holds _ _ _ Hrow).
  assert (Hk' : job_is jobID r' = true).
  { unfold job_is, col_eq, r' in *. rewrite col_insert_ne by discriminate. exact Hk. }
  assert (Hch : List.filter changed (jobs db) = [r]).
  { unfold changed. rewrite filter_andb, Hrow. cbn [List.filter]. rewrite Hcancel.
    reflexivity. }
  assert (Hrows : map (fun r0 => if changed r0 then <["cancel" := VInt 1]> r0 else r0) (jobs db)
                  = replace_where (job_is jobID) r' (jobs db)).
  { unfold replace_where. apply map_ext_in. intros x Hx. unfold changed.
    destruct (job_is jobID x) eqn:Hkx; [|reflexivity].
    assert (Hx' : In x (List.filter (job_is jobID) (jobs db))) by (apply List.filter_In; auto).
    rewrite Hrow in Hx'. destruct Hx' as [<-|[]]. rewrite Hcancel. reflexivity. }
  rewrite Hch, Hrows. cbn [length Nat.eqb].
  set (db' := set_table_rows JobsTable (replace_where (job_is jobID) r' (jobs db)) db).
  assert (Hrow' : List.filter (job_is jobID) (jobs db') = [r']).
  { apply (filter_replace_where _ r); assumption. }
  exists db', (job_ids (List.filter cancelling (jobs db'))).
  split; [reflexivity|]. split; [exact Hrow'|]. split; [|split].
  - unfold jobGetCancellingJobs, bind. rewrite execute_select_ids. unfold ret, job_ids.
    cbn [table_rows]. rewrite !map_map. reflexivity.
  - replace (col r "job_id") with (col r' "job_id")
      by (unfold r'; apply col_insert_ne; discriminate).
    rewrite (In_job_ids_unique jobID cancelling (jobs db') r' Hrow').
    unfold cancelling, active_job, r'. rewrite col_insert_eq, col_insert_ne by discriminate.
    cbn [sql_is_bool Z.eqb negb]. rewrite andb_true_r. reflexivity.
  - rewrite jobCancel_eval. cbv zeta. fold changed.
    assert (Hch' : List.filter changed (jobs db') = []).
    { unfold changed. rewrite filter_andb, Hrow'. cbn [List.filter]. unfold r'.
      rewrite col_insert_eq. reflexivity. }
    rewrite Hch'. cbn [length Nat.eqb]. f_equal.
    rewrite (set_table_rows_map_id JobsTable); [reflexivity|].
    intros x Hx. rewrite (filter_nil_In changed _ x Hch' Hx). reflexivity.
Qed.

Lemma jobSuspend_sets_cancel_witness :
  exists db',
    jobSuspend 7 (PInt 1000) (db_one_job STATUS_RUNNING 0) = (Ok tt, db')
    /\ jobSuspend 7 (PInt 1000) db' = (Raise RuntimeError, db').
Proof.
  destruct (jobSuspend_sets_cancel 7 (PInt 1000) (db_one_job STATUS_RUNNING 0)
              (example_job 1000 STATUS_RUNNING 0 50))
    as (db' & ids & H1 & _ & _ & _ & H3).
  - reflexivity.
  - reflexivity.
  - exists db'. split; assumption.
Defined.

(** ** The active jobs of a client *)










(** ** Incrementing a field of a job *)




(** ** The results of a job *)

Lemma sql_update_ext sch now asg (w1 w2 : row -> bool) limit tbl :
  (forall x, w1 x = w2 x) ->
  sql_update sch now asg w1 limit tbl = sql_update sch now asg w2 limit tbl.
Proof.
  intros Hext. revert limit. induction tbl as [|r tbl IH]; intros limit; [reflexivity|].
  cbn [sql_update]. rewrite Hext, !IH. reflexivity.
Qed.

Lemma execute_update_ext t asg (w1 w2 : row -> bool) limit db :
  (forall x, w1 x = w2 x) ->
  execute_update t asg w1 limit db = execute_update t asg w2 limit db.
Proof.
  intros Hext. unfold execute_update. rewrite (sql_update_ext _ _ _ w1 w2) by exact Hext.
  reflexivity.
Qed.

Lemma updateResults_row_changed now results r :
  col (apply_assignments jobs_schema now
         [("_eng_last_update_time", EUtcTimestamp); ("results", EParam results)] r) "results"
  = to_sql results.
Proof.
  unfold apply_assignments. cbn [fold_left fst snd eval_expr]. apply col_insert_eq.
Qed.

(** X13: [jobUpdateResults] never raises, also when no job has the id, and
    leaves the other jobs and the models alone.  When the job has one row,
    [jobGetFields] afterwards reads the results that were written. *)
Theorem jobUpdateResults_written jobID results db :
  exists db',
    jobUpdateResults jobID results db = (Ok tt, db')
    /\ models db' = models db
    /\ others (job_is jobID) (jobs db') = others (job_is jobID) (jobs db)
    /\ (List.filter (job_is jobID) (jobs db) = [] -> db' = db)
    /\ (forall r, List.filter (job_is jobID) (jobs db) = [r] ->
          jobGetFields jobID ["results"] db' = (Ok [of_sql (to_sql results)], db')).
Proof.
  set (asg := [("_eng_last_update_time", EUtcTimestamp); ("results", EParam results)]).
  assert (Hwhere : forall d, execute_update JobsTable asg (fun r => col_eq r "job_id" jobID)
                               None d
                             = execute_update JobsTable asg
                                 (fun r => job_is jobID r && true) None d).
  { intros d. apply execute_update_ext. intros x. unfold job_is.
    rewrite andb_true_r. reflexivity. }
  unfold jobUpdateResults, bind. fold asg. rewrite Hwhere.
  assert (Hdict : pubToDBNameDict _jobs !! "results" = Some "results") by reflexivity.
  rewrite execute_update_unlimited. cbn [table_schema table_rows].
  eexists. split; [reflexivity|]. split; [reflexivity|].
  rewrite jobs_set_table_rows.
  set (upd := updated_row jobs_schema (utc_timestamp db) asg
                (fun x => job_is jobID x && true)).
  assert (Hkey : forall x, job_is jobID (upd x) = job_is jobID x).
  { intros x. unfold job_is, col_eq, upd. rewrite col_updated_row_notin; reflexivity. }
  split; [|split].
  - unfold others. rewrite filter_map_pre.
    rewrite (filter_ext_eq (fun x => negb (job_is jobID (upd x)))
               (fun x => negb (job_is jobID x))) by (intros x; rewrite Hkey; reflexivity).
    rewrite <- (map_id (List.filter _ (jobs db))) at 2. apply map_ext_in.
    intros x Hx. apply List.filter_In in Hx as [_ Hx]. apply negb_true_iff in Hx.
    unfold upd, updated_row. cbv beta. rewrite Hx. reflexivity.
  - intros Hnone. rewrite (set_table_rows_map_id JobsTable); [reflexivity|].
    intros x Hx. cbn [table_rows] in Hx.
    unfold upd, updated_row. cbv beta. rewrite (filter_nil_In _ _ x Hnone Hx). reflexivity.
  - intros r Hrow.
    assert (Hrow' : List.filter (job_is jobID) (map upd (jobs db)) = [upd r]).
    { rewrite filter_map_pre.
      rewrite (filter_ext_eq (fun x => job_is jobID (upd x)) (job_is jobID)) by exact Hkey.
      rewrite Hrow. reflexivity. }
    rewrite (jobGetFields_found jobID "results" "results" _ (upd r) []) by assumption.
    do 3 f_equal. unfold upd, updated_row. cbv beta.
    rewrite (filter_singleton_holds _ _ _ Hrow). cbn [andb].
    destruct (row_changed asg r (apply_assignments jobs_schema (utc_timestamp db) asg r))
      eqn:Hch.
    + f_equal. apply updateResults_row_changed.
    + unfold row_changed in Hch. cbn [existsb fst asg] in Hch.
      apply orb_false_iff in Hch as [_ Hch]. apply orb_false_iff in Hch as [Hch _].
      apply negb_false_iff, bool_decide_eq_true in Hch. rewrite Hch.
      f_equal. apply updateResults_row_changed.
Qed.

(** ** Looking up several rows by their ids *)

Lemma filter_length_pos {A} (f : A -> bool) (l : list A) (x : A) :
  In x l -> f x = true -> (1 <= length (List.filter f l))%nat.
Proof.
  intros Hin Hf.
  assert (H : In x (List.filter f l)) by (apply List.filter_In; auto).
  destruct (List.filter f l); [destruct H|cbn; lia].
Qed.

Lemma index_ok_tail key r tbl : index_ok key (r :: tbl) -> index_ok key tbl.
Proof.
  intros H probe. specialize (H probe). cbn [List.filter] in H.
  destruct (same_key key r probe); cbn [length] in H; lia.
Qed.

Lemma index_values_NoDup c (P : row -> bool) tbl :
  index_ok [c] tbl ->
  (forall r, P r = true -> col r c <> VNull) ->
  NoDup (map (fun r => col r c) (List.filter P tbl)).
Proof.
  intros Hidx HP. induction tbl as [|r tbl IH]; [constructor|].
  specialize (IH (index_ok_tail _ _ _ Hidx)). cbn [List.filter].
  destruct (P r) eqn:Hr; [|exact IH]. cbn [map]. apply NoDup_cons. split; [|exact IH].
  intros Hin. apply list_elem_of_In, List.in_map_iff in Hin as [r' [Heq Hr']].
  apply List.filter_In in Hr' as [Hr' _].
  specialize (Hidx r). cbn [List.filter] in Hidx.
  assert (Hself : same_key [c] r r = true).
  { unfold same_key. cbn [forallb]. rewrite sql_eq_refl by (apply HP; exact Hr). reflexivity. }
  assert (Hother : same_key [c] r' r = true).
  { unfold same_key. cbn [forallb]. rewrite Heq.
    rewrite sql_eq_refl by (apply HP; exact Hr). reflexivity. }
  rewrite Hself in Hidx. cbn [length] in Hidx.
  pose proof (filter_length_pos (fun r0 => same_key [c] r0 r) _ _ Hr' Hother). lia.
Qed.

Lemma sql_in_true a vs : sql_in a vs = true <-> In a vs /\ a <> VNull.
Proof.
  unfold sql_in. rewrite existsb_exists. split.
  - intros [v [Hv Heq]]. apply sql_eq_true in Heq as [-> Hnn]. auto.
  - intros [Hin Hnn]. exists a. split; [exact Hin|apply sql_eq_refl; exact Hnn].
Qed.

Lemma found_count c ids tbl :
  index_ok [c] tbl ->
  (length (found_rows c ids tbl) <= length ids)%nat
  /\ (length (found_rows c ids tbl) = length ids <-> all_found c ids tbl).
Proof.
  intros Hidx. unfold found_rows.
  set (P := fun r => sql_in (col r c) (map to_sql ids)).
  set (W := map (fun r => col r c) (List.filter P tbl)).
  assert (HP : forall r, P r = true -> col r c <> VNull).
  { intros r Hr. apply sql_in_true in Hr. tauto. }
  assert (Hnd : List.NoDup W).
  { apply NoDup_ListNoDup. apply index_values_NoDup; assumption. }
  assert (Hincl : incl W (map to_sql ids)).
  { intros v Hv. apply List.in_map_iff in Hv as [r [<- Hr]].
    apply List.filter_In in Hr as [_ Hr]. apply sql_in_true in Hr. tauto. }
  assert (HlenW : length W = length (List.filter P tbl)) by apply List.length_map.
  assert (Hle : (length W <= length ids)%nat).
  { rewrite <- (List.length_map to_sql ids). apply List.NoDup_incl_length; assumption. }
  split; [lia|]. rewrite <- HlenW. split.
  - intros Heq. assert (Hge : (length (map to_sql ids) <= length W)%nat)
      by (rewrite List.length_map; lia).
    split.
    + apply NoDup_ListNoDup. apply (List.NoDup_incl_NoDup Hnd Hge Hincl).
    + apply List.Forall_forall. intros p Hp.
      pose proof (List.NoDup_length_incl Hnd Hge Hincl) as Hback.
      specialize (Hback (to_sql p) (List.in_map to_sql ids p Hp)).
      apply List.in_map_iff in Hback as [r [Heqr Hr]].
      apply List.filter_In in Hr as [Hr HPr]. exists r. split; [exact Hr|].
      unfold col_eq. rewrite <- Heqr. apply sql_eq_refl. apply HP. exact HPr.
  - intros [Hnd' Hall].
    assert (Hback : incl (map to_sql ids) W).
    { intros v Hv. apply List.in_map_iff in Hv as [p [<- Hp]].
      destruct (proj1 (List.Forall_forall _ _) Hall p Hp) as [r [Hr Heq]].
      unfold col_eq in Heq. apply sql_eq_true in Heq as [Heq Hnn].
      apply List.in_map_iff. exists r. split; [exact Heq|].
      apply List.filter_In. split; [exact Hr|]. apply sql_in_true. split; [|exact Hnn].
      rewrite Heq. apply List.in_map. exact Hp. }
    apply NoDup_ListNoDup in Hnd'.
    pose proof (List.NoDup_incl_length Hnd' Hback) as Hge.
    rewrite List.length_map in Hge. lia.
Qed.

Lemma match_ids_in c ids r :
  forallb (match_holds r) [(c, MSeq ids)] = sql_in (col r c) (map to_sql ids).
Proof. cbn [forallb match_holds fst snd]. apply andb_true_r. Qed.

Lemma columns_in_names t fields cols :
  map_result (dict_getitem (pubToDBNameDict (table_info t))) fields = Ok cols ->
  forallb (in_names (dbFieldNames (table_info t))) cols = true.
Proof.
  revert cols. induction fields as [|f fields IH]; intros cols H; cbn [map_result] in H.
  - injection H as <-. reflexivity.
  - unfold dict_getitem at 1 in H.
    destruct (pubToDBNameDict (table_info t) !! f) as [c|] eqn:Hf; [|discriminate].
    cbn [result_bind] in H.
    destruct (map_result (dict_getitem (pubToDBNameDict (table_info t))) fields)
      as [cs|e] eqn:Hcs; [|discriminate].
    cbn [result_bind] in H. injection H as <-. cbn [forallb]. rewrite (IH cs eq_refl).
    rewrite andb_true_r. apply in_names_In.
    pose proof (table_info_ok t) as Hinfo. unfold initTableInfo in Hinfo.
    destruct (map_result _columnNameDBToPublic (map fst (sch_columns (table_schema t))))
      as [pubs|e] eqn:Hpubs; [|discriminate]. cbn [result_bind] in Hinfo.
    injection Hinfo as Hinfo. rewrite <- Hinfo in Hf |- *.
    cbn [pubToDBNameDict dbFieldNames] in *. eapply dict_zip_values. exact Hf.
Qed.

(** The rows a look-up by ids fetches. *)
Lemma select_by_ids t c ids cols db :
  in_names (dbFieldNames (table_info t)) c = true ->
  cols <> [] ->
  forallb (in_names (dbFieldNames (table_info t))) cols = true ->
  _getMatchingRowsWithRetries t [(c, MSeq ids)] cols None db
  = (Ok (fetched cols (found_rows c ids (table_rows t db))), db).
Proof.
  intros Hc Hne Hcols. unfold _getMatchingRowsWithRetries.
  rewrite getMatchingRows_eval.
  - unfold sql_select, fetched, found_rows. rewrite map_map.
    rewrite (filter_ext_eq _ _ _ (match_ids_in c ids)).
    f_equal. f_equal. apply map_ext. intros r. rewrite map_map. reflexivity.
  - reflexivity.
  - cbn [forallb fst]. rewrite Hc. reflexivity.
  - destruct cols; [contradiction|reflexivity].
  - exact Hcols.
Qed.

Lemma make_fetched nt cols rows :
  length nt = length cols ->
  map_result (_make nt) (fetched cols rows) = Ok (map (mkNamedTuple nt) (fetched cols rows)).
Proof.
  intros Hlen. unfold fetched. induction rows as [|r rows IH]; [reflexivity|].
  cbn [map map_result]. unfold _make at 1. rewrite List.length_map, <- Hlen, Nat.eqb_refl.
  cbn [result_bind]. rewrite IH. reflexivity.
Qed.

Lemma length_fetched cols rows : length (fetched cols rows) = length rows.
Proof. apply List.length_map. Qed.

Lemma models_columns_named db :
  models_columns modelInfoNamedTuple db = (Ok (dbFieldNames _models), db)
  /\ models_columns getParamsNamedTuple db = (Ok getParams_columns, db)
  /\ models_columns getResultAndStatusNamedTuple db = (Ok getResultAndStatus_columns, db)
  /\ models_columns getUpdateCountersNamedTuple db = (Ok getUpdateCounters_columns, db).
Proof.
  unfold models_columns, lift.
  repeat split; f_equal; vm_compute; reflexivity.
Qed.

Lemma jobs_columns_named db :
  jobs_columns jobInfoNamedTuple db = (Ok (dbFieldNames _jobs), db)
  /\ jobs_columns jobDemandNamedTuple db = (Ok jobDemand_columns, db).
Proof.
  unfold jobs_columns, lift. repeat split; f_equal; vm_compute; reflexivity.
Qed.

Lemma id_and_fields_fetched c cols rows :
  id_and_fields (fetched (c :: cols) rows) = ids_with_fields c cols rows.
Proof.
  unfold id_and_fields, fetched, ids_with_fields. rewrite map_map. reflexivity.
Qed.

Lemma named_lengths :
  length modelInfoNamedTuple = length (dbFieldNames _models)
  /\ length getParamsNamedTuple = length getParams_columns
  /\ length getResultAndStatusNamedTuple = length getResultAndStatus_columns
  /\ length getUpdateCountersNamedTuple = length getUpdateCounters_columns
  /\ length jobInfoNamedTuple = length (dbFieldNames _jobs)
  /\ length jobDemandNamedTuple = length jobDemand_columns.
Proof. repeat split; vm_compute; reflexivity. Qed.

Lemma named_columns_known :
  forallb (in_names (dbFieldNames (table_info ModelsTable))) (dbFieldNames _models) = true
  /\ forallb (in_names (dbFieldNames (table_info ModelsTable))) getParams_columns = true
  /\ forallb (in_names (dbFieldNames (table_info ModelsTable))) getResultAndStatus_columns
     = true
  /\ forallb (in_names (dbFieldNames (table_info ModelsTable))) getUpdateCounters_columns
     = true
  /\ forallb (in_names (dbFieldNames (table_info JobsTable))) (dbFieldNames _jobs) = true
  /\ forallb (in_names (dbFieldNames (table_info JobsTable))) jobDemand_columns = true
  /\ in_names (dbFieldNames (table_info ModelsTable)) "model_id" = true
  /\ in_names (dbFieldNames (table_info ModelsTable)) "job_id" = true
  /\ in_names (dbFieldNames (table_info JobsTable)) "job_id" = true
  /\ in_names (dbFieldNames (table_info JobsTable)) "status" = true.
Proof. repeat split; vm_compute; reflexivity. Qed.

Lemma length_neq_ltb (a b : nat) : (a <= b)%nat -> a <> b -> (a <? b)%nat = true.
Proof. intros. apply Nat.ltb_lt. lia. Qed.

Lemma is_nil_false {A} (l : list A) : l <> [] -> is_nil l = false.
Proof. destruct l; [contradiction|reflexivity]. Qed.

Lemma length_pos_leb {A} (l : list A) : l <> [] -> (1 <=? length l)%nat = true.
Proof. destruct l; [contradiction|reflexivity]. Qed.

(** A look-up by ids that makes named tuples and asserts, before or after,
    that it found one row for each id. *)
Lemma tuples_by_ids nt cols ids db :
  length nt = length cols -> cols <> [] ->
  forallb (in_names (dbFieldNames (table_info ModelsTable))) cols = true ->
  index_ok ["model_id"] (models db) ->
  let rows := found_rows "model_id" ids (models db) in
  (let* rows := _getMatchingRowsWithRetries ModelsTable [("model_id", MSeq ids)] cols None in
   exec assert_ (length rows =? length ids)%nat in
   lift (map_result (_make nt) rows)) db
  = (if (length rows =? length ids)%nat then Ok (tuples_of nt cols rows)
     else Raise AssertionError, db)
  /\ (let* rows := _getMatchingRowsWithRetries ModelsTable [("model_id", MSeq ids)] cols
                     None in
      let* results := lift (map_result (_make nt) rows) in
      exec assert_ (length results =? length ids)%nat in
      ret results) db
     = (if (length rows =? length ids)%nat then Ok (tuples_of nt cols rows)
        else Raise AssertionError, db).
Proof.
  intros Hlen Hne Hcols Hidx rows. unfold bind.
  rewrite select_by_ids by (assumption || apply named_columns_known).
  cbn [table_rows]. fold rows. unfold lift. rewrite make_fetched by assumption.
  unfold tuples_of. rewrite List.length_map, length_fetched.
  destruct (length rows =? length ids)%nat; split; reflexivity.
Qed.

(** X14: the look-ups of models by a sequence of ids answer exactly when
    the ids are pairwise different and each is the id of a model: then
    there is one answer for each id, made from the columns of its row.
    Otherwise [modelsInfo], [modelsGetParams] and
    [modelsGetResultAndStatus] fail their assertion and [modelsGetFields]
    raises [RuntimeError].  [modelsGetFields] with a single id answers with
    the fields of its row, and raises [RuntimeError] when there is none. *)
Theorem models_by_ids ids db :
  index_ok ["model_id"] (models db) ->
  ids <> [] ->
  let rows := found_rows "model_id" ids (models db) in
  (all_found "model_id" ids (models db) ->
     length rows = length ids
     /\ modelsInfo ids db = (Ok (tuples_of modelInfoNamedTuple (dbFieldNames _models) rows), db)
     /\ modelsGetParams ids db
        = (Ok (tuples_of getParamsNamedTuple getParams_columns rows), db)
     /\ modelsGetResultAndStatus ids db
        = (Ok (tuples_of getResultAndStatusNamedTuple getResultAndStatus_columns rows), db)
     /\ forall fields cols,
          fields <> [] ->
          map_result (dict_getitem (pubToDBNameDict _models)) fields = Ok cols ->
          modelsGetFields (MSeq ids) fields db
          = (Ok (FieldsOfEach (ids_with_fields "model_id" cols rows)), db))
  /\ (~ all_found "model_id" ids (models db) ->
        modelsInfo ids db = (Raise AssertionError, db)
        /\ modelsGetParams ids db = (Raise AssertionError, db)
        /\ modelsGetResultAndStatus ids db = (Raise AssertionError, db)
        /\ forall fields cols,
             fields <> [] ->
             map_result (dict_getitem (pubToDBNameDict _models)) fields = Ok cols ->
             modelsGetFields (MSeq ids) fields db = (Raise RuntimeError, db))
  /\ (forall modelID fields cols,
        fields <> [] ->
        map_result (dict_getitem (pubToDBNameDict _models)) fields = Ok cols ->
        modelsGetFields (MScalar modelID) fields db
        = match List.filter (model_is modelID) (models db) with
          | r :: _ => (Ok (FieldsOfOne (map (fun c => of_sql (col r c)) cols)), db)
          | [] => (Raise RuntimeError, db)
          end).
Proof.
  intros Hidx Hne rows.
  destruct (found_count "model_id" ids (models db) Hidx) as [Hle Hiff]. fold rows in Hle, Hiff.
  destruct named_lengths as (L1 & L2 & L3 & _).
  destruct named_columns_known as (K1 & K2 & K3 & _ & _ & _ & Kid & _).
  destruct (models_columns_named db) as (C1 & C2 & C3 & _).
  assert (Hinfo : modelsInfo ids db
                  = (if (length rows =? length ids)%nat
                     then Ok (tuples_of modelInfoNamedTuple (dbFieldNames _models) rows)
                     else Raise AssertionError, db)).
  { unfold modelsInfo. unfold bind at 1. rewrite is_nil_false by assumption.
    cbn [negb assert_ ret]. unfold bind at 1. rewrite C1.
    apply (tuples_by_ids modelInfoNamedTuple (dbFieldNames _models) ids db);
      (assumption || discriminate). }
  assert (Hparams : modelsGetParams ids db
                    = (if (length rows =? length ids)%nat
                       then Ok (tuples_of getParamsNamedTuple getParams_columns rows)
                       else Raise AssertionError, db)).
  { unfold modelsGetParams. unfold bind at 1. rewrite length_pos_leb by assumption.
    cbn [assert_ ret]. unfold bind at 1. rewrite C2.
    apply (tuples_by_ids getParamsNamedTuple getParams_columns ids db);
      (assumption || discriminate). }
  assert (Hstatus : modelsGetResultAndStatus ids db
                    = (if (length rows =? length ids)%nat
                       then Ok (tuples_of getResultAndStatusNamedTuple
                                  getResultAndStatus_columns rows)
                       else Raise AssertionError, db)).
  { unfold modelsGetResultAndStatus. unfold bind at 1. rewrite length_pos_leb by assumption.
    cbn [assert_ ret]. unfold bind at 1. rewrite C3.
    apply (tuples_by_ids getResultAndStatusNamedTuple getResultAndStatus_columns ids db);
      (assumption || discriminate). }
  assert (Hfields : forall fields cols,
            fields <> [] ->
            map_result (dict_getitem (pubToDBNameDict _models)) fields = Ok cols ->
            modelsGetFields (MSeq ids) fields db
            = (if (length rows <? length ids)%nat then Raise RuntimeError
               else Ok (FieldsOfEach (ids_with_fields "model_id" cols rows)), db)).
  { intros fields cols Hf Hcols. unfold modelsGetFields, bind, models_columns, lift.
    rewrite (length_pos_leb fields Hf), (length_pos_leb ids Hne). cbn [assert_ ret].
    rewrite Hcols, select_by_ids.
    - cbn [table_rows]. fold rows. rewrite length_fetched, id_and_fields_fetched.
      destruct (length rows <? length ids)%nat; reflexivity.
    - exact Kid.
    - discriminate.
    - cbn [forallb]. rewrite Kid. apply (columns_in_names ModelsTable fields cols Hcols). }
  split; [|split].
  - intros Hall. apply Hiff in Hall. rewrite Hinfo, Hparams, Hstatus, Hall, Nat.eqb_refl.
    split; [reflexivity|]. do 3 (split; [reflexivity|]).
    intros fields cols Hf Hcols. rewrite (Hfields fields cols Hf Hcols), Hall, Nat.ltb_irrefl.
    reflexivity.
  - intros Hnot. assert (Hneq : length rows <> length ids) by (intros H; apply Hnot, Hiff, H).
    rewrite Hinfo, Hparams, Hstatus. rewrite (proj2 (Nat.eqb_neq _ _) Hneq).
    do 3 (split; [reflexivity|]).
    intros fields cols Hf Hcols.
    rewrite (Hfields fields cols Hf Hcols), length_neq_ltb by assumption. reflexivity.
  - intros modelID fields cols Hf Hcols.
    unfold modelsGetFields, bind, models_columns, lift.
    rewrite (length_pos_leb fields Hf). cbn [assert_ ret]. rewrite Hcols, select_by_ids.
    + cbn [table_rows]. unfold found_rows.
      rewrite (filter_ext_eq _ (model_is modelID))
        by (intros r; unfold model_is, col_eq; cbn [map sql_in existsb];
            apply orb_false_r).
      destruct (List.filter (model_is modelID) (models db)) as [|r rest]; [reflexivity|].
      cbn [fetched map length Nat.ltb Nat.leb negb tail]. reflexivity.
    + exact Kid.
    + discriminate.
    + cbn [forallb]. rewrite Kid. apply (columns_in_names ModelsTable fields cols Hcols).
Qed.

Lemma index_ok_singleton key (r : row) : index_ok key [r].
Proof. intros probe. cbn [List.filter]. destruct (same_key key r probe); cbn; lia. Qed.

Lemma example_model_found :
  all_found "model_id" [PInt 1000] (models (db_one_model 7 0)).
Proof.
  split; [repeat constructor; apply not_elem_of_nil|].
  repeat constructor. eexists. split; [left; reflexivity|]. vm_compute. reflexivity.
Qed.

Lemma models_by_ids_witness :
  (exists ts, modelsGetParams [PInt 1000] (db_one_model 7 0) = (Ok ts, db_one_model 7 0))
  /\ modelsGetParams [PInt 1000; PInt 1000] (db_one_model 7 0)
     = (Raise AssertionError, db_one_model 7 0).
Proof.
  split.
  - destruct (models_by_ids [PInt 1000] (db_one_model 7 0)) as [H _].
    + apply index_ok_singleton.
    + discriminate.
    + destruct (H example_model_found) as (_ & _ & H1 & _). eexists. exact H1.
  - destruct (models_by_ids [PInt 1000; PInt 1000] (db_one_model 7 0)) as (_ & H & _).
    + apply index_ok_singleton.
    + discriminate.
    + assert (Hnot : ~ all_found "model_id" [PInt 1000; PInt 1000]
                         (models (db_one_model 7 0))).
      { intros [Hnd _]. cbn [map to_sql] in Hnd.
        apply NoDup_cons in Hnd as [Hnotin _]. apply Hnotin. left. }
      destruct (H Hnot) as (_ & H2 & _). exact H2.
Defined.

(** X15: [jobsGetFields] answers with one pair for each id when the ids are
    pairwise different and each is the id of a job.  Otherwise it raises
    [RuntimeError] when all are required, and answers with the fewer jobs
    it found when not. *)
Theorem jobsGetFields_all_or_some ids fields cols db :
  index_ok ["job_id"] (jobs db) ->
  ids <> [] ->
  map_result (dict_getitem (pubToDBNameDict _jobs)) fields = Ok cols ->
  let rows := found_rows "job_id" ids (jobs db) in
  (all_found "job_id" ids (jobs db) ->
     length rows = length ids
     /\ forall requireAll,
          jobsGetFields ids fields requireAll db
          = (Ok (ids_with_fields "job_id" cols rows), db))
  /\ (~ all_found "job_id" ids (jobs db) ->
        (length rows < length ids)%nat
        /\ jobsGetFields ids fields true db = (Raise RuntimeError, db)
        /\ jobsGetFields ids fields false db = (Ok (ids_with_fields "job_id" cols rows), db)).
Proof.
  intros Hidx Hne Hcols rows.
  destruct (found_count "job_id" ids (jobs db) Hidx) as [Hle Hiff]. fold rows in Hle, Hiff.
  destruct named_columns_known as (_ & _ & _ & _ & _ & _ & _ & _ & Kid & _).
  assert (Heval : forall requireAll,
            jobsGetFields ids fields requireAll db
            = (if requireAll && (length rows <? length ids)%nat then Raise RuntimeError
               else Ok (ids_with_fields "job_id" cols rows), db)).
  { intros requireAll. unfold jobsGetFields, bind, lift.
    rewrite (length_pos_leb ids Hne). cbn [assert_ ret]. rewrite Hcols, select_by_ids.
    - cbn [table_rows]. fold rows. rewrite length_fetched.
      change (map (fun r => (hd PNone r, tail r)) (fetched ("job_id" :: cols) rows))
        with (id_and_fields (fetched ("job_id" :: cols) rows)).
      rewrite id_and_fields_fetched.
      destruct (requireAll && (length rows <? length ids)%nat); reflexivity.
    - exact Kid.
    - discriminate.
    - cbn [forallb]. rewrite Kid. apply (columns_in_names JobsTable fields cols Hcols). }
  split.
  - intros Hall. apply Hiff in Hall. split; [exact Hall|]. intros requireAll.
    rewrite Heval, Hall, Nat.ltb_irrefl, andb_false_r. reflexivity.
  - intros Hnot. assert (Hneq : length rows <> length ids) by (intros H; apply Hnot, Hiff, H).
    split; [lia|]. rewrite !Heval, length_neq_ltb by assumption. split; reflexivity.
Qed.

Lemma jobsGetFields_all_or_some_witness :
  jobsGetFields [PInt 1000; PInt 1001] ["status"] true (db_one_job STATUS_RUNNING 0)
  = (Raise RuntimeError, db_one_job STATUS_RUNNING 0)
  /\ exists rows,
       jobsGetFields [PInt 1000; PInt 1001] ["status"] false (db_one_job STATUS_RUNNING 0)
       = (Ok rows, db_one_job STATUS_RUNNING 0).
Proof.
  destruct (jobsGetFields_all_or_some [PInt 1000; PInt 1001] ["status"] ["status"]
              (db_one_job STATUS_RUNNING 0)) as (_ & H).
  - apply index_ok_singleton.
  - discriminate.
  - reflexivity.
  - destruct H as (_ & H1 & H2).
    + intros [_ Hall]. apply List.Forall_forall with (x := PInt 1001) in Hall;
        [|right; left; reflexivity].
      destruct Hall as [r [[<-|[]] Hr]]. vm_compute in Hr. discriminate Hr.
    + split; [exact H1|]. eexists. exact H2.
Defined.

(** ** All columns of a job *)

Lemma lookup_field_zip (g : string -> pyval) fields cols f c :
  NoDup fields -> In (f, c) (combine fields cols) ->
  lookup_field fields (map g cols) f = Some (g c).
Proof.
  revert cols. induction fields as [|f0 fields IH]; intros [|c0 cols] Hnd Hin;
    try destruct Hin.
  - injection H as -> ->. cbn [map lookup_field]. rewrite String.eqb_refl. reflexivity.
  - apply NoDup_cons in Hnd as [Hnotin Hnd]. cbn [map lookup_field].
    destruct (String.eqb f0 f) eqn:Heq.
    + apply String.eqb_eq in Heq. subst f0. exfalso. apply Hnotin.
      apply list_elem_of_In. eapply List.in_combine_l. exact H.
    + apply IH; assumption.
Qed.

Lemma pubToDB_combine t f c :
  pubToDBNameDict (table_info t) !! f = Some c
  <-> In (f, c) (combine (publicFieldNames (table_info t)) (dbFieldNames (table_info t))).
Proof.
  pose proof (table_info_ok t) as Hinfo. unfold initTableInfo in Hinfo.
  destruct (map_result _columnNameDBToPublic (map fst (sch_columns (table_schema t))))
    as [pubs|e] eqn:Hpubs; [|discriminate]. cbn [result_bind] in Hinfo.
  injection Hinfo as Hinfo.
  destruct (table_names_NoDup t) as [Hdb Hpub]. rewrite <- Hinfo in Hdb, Hpub |- *.
  cbn [dbFieldNames publicFieldNames pubToDBNameDict] in *.
  destruct (map_result_combine _ _ _ Hpubs) as [Hlen _].
  apply dict_zip_lookup; [assumption|lia].
Qed.

Lemma getattr_job_tuple r f c :
  pubToDBNameDict _jobs !! f = Some c -> getattr (job_tuple r) f = Some (of_sql (col r c)).
Proof.
  intros Hf. unfold getattr, job_tuple. cbn [_fields nt_values].
  apply (lookup_field_zip (fun c => of_sql (col r c))).
  - apply (table_names_NoDup JobsTable).
  - apply (pubToDB_combine JobsTable). exact Hf.
Qed.

Lemma getattr_model_tuple m f c :
  pubToDBNameDict _models !! f = Some c ->
  getattr (model_tuple m) f = Some (of_sql (col m c)).
Proof.
  intros Hf. unfold getattr, model_tuple. cbn [_fields nt_values].
  apply (lookup_field_zip (fun c => of_sql (col m c))).
  - apply (table_names_NoDup ModelsTable).
  - apply (pubToDB_combine ModelsTable). exact Hf.
Qed.

Lemma match_scalar_int c z r :
  forallb (match_holds r) [(c, MScalar (PInt z))] = col_eq r c (PInt z).
Proof. cbn [forallb match_holds fst snd]. apply andb_true_r. Qed.

Lemma jobInfo_eval j db :
  jobInfo (PInt j) db
  = match List.filter (job_is (PInt j)) (jobs db) with
    | [] => (Raise RuntimeError, db)
    | r :: _ => (Ok (job_tuple r), db)
    end.
Proof.
  destruct named_lengths as (_ & _ & _ & _ & L & _).
  destruct named_columns_known as (_ & _ & _ & _ & K & _ & _ & _ & Kid & _).
  unfold jobInfo. unfold bind at 1. rewrite (proj1 (jobs_columns_named db)).
  unfold bind, _getOneMatchingRowWithRetries.
  rewrite getOneMatchingRow_eval;
    [|reflexivity|cbn [forallb fst]; rewrite Kid; reflexivity|reflexivity|exact K].
  cbn [table_rows].
  rewrite (filter_ext_eq _ (job_is (PInt j))) by (intros r; apply match_scalar_int).
  destruct (List.filter (job_is (PInt j)) (jobs db)) as [|r rest]; [reflexivity|].
  unfold lift, _make. rewrite List.length_map, L, Nat.eqb_refl. reflexivity.
Qed.

(** X16: [jobInfo] raises [RuntimeError] when no job has the id.  Otherwise
    it answers with a named tuple whose fields are the public names of the
    columns, and each field holds what [jobGetFields] reads for it. *)
Theorem jobInfo_reads_row j db :
  (List.filter (job_is (PInt j)) (jobs db) = [] ->
     jobInfo (PInt j) db = (Raise RuntimeError, db))
  /\ (forall r rest, List.filter (job_is (PInt j)) (jobs db) = r :: rest ->
        exists t,
          jobInfo (PInt j) db = (Ok t, db)
          /\ _fields t = publicFieldNames _jobs
          /\ forall f c, pubToDBNameDict _jobs !! f = Some c ->
               getattr t f = Some (of_sql (col r c))
               /\ jobGetFields (PInt j) [f] db = (Ok [of_sql (col r c)], db)).
Proof.
  rewrite jobInfo_eval. split.
  - intros ->. reflexivity.
  - intros r rest Hrow. rewrite Hrow. exists (job_tuple r).
    split; [reflexivity|]. split; [reflexivity|]. intros f c Hf.
    split; [apply getattr_job_tuple; exact Hf|].
    apply (jobGetFields_found (PInt j) f c db r rest); assumption.
Qed.

Lemma jobInfo_reads_row_witness :
  exists t,
    jobInfo (PInt 1000) (db_one_job STATUS_RUNNING 0) = (Ok t, db_one_job STATUS_RUNNING 0)
    /\ getattr t "status" = Some (PStr STATUS_RUNNING).
Proof.
  destruct (proj2 (jobInfo_reads_row 1000 (db_one_job STATUS_RUNNING 0))
              (example_job 1000 STATUS_RUNNING 0 50) [] eq_refl)
    as (t & Ht & _ & Hf).
  exists t. split; [exact Ht|].
  destruct (Hf "status" "status" eq_refl) as [Hget _]. rewrite Hget. reflexivity.
Defined.

(** ** A job with its models *)








(** ** The demand of the running jobs *)

Lemma select_by_scalar t c p cols db :
  in_names (dbFieldNames (table_info t)) c = true ->
  cols <> [] ->
  forallb (in_names (dbFieldNames (table_info t))) cols = true ->
  (forall r, match_holds r (c, MScalar p) = col_eq r c p) ->
  _getMatchingRowsWithRetries t [(c, MScalar p)] cols None db
  = (Ok (fetched cols (List.filter (fun r => col_eq r c p) (table_rows t db))), db).
Proof.
  intros Hc Hne Hcols Hm. unfold _getMatchingRowsWithRetries.
  rewrite getMatchingRows_eval.
  - unfold sql_select, fetched. rewrite map_map.
    rewrite (filter_ext_eq _ (fun r => col_eq r c p)).
    + f_equal. f_equal. apply map_ext. intros r. rewrite map_map. reflexivity.
    + intros r. cbn [forallb]. rewrite Hm. apply andb_true_r.
  - reflexivity.
  - cbn [forallb fst]. rewrite Hc. reflexivity.
  - destruct cols; [contradiction|reflexivity].
  - exact Hcols.
Qed.

Lemma jobGetDemand_eval db :
  jobGetDemand db
  = (Ok (tuples_of jobDemandNamedTuple jobDemand_columns (List.filter running (jobs db))), db).
Proof.
  destruct named_lengths as (_ & _ & _ & _ & _ & L).
  unfold jobGetDemand. unfold bind at 1. rewrite (proj2 (jobs_columns_named db)).
  unfold bind. rewrite select_by_scalar; try reflexivity; [|discriminate].
  cbn [table_rows]. unfold lift. rewrite make_fetched by exact L. reflexivity.
Qed.

Lemma row_changed_false_inv asg r r' ce :
  row_changed asg r r' = false -> In ce asg -> col r (fst ce) = col r' (fst ce).
Proof.
  unfold row_changed. intros H Hin.
  destruct (bool_decide (col r (fst ce) = col r' (fst ce))) eqn:Hd;
    [apply bool_decide_eq_true in Hd; exact Hd|].
  assert (existsb (fun ce => negb (bool_decide (col r (fst ce) = col r' (fst ce)))) asg = true).
  { apply existsb_exists. exists ce. rewrite Hd. split; [assumption|reflexivity]. }
  congruence.
Qed.

(** A matched row holds the assigned constant afterwards, whether it
    counted as changed or not. *)
Lemma col_updated_row_assigned sch now pre c p post where_ r :
  where_ r = true ->
  forallb (fun ce => negb (String.eqb (fst ce) c)) post = true ->
  col (updated_row sch now (pre ++ (c, EParam p) :: post) where_ r) c = to_sql p.
Proof.
  intros Hw Hpost.
  pose proof (col_apply_assigned sch now pre c (EParam p) post r Hpost) as Hnew.
  cbn [eval_expr] in Hnew.
  unfold updated_row. rewrite Hw. cbv zeta.
  destruct (row_changed _ r _) eqn:Hch; [exact Hnew|].
  pose proof (row_changed_false_inv _ _ _ (c, EParam p) Hch (in_elt _ _ _)) as Hsame.
  cbn [fst] in Hsame. rewrite Hsame. exact Hnew.
Qed.

Lemma filter_map_kept {A} (p : A -> bool) (f : A -> A) (l : list A) :
  (forall x, p (f x) = p x) -> List.filter p (map f l) = map f (List.filter p l).
Proof.
  intros H. rewrite filter_map_pre. f_equal. apply filter_ext_eq. exact H.
Qed.

(** X18: [jobGetDemand] never raises: it answers with one tuple of the
    demand fields for each running job, in storage order.
    [jobReactivateRunningJobs] never raises either: it leaves the jobs that
    are not running and the models as they are, keeps the running jobs in
    place, and afterwards every running job belongs to the calling session
    and asks for new workers, which is what [jobGetDemand] then reports. *)
Theorem jobReactivateRunningJobs_demand conn db :
  jobGetDemand db
  = (Ok (tuples_of jobDemandNamedTuple jobDemand_columns (List.filter running (jobs db))), db)
  /\ exists db',
       jobReactivateRunningJobs conn db = (Ok tt, db')
       /\ models db' = models db
       /\ others running (jobs db') = others running (jobs db)
       /\ job_ids (List.filter running (jobs db')) = job_ids (List.filter running (jobs db))
       /\ (forall r, In r (List.filter running (jobs db')) ->
             col r "_eng_cjm_conn_id" = VInt conn
             /\ col r "_eng_allocate_new_workers" = VInt 1)
       /\ forall ts, jobGetDemand db' = (Ok ts, db') ->
            length ts = length (List.filter running (jobs db))
            /\ forall t, In t ts ->
                 getattr t "engAllocateNewWorkers" = Some (PInt 1).
Proof.
  split; [apply jobGetDemand_eval|].
  unfold jobReactivateRunningJobs, bind. rewrite execute_update_unlimited.
  cbn [table_rows table_schema]. unfold ret.
  set (asg := [("_eng_cjm_conn_id", EParam (PInt conn));
               ("_eng_allocate_new_workers", EParam (PBool true))]).
  set (upd := updated_row jobs_schema (utc_timestamp db) asg
                (fun r => col_eq r "status" (PStr STATUS_RUNNING))).
  assert (Hstatus : forall x, running (upd x) = running x).
  { intros x. unfold running, col_eq, upd. rewrite col_updated_row_notin by reflexivity.
    reflexivity. }
  assert (Hid : forall x, col (upd x) "job_id" = col x "job_id").
  { intros x. unfold upd. apply col_updated_row_notin. reflexivity. }
  assert (Hrun : forall r, In r (List.filter running (map upd (jobs db))) ->
            col r "_eng_cjm_conn_id" = VInt conn
            /\ col r "_eng_allocate_new_workers" = VInt 1).
  { intros r Hr. apply List.filter_In in Hr as [Hin Hr].
    apply List.in_map_iff in Hin as (x & <- & _). rewrite Hstatus in Hr.
    split.
    - apply (col_updated_row_assigned jobs_schema _ [] "_eng_cjm_conn_id" (PInt conn));
        [exact Hr|reflexivity].
    - apply (col_updated_row_assigned jobs_schema _ [("_eng_cjm_conn_id", EParam (PInt conn))]
               "_eng_allocate_new_workers" (PBool true)); [exact Hr|reflexivity]. }
  eexists. split; [reflexivity|].
  rewrite models_set_jobs, jobs_set_table_rows.
  split; [reflexivity|]. split; [|split; [|split]].
  - unfold others. rewrite filter_map_pre.
    rewrite (filter_ext_eq _ (fun x => negb (running x)))
      by (intros x; rewrite Hstatus; reflexivity).
    clear Hrun. induction (jobs db) as [|x l IH]; [reflexivity|]. cbn [List.filter].
    destruct (running x) eqn:Hx; cbn [negb map]; [exact IH|].
    rewrite IH. f_equal. unfold upd, updated_row. fold (running x). rewrite Hx. reflexivity.
  - unfold job_ids. rewrite (filter_map_kept running upd) by exact Hstatus.
    rewrite map_map. apply map_ext. intros x. rewrite Hid. reflexivity.
  - exact Hrun.
  - intros ts Hts. rewrite jobGetDemand_eval in Hts. injection Hts as <-.
    rewrite ?jobs_set_table_rows. unfold tuples_of. rewrite List.length_map, length_fetched.
    split.
    + rewrite (filter_map_kept running upd) by exact Hstatus. apply List.length_map.
    + intros t Ht. unfold fetched in Ht. rewrite map_map in Ht.
      apply List.in_map_iff in Ht as (r & <- & Hr).
      destruct (Hrun r Hr) as [_ Hnew].
      unfold getattr. cbn [_fields nt_values].
      unfold jobDemandNamedTuple, jobDemand_columns. cbn [map lookup_field String.eqb Ascii.eqb Bool.eqb].
      rewrite Hnew. reflexivity.
Qed.

Lemma jobReactivateRunningJobs_demand_witness :
  exists db',
    jobReactivateRunningJobs 7 (db_one_job STATUS_RUNNING 0) = (Ok tt, db')
    /\ job_ids (List.filter running (jobs db')) = [PInt 1000].
Proof.
  destruct (jobReactivateRunningJobs_demand 7 (db_one_job STATUS_RUNNING 0))
    as (_ & db' & Hrun & _ & _ & Hids & _).
  exists db'. split; [exact Hrun|]. rewrite Hids. reflexivity.
Defined.

(** ** [jobInsert] *)

Lemma new_job_columns now auto initStatus client cmdLine h clientInfo clientKey params
    minW maxW jobType priority :
  let r := new_row jobs_schema now auto
             (job_insert_values initStatus client cmdLine h clientInfo clientKey params
                minW maxW jobType priority) in
  col r "job_id" = VInt auto
  /\ col r "status" = VStr initStatus
  /\ col r "client" = VStr client
  /\ col r "client_info" = VStr clientInfo
  /\ col r "client_key" = VStr clientKey
  /\ col r "cmd_line" = VStr cmdLine
  /\ col r "params" = VStr params
  /\ col r "job_hash" = VStr h
  /\ col r "minimum_workers" = VInt minW
  /\ col r "maximum_workers" = VInt maxW
  /\ col r "priority" = VInt priority
  /\ col r "_eng_job_type" = VStr jobType
  /\ col r "_eng_cjm_conn_id" = VNull
  /\ col r "start_time" = VTime 0
  /\ col r "cancel" = VInt 0.
Proof.
  intros r. unfold r, new_row, job_insert_values.
  assert (Hdef : forall c v,
            col (<["job_id" := VInt auto]> (default_row jobs_schema)) c = v ->
            ~ In c (map fst (job_insert_values initStatus client cmdLine h clientInfo
                               clientKey params minW maxW jobType priority)) ->
            col (apply_assignments jobs_schema now
                   (job_insert_values initStatus client cmdLine h clientInfo clientKey
                      params minW maxW jobType priority)
                   (<[sch_auto_increment jobs_schema := VInt auto]> (default_row jobs_schema))) c
            = v).
  { intros c v Hv Hnotin. rewrite col_apply_other by exact Hnotin. exact Hv. }
  unfold job_insert_values in Hdef.
  repeat match goal with |- _ /\ _ => split end.
  - apply Hdef; [reflexivity|cbn [map fst In]; intuition discriminate].
  - rewrite col_apply_assignments_head by reflexivity. reflexivity.
  - apply (col_apply_assigned jobs_schema now [_] "client"). reflexivity.
  - apply (col_apply_assigned jobs_schema now [_; _] "client_info"). reflexivity.
  - apply (col_apply_assigned jobs_schema now [_; _; _] "client_key"). reflexivity.
  - apply (col_apply_assigned jobs_schema now [_; _; _; _] "cmd_line"). reflexivity.
  - apply (col_apply_assigned jobs_schema now [_; _; _; _; _] "params"). reflexivity.
  - apply (col_apply_assigned jobs_schema now [_; _; _; _; _; _] "job_hash"). reflexivity.
  - apply (col_apply_assigned jobs_schema now [_; _; _; _; _; _; _; _] "minimum_workers").
    reflexivity.
  - apply (col_apply_assigned jobs_schema now [_; _; _; _; _; _; _; _; _] "maximum_workers").
    reflexivity.
  - apply (col_apply_assigned jobs_schema now [_; _; _; _; _; _; _; _; _; _] "priority").
    reflexivity.
  - apply (col_apply_assigned jobs_schema now [_; _; _; _; _; _; _; _; _; _; _]
             "_eng_job_type"). reflexivity.
  - apply Hdef; [reflexivity|cbn [map fst In]; intuition discriminate].
  - apply Hdef; [reflexivity|cbn [map fst In]; intuition discriminate].
  - apply Hdef; [reflexivity|cbn [map fst In]; intuition discriminate].
Qed.

Lemma new_job_no_collision now auto initStatus client cmdLine h clientInfo clientKey params
    minW maxW jobType priority tbl :
  Forall (fun r => col r "job_id" <> VNull /\ col r "job_id" <> VInt auto) tbl ->
  List.filter (same_job client h) tbl = [] ->
  duplicate_entry jobs_schema
    (new_row jobs_schema now auto
       (job_insert_values initStatus client cmdLine h clientInfo clientKey params
          minW maxW jobType priority)) tbl = false.
Proof.
  intros Hids Hnone.
  pose proof (new_job_columns now auto initStatus client cmdLine h clientInfo clientKey
                params minW maxW jobType priority) as Hcols.
  cbv zeta in Hcols. destruct Hcols as (Hid & _ & Hcl & _ & _ & _ & _ & Hjh & _).
  apply duplicate_entry_jobs_false.
  - rewrite Hid. apply List.Forall_impl with (2 := Hids). intros r0 [_ H]. exact H.
  - rewrite Hcl, Hjh. exact Hnone.
Qed.

Lemma updated_rows_elsewhere sch now asg (where_ : row -> bool) (tbl : list row) :
  Forall (fun r => where_ r = false) tbl ->
  map (updated_row sch now asg where_) tbl = tbl.
Proof.
  induction 1 as [|r tbl Hr _ IH]; [reflexivity|].
  cbn [map]. rewrite IH. unfold updated_row. rewrite Hr. reflexivity.
Qed.

(** X19: [jobInsert] fails its assertion for an empty command line and for
    a client name of more than [CLIENT_MAX_LEN] characters, and stores
    nothing then.  Otherwise, when no job of the client has the generated
    hash, it appends one row and returns its id, the next AUTO_INCREMENT
    value: the row holds the arguments and is [notStarted] without an owner,
    or with [alreadyRunning] is in [testMode], owned by the calling
    session and started now. *)
Theorem jobInsert_new_job conn uuid1_bytes client cmdLine clientInfo clientKey params
    alreadyRunning minimumWorkers maximumWorkers jobType priority db :
  String.length uuid1_bytes = HASH_MAX_LEN ->
  ((cmdLine = "" \/ (CLIENT_MAX_LEN < String.length client)%nat) ->
     jobInsert conn uuid1_bytes client cmdLine clientInfo clientKey params alreadyRunning
       minimumWorkers maximumWorkers jobType priority db
     = (Raise AssertionError, db))
  /\ (cmdLine <> "" -> (String.length client <= CLIENT_MAX_LEN)%nat ->
      jobs_table_ok db ->
      List.filter (same_job client uuid1_bytes) (jobs db) = [] ->
      let r := inserted_job conn client cmdLine uuid1_bytes clientInfo clientKey params
                 alreadyRunning minimumWorkers maximumWorkers jobType priority db in
      jobInsert conn uuid1_bytes client cmdLine clientInfo clientKey params alreadyRunning
        minimumWorkers maximumWorkers jobType priority db
      = (Ok (PInt (jobs_auto_increment db)), append_row JobsTable r db)
      /\ col r "job_id" = VInt (jobs_auto_increment db)
      /\ col r "client" = VStr client
      /\ col r "cmd_line" = VStr cmdLine
      /\ col r "params" = VStr params
      /\ col r "job_hash" = VStr uuid1_bytes
      /\ col r "cancel" = VInt 0
      /\ col r "status" = VStr (if alreadyRunning then STATUS_TESTMODE else STATUS_NOTSTARTED)
      /\ col r "_eng_cjm_conn_id" = (if alreadyRunning then VInt conn else VNull)
      /\ col r "start_time" = VTime (if alreadyRunning then utc_timestamp db else 0)).
Proof.
  intros Hlen.
  assert (Hstart0 : jobInsert conn uuid1_bytes client cmdLine clientInfo clientKey params
                      alreadyRunning minimumWorkers maximumWorkers jobType priority db
                    = _insertOrGetUniqueJobNoRetries conn client cmdLine uuid1_bytes
                        clientInfo clientKey params minimumWorkers maximumWorkers jobType
                        priority alreadyRunning db).
  { unfold jobInsert, bind, lift. rewrite (normalizeHash_exact _ Hlen). reflexivity. }
  rewrite Hstart0. clear Hstart0. split.
  - unfold _insertOrGetUniqueJobNoRetries, bind, assert_. intros [-> | Hclient].
    + destruct (String.length client <=? CLIENT_MAX_LEN)%nat; reflexivity.
    + apply Nat.leb_gt in Hclient. rewrite Hclient. reflexivity.
  - intros Hcmd Hclient (_ & _ & Hids & Hauto) Hnone r.
    pose proof (new_job_columns (utc_timestamp db) (jobs_auto_increment db)
                  (if alreadyRunning then STATUS_TESTMODE else STATUS_NOTSTARTED)
                  client cmdLine uuid1_bytes clientInfo clientKey params minimumWorkers
                  maximumWorkers jobType priority) as Hcols.
    cbv zeta in Hcols.
    match type of Hcols with col ?x _ = _ /\ _ => set (r0 := x) in * end.
    destruct Hcols as (Hid & Hst & Hcl & _ & _ & Hcmdl & Hpar & Hjh & _ & _ & _ & _
                       & Hconn & Hstart & Hcancel).
    assert (Hdup : duplicate_entry jobs_schema r0 (jobs db) = false)
      by (apply new_job_no_collision; assumption).
    split.
    + unfold _insertOrGetUniqueJobNoRetries, bind, assert_.
      apply String.eqb_neq in Hcmd. apply Nat.leb_le in Hclient.
      rewrite Hclient, Hcmd, Hlen, Nat.eqb_refl. cbn [negb ret].
      unfold execute_insert. cbv beta iota zeta.
      cbn [table_schema table_rows table_auto_increment].
      fold (job_insert_values (if alreadyRunning then STATUS_TESTMODE else STATUS_NOTSTARTED)
              client cmdLine uuid1_bytes clientInfo clientKey params minimumWorkers
              maximumWorkers jobType priority).
      fold r0. rewrite Hdup.
      cbn [fst snd Nat.eqb ret]. unfold py_eq.
      rewrite bool_decide_eq_false_2 by (intros H; injection H as H; contradiction).
      unfold r, inserted_job. fold r0. destruct alreadyRunning; [|reflexivity].
      unfold ret. cbv beta iota. rewrite execute_update_unlimited.
      cbn [table_rows table_schema append_row jobs utc_timestamp].
      fold (already_running_values conn).
      rewrite List.map_app, updated_rows_elsewhere.
      * cbn [map]. rewrite updated_row_changed; [reflexivity|].
        unfold counts_changed, col_eq. rewrite Hid. cbn [to_sql].
        rewrite sql_eq_refl by discriminate. cbn [andb].
        apply (row_changed_intro _ _ _ ("_eng_cjm_conn_id", EParam (PInt conn)));
          [left; reflexivity|].
        cbn [fst]. rewrite Hconn. unfold already_running_values.
        rewrite (col_apply_assignments_head jobs_schema _ "_eng_cjm_conn_id") by reflexivity.
        discriminate.
      * apply List.Forall_impl with (2 := Hids). intros x [Hnn Hne].
        unfold col_eq. cbn [to_sql].
        destruct (sql_eq (col x "job_id") (VInt (jobs_auto_increment db))) eqn:Heq;
          [|reflexivity].
        apply sql_eq_true in Heq as [Heq _]. contradiction.
    + unfold r, inserted_job. fold r0.
      assert (Hkeep : forall c,
                forallb (fun ce => negb (String.eqb (fst ce) c)) (already_running_values conn)
                = true ->
                col (if alreadyRunning
                     then apply_assignments jobs_schema (utc_timestamp db)
                            (already_running_values conn) r0
                     else r0) c = col r0 c).
      { intros c Hc. destruct alreadyRunning; [|reflexivity].
        apply col_apply_assignments_notin. exact Hc. }
      split; [rewrite Hkeep by reflexivity; exact Hid|].
      split; [rewrite Hkeep by reflexivity; exact Hcl|].
      split; [rewrite Hkeep by reflexivity; exact Hcmdl|].
      split; [rewrite Hkeep by reflexivity; exact Hpar|].
      split; [rewrite Hkeep by reflexivity; exact Hjh|].
      split; [rewrite Hkeep by reflexivity; exact Hcancel|].
      split; [rewrite Hkeep by reflexivity; exact Hst|].
      split.
      * destruct alreadyRunning; [|exact Hconn].
        exact (col_apply_assignments_head jobs_schema (utc_timestamp db) "_eng_cjm_conn_id"
                 (EParam (PInt conn))
                 [("start_time", EUtcTimestamp); ("_eng_last_update_time", EUtcTimestamp)]
                 r0 eq_refl).
      * destruct alreadyRunning; [|exact Hstart].
        exact (col_apply_assigned jobs_schema (utc_timestamp db)
                 [("_eng_cjm_conn_id", EParam (PInt conn))] "start_time" EUtcTimestamp
                 [("_eng_last_update_time", EUtcTimestamp)] r0 eq_refl).
Qed.

Lemma jobInsert_new_job_witness :
  fst (jobInsert 7 "0123456789abcdef" "UI" "run" "" "" "{}" true 0 0 "" 0 db_empty)
  = Ok (PInt 1000).
Proof.
  destruct (jobInsert_new_job 7 "0123456789abcdef" "UI" "run" "" "" "{}" true 0 0 "" 0
              db_empty eq_refl) as [_ H].
  destruct (H ltac:(discriminate) ltac:(unfold CLIENT_MAX_LEN; cbn; lia) db_empty_ok eq_refl) as [Hrun _].
  rewrite Hrun. reflexivity.
Defined.

(** ** The models of a job *)

Lemma not_killed_killed r : not_killed true r = negb (killed r).
Proof.
  unfold not_killed, killed, sql_is_null, sql_ne, sql_eq.
  destruct (col r "completion_reason"); reflexivity.
Qed.

Lemma execute_select_fetched t cols (where_ : row -> bool) db :
  execute_select t cols where_ None db
  = (Ok (fetched cols (List.filter where_ (table_rows t db))), db).
Proof.
  unfold execute_select, sql_select, fetched. rewrite map_map.
  do 2 f_equal. apply map_ext. intros r. rewrite map_map. reflexivity.
Qed.

Lemma fields_for_job_eval (extra : row -> bool) j fields cols db :
  fields <> [] ->
  map_result (dict_getitem (pubToDBNameDict _models)) fields = Ok cols ->
  (exec assert_ (1 <=? length fields)%nat in
   let* dbFields := models_columns fields in
   let* rows := execute_select ModelsTable ("model_id" :: dbFields)
                  (fun r => col_eq r "job_id" (PInt j) && extra r) None in
   ret (id_and_fields rows)) db
  = (Ok (ids_with_fields "model_id" cols
           (List.filter extra (List.filter (model_of (PInt j)) (models db)))), db).
Proof.
  intros Hne Hcols. unfold bind, assert_, models_columns, lift.
  destruct fields as [|f fields]; [contradiction|]. cbn [length Nat.leb ret].
  rewrite Hcols, execute_select_fetched. unfold ret.
  rewrite id_and_fields_fetched. cbn [table_rows].
  rewrite <- filter_andb. reflexivity.
Qed.


(** ** A model that was just inserted *)




Lemma jobGetModelIDs_eval j db :
  jobGetModelIDs (PInt j) db
  = (Ok (model_ids (List.filter (model_of (PInt j)) (models db))), db).
Proof.
  unfold jobGetModelIDs, bind. rewrite select_by_scalar; try reflexivity; [|discriminate].
  cbn [table_rows]. unfold ret, fetched, model_ids. rewrite map_map. reflexivity.
Qed.




(** ** [modelsClearAll] *)

Lemma normalizeHash_accepts hashValue :
  (String.length hashValue <= HASH_MAX_LEN)%nat -> exists h, _normalizeHash hashValue = Ok h.
Proof.
  intros H. unfold _normalizeHash. cbv zeta.
  destruct (String.length hashValue <? HASH_MAX_LEN)%nat; [eexists; reflexivity|].
  apply Nat.leb_le in H. rewrite H. eexists. reflexivity.
Qed.

Lemma modelsInfo_empty ids db :
  ids <> [] -> models db = [] -> modelsInfo ids db = (Raise AssertionError, db).
Proof.
  intros Hne Hempty.
  destruct named_lengths as (L & _).
  destruct named_columns_known as (K & _ & _ & _ & _ & _ & Kid & _).
  unfold modelsInfo, bind, assert_.
  destruct ids as [|i ids]; [contradiction|]. cbn [is_nil negb ret].
  rewrite (proj1 (models_columns_named db)).
  rewrite select_by_ids; [|exact Kid|discriminate|exact K].
  cbn [table_rows]. rewrite Hempty. reflexivity.
Qed.

(** X22: [modelsClearAll] never raises.  It leaves no model and keeps the
    jobs and both AUTO_INCREMENT counters.  Afterwards no job has models,
    [modelsInfo] fails its assertion for any ids, and, whatever the hashes,
    [modelInsertAndStart] inserts: the model is ours and its id is the next
    AUTO_INCREMENT value, so that no id of a deleted model is given again. *)
Theorem modelsClearAll_clears conn db :
  exists db',
    modelsClearAll db = (Ok tt, db')
    /\ models db' = []
    /\ jobs db' = jobs db
    /\ jobs_auto_increment db' = jobs_auto_increment db
    /\ models_auto_increment db' = models_auto_increment db
    /\ (forall j, jobGetModelIDs (PInt j) db' = (Ok [], db'))
    /\ (forall ids, ids <> [] -> modelsInfo ids db' = (Raise AssertionError, db'))
    /\ (forall j params paramsHash particleHash,
          (String.length paramsHash <= HASH_MAX_LEN)%nat ->
          (String.length match particleHash with
                         | None => paramsHash
                         | Some h => h
                         end <= HASH_MAX_LEN)%nat ->
          models_auto_increment db <> 0 ->
          fst (modelInsertAndStart conn (fun d => d) (PInt j) params paramsHash particleHash
                 db')
          = Ok (PInt (models_auto_increment db), true)).
Proof.
  exists (set_table_rows ModelsTable [] db).
  split; [reflexivity|]. split; [reflexivity|]. split; [reflexivity|].
  split; [reflexivity|]. split; [reflexivity|]. split; [|split].
  - intros j. rewrite jobGetModelIDs_eval. reflexivity.
  - intros ids Hne. apply modelsInfo_empty; [exact Hne|reflexivity].
  - intros j params paramsHash particleHash Hlen1 Hlen2 Hauto.
    destruct (normalizeHash_accepts paramsHash Hlen1) as [ph Hph].
    destruct (normalizeHash_accepts _ Hlen2) as [pth Hpth].
    rewrite (modelInsertAndStart_eval conn _ j params paramsHash particleHash ph pth _
               Hph Hpth).
    cbn [models set_table_rows List.filter duplicate_entry existsb].
    cbv zeta. cbn [models set_table_rows List.filter duplicate_entry existsb].
    unfold py_eq.
    rewrite bool_decide_eq_false_2 by (intros H; injection H as H; contradiction).
    reflexivity.
Qed.

(** ** [modelSetCompleted] *)

Lemma completed_model_columns now completionReason completionMsg cpuTime r n :
  col r "update_counter" = VInt n ->
  let r1 := completed_model now completionReason completionMsg cpuTime r in
  col r1 "status" = VStr STATUS_COMPLETED
  /\ col r1 "completion_reason" = to_sql completionReason
  /\ col r1 "completion_msg" = VStr match completionMsg with
                                    | None => ""
                                    | Some msg => msg
                                    end
  /\ col r1 "end_time" = VTime now
  /\ col r1 "cpu_time" = to_sql cpuTime
  /\ col r1 "_eng_last_update_time" = VTime now
  /\ col r1 "update_counter" = VInt (n + 1)
  /\ forall c, ~ In c (map fst (model_completed_values completionReason completionMsg cpuTime))
       -> col r1 c = col r c.
Proof.
  intros Hn r1. unfold r1, completed_model.
  repeat match goal with |- _ /\ _ => split end;
    try (unfold model_completed_values, apply_assignments;
         cbn [fold_left fst snd eval_expr to_sql]; col_insert_simpl;
         rewrite ?Hn; reflexivity).
  intros c Hc. apply col_apply_other. exact Hc.
Qed.

Lemma modelSetCompleted_eval conn modelID completionReason completionMsg cpuTime
    useConnectionID db r n :
  List.filter (model_is modelID) (models db) = [r] ->
  col r "update_counter" = VInt n ->
  modelSetCompleted conn modelID completionReason completionMsg cpuTime useConnectionID db
  = if owned_model conn useConnectionID r
    then (Ok tt,
          set_table_rows ModelsTable
            (replace_where (model_is modelID)
               (completed_model (utc_timestamp db) completionReason completionMsg cpuTime r)
               (models db))
            db)
    else (Raise InvalidConnectionException, db).
Proof.
  intros Hrow Hn.
  pose proof (update_one_row ModelsTable
                (model_completed_values completionReason completionMsg cpuTime)
                (model_is modelID) (owned_model conn useConnectionID) db r Hrow) as Hupd.
  cbv zeta in Hupd. cbn [table_schema table_rows] in Hupd.
  fold (completed_model (utc_timestamp db) completionReason completionMsg cpuTime r) in Hupd.
  destruct (completed_model_columns (utc_timestamp db) completionReason completionMsg cpuTime
              r n Hn) as (_ & _ & _ & _ & _ & _ & Hcnt & _).
  assert (Hch : row_changed (model_completed_values completionReason completionMsg cpuTime) r
                  (completed_model (utc_timestamp db) completionReason completionMsg cpuTime r)
                = true).
  { apply (row_changed_intro _ _ _ ("update_counter", EPlus "update_counter" 1)).
    - unfold model_completed_values. cbn [In]. tauto.
    - cbn [fst]. rewrite Hcnt, Hn. intros H. injection H as H. lia. }
  rewrite Hch, andb_true_r in Hupd.
  unfold modelSetCompleted, bind.
  change (execute_update ModelsTable _ _ None db)
    with (execute_update ModelsTable
            (model_completed_values completionReason completionMsg cpuTime)
            (fun x => model_is modelID x && owned_model conn useConnectionID x) None db).
  rewrite Hupd.
  destruct (owned_model conn useConnectionID r); reflexivity.
Qed.

(** X23: [modelSetCompleted] on a model of another session raises
    [InvalidConnectionException] and changes nothing, unless it is called
    with [useConnectionID=False].  Otherwise it writes the status
    [completed], the reason, the message ([''] for [None]), the end time and
    the CPU time, adds 1 to the update counter, and leaves the other columns
    of the model, the other models and the jobs as they are. *)
Theorem modelSetCompleted_completes conn modelID completionReason completionMsg cpuTime
    useConnectionID db r n :
  List.filter (model_is modelID) (models db) = [r] ->
  col r "update_counter" = VInt n ->
  (owned_model conn useConnectionID r = false ->
     modelSetCompleted conn modelID completionReason completionMsg cpuTime useConnectionID db
     = (Raise InvalidConnectionException, db))
  /\ (owned_model conn useConnectionID r = true ->
        exists db1 r1,
          modelSetCompleted conn modelID completionReason completionMsg cpuTime
            useConnectionID db = (Ok tt, db1)
          /\ List.filter (model_is modelID) (models db1) = [r1]
          /\ others (model_is modelID) (models db1) = others (model_is modelID) (models db)
          /\ jobs db1 = jobs db
          /\ col r1 "status" = VStr STATUS_COMPLETED
          /\ col r1 "completion_reason" = to_sql completionReason
          /\ col r1 "completion_msg" = VStr match completionMsg with
                                            | None => ""
                                            | Some msg => msg
                                            end
          /\ col r1 "end_time" = VTime (utc_timestamp db)
          /\ col r1 "cpu_time" = to_sql cpuTime
          /\ col r1 "update_counter" = VInt (n + 1)
          /\ col r1 "job_id" = col r "job_id"
          /\ col r1 "results" = col r "results"
          /\ col r1 "_eng_worker_conn_id" = col r "_eng_worker_conn_id").
Proof.
  intros Hrow Hn.
  rewrite (modelSetCompleted_eval conn modelID completionReason completionMsg cpuTime
             useConnectionID db r n Hrow Hn).
  split; intros Hown; rewrite Hown; [reflexivity|].
  destruct (completed_model_columns (utc_timestamp db) completionReason completionMsg cpuTime
              r n Hn) as (H1 & H2 & H3 & H4 & H5 & _ & H7 & Hother).
  set (r1 := completed_model (utc_timestamp db) completionReason completionMsg cpuTime r) in *.
  assert (Hid : model_is modelID r1 = true).
  { unfold model_is, r1, completed_model.
    rewrite key_kept_by_assignments by (cbn; intuition discriminate).
    exact (filter_singleton_holds _ _ _ Hrow). }
  eexists. exists r1. split; [reflexivity|]. rewrite models_set_table_rows.
  split; [apply (filter_replace_where _ r); assumption|].
  split; [apply others_replace_where; exact Hid|]. split; [reflexivity|].
  do 6 (split; [assumption|]).
  repeat split; apply Hother; cbn; intuition discriminate.
Qed.

Lemma modelSetCompleted_completes_witness :
  modelSetCompleted 8 (PInt 1000) (PStr CMPL_REASON_KILLED) None (PInt 0) true
    (db_one_model 7 3)
  = (Raise InvalidConnectionException, db_one_model 7 3).
Proof.
  apply (proj1 (modelSetCompleted_completes 8 (PInt 1000) (PStr CMPL_REASON_KILLED) None
                  (PInt 0) true (db_one_model 7 3) (example_model 1000 1000 7 3) 3
                  (example_model_row 7 3) ltac:(vm_compute; reflexivity))).
  vm_compute. reflexivity.
Defined.

(** ** Killed models *)

Lemma filter_replace_where_out (key P : row -> bool) (r' : row) (tbl : list row) :
  P r' = false ->
  List.filter P (replace_where key r' tbl) = List.filter P (others key tbl).
Proof.
  intros Hr'. unfold replace_where, others.
  induction tbl as [|x tbl IH]; [reflexivity|]. cbn [map List.filter].
  destruct (key x); cbn [negb List.filter].
  - rewrite Hr'. exact IH.
  - rewrite IH. reflexivity.
Qed.

Lemma filter_replace_where_commute (key P : row -> bool) (r r' : row) (tbl : list row) :
  List.filter key tbl = [r] -> P r = true -> P r' = true ->
  List.filter P (replace_where key r' tbl) = replace_where key r' (List.filter P tbl).
Proof.
  intros Hrow Hr Hr'. unfold replace_where.
  assert (Hkey : forall x, In x tbl -> key x = true -> P x = true).
  { intros x Hin Hx.
    assert (Hx' : In x (List.filter key tbl)) by (apply List.filter_In; tauto).
    rewrite Hrow in Hx'. destruct Hx' as [<-|[]]. exact Hr. }
  clear Hrow. induction tbl as [|x tbl IH]; [reflexivity|]. cbn [map List.filter].
  assert (IH' := IH (fun y Hy => Hkey y (or_intror Hy))).
  destruct (key x) eqn:Hx.
  - rewrite Hr', (Hkey x (or_introl eq_refl) Hx). cbn [map]. rewrite Hx, IH'. reflexivity.
  - destruct (P x); cbn [map]; rewrite ?Hx, IH'; reflexivity.
Qed.


(** X24: once its owner has completed a model with the reason [killed],
    [modelsGetFieldsForJob] with [ignoreKilled] no longer reports it, and
    reports the other models of the job that were not killed as before;
    [jobGetModelIDs] still lists the model, at its place. *)
Theorem killed_model_ignored conn modelID j completionMsg cpuTime useConnectionID db r n
    fields cols :
  List.filter (model_is modelID) (models db) = [r] ->
  col r "update_counter" = VInt n ->
  col r "job_id" = VInt j ->
  owned_model conn useConnectionID r = true ->
  fields <> [] ->
  map_result (dict_getitem (pubToDBNameDict _models)) fields = Ok cols ->
  exists db1,
    modelSetCompleted conn modelID (PStr CMPL_REASON_KILLED) completionMsg cpuTime
      useConnectionID db = (Ok tt, db1)
    /\ fst (jobGetModelIDs (PInt j) db1) = fst (jobGetModelIDs (PInt j) db)
    /\ fst (modelsGetFieldsForJob (PInt j) fields true db1)
       = Ok (ids_with_fields "model_id" cols
               (List.filter (fun x => negb (killed x))
                  (others (model_is modelID)
                     (List.filter (model_of (PInt j)) (models db)))))
    /\ fst (modelsGetFieldsForJob (PInt j) fields true db)
       = Ok (ids_with_fields "model_id" cols
               (List.filter (fun x => negb (killed x))
                  (List.filter (model_of (PInt j)) (models db)))).
Proof.
  intros Hrow Hn Hj Hown Hne Hcols.
  rewrite (modelSetCompleted_eval conn modelID (PStr CMPL_REASON_KILLED) completionMsg cpuTime
             useConnectionID db r n Hrow Hn), Hown.
  destruct (completed_model_columns (utc_timestamp db) (PStr CMPL_REASON_KILLED) completionMsg
              cpuTime r n Hn) as (_ & Hreason & _ & _ & _ & _ & _ & Hother).
  set (r1 := completed_model (utc_timestamp db) (PStr CMPL_REASON_KILLED) completionMsg
               cpuTime r) in *.
  assert (Hjob1 : col r1 "job_id" = VInt j)
    by (rewrite Hother by (cbn; intuition discriminate); exact Hj).
  assert (Hid1 : col r1 "model_id" = col r "model_id")
    by (apply Hother; cbn; intuition discriminate).
  assert (Hof : model_of (PInt j) r = true)
    by (unfold model_of, col_eq; rewrite Hj; apply sql_eq_refl; discriminate).
  assert (Hof1 : model_of (PInt j) r1 = true)
    by (unfold model_of, col_eq; rewrite Hjob1; apply sql_eq_refl; discriminate).
  assert (Hkilled : negb (killed r1) = false)
    by (unfold killed; rewrite Hreason; cbn [to_sql];
        rewrite sql_eq_refl by discriminate; reflexivity).
  eexists. split; [reflexivity|].
  assert (Hmodels : List.filter (model_of (PInt j))
                      (models (set_table_rows ModelsTable
                                 (replace_where (model_is modelID) r1 (models db)) db))
                    = replace_where (model_is modelID) r1
                        (List.filter (model_of (PInt j)) (models db))).
  { rewrite models_set_table_rows.
    apply (filter_replace_where_commute _ _ r); assumption. }
  split; [|split].
  - rewrite !jobGetModelIDs_eval. cbn [fst]. rewrite Hmodels. f_equal.
    unfold model_ids, replace_where. rewrite map_map. apply map_ext_in. intros x Hx.
    destruct (model_is modelID x) eqn:Hkey; [|reflexivity].
    rewrite Hid1. f_equal. f_equal.
    assert (Hx' : In x (List.filter (model_is modelID) (models db))).
    { apply List.filter_In. split; [|exact Hkey]. apply List.filter_In in Hx. tauto. }
    rewrite Hrow in Hx'. destruct Hx' as [<-|[]]. reflexivity.
  - unfold modelsGetFieldsForJob.
    rewrite (fields_for_job_eval (not_killed true) j fields cols _ Hne Hcols). cbn [fst].
    rewrite Hmodels.
    rewrite (filter_ext_eq _ (fun x => negb (killed x))) by apply not_killed_killed.
    rewrite (filter_replace_where_out _ _ _ _ Hkilled). reflexivity.
  - unfold modelsGetFieldsForJob.
    rewrite (fields_for_job_eval (not_killed true) j fields cols _ Hne Hcols). cbn [fst].
    rewrite (filter_ext_eq _ (fun x => negb (killed x))) by apply not_killed_killed.
    reflexivity.
Qed.

Lemma killed_model_ignored_witness :
  exists db1,
    modelSetCompleted 7 (PInt 1000) (PStr CMPL_REASON_KILLED) None (PInt 0) true
      (db_one_model 7 3) = (Ok tt, db1)
    /\ fst (modelsGetFieldsForJob (PInt 1000) ["status"] true db1) = Ok []
    /\ fst (modelsGetFieldsForJob (PInt 1000) ["status"] true (db_one_model 7 3))
       = Ok [(PInt 1000, [PStr STATUS_RUNNING])].
Proof.
  destruct (killed_model_ignored 7 (PInt 1000) 1000 None (PInt 0) true (db_one_model 7 3)
              (example_model 1000 1000 7 3) 3 ["status"] ["status"]
              (example_model_row 7 3))
    as (db1 & Hrun & _ & Hafter & Hbefore).
  - vm_compute. reflexivity.
  - vm_compute. reflexivity.
  - vm_compute. reflexivity.
  - discriminate.
  - reflexivity.
  - exists db1. split; [exact Hrun|]. split.
    + rewrite Hafter. vm_compute. reflexivity.
    + rewrite Hbefore. vm_compute. reflexivity.
Defined.

(** ** Orphan adoption *)









(** ** Writing one field of a job and reading it back *)

Lemma field_assignments_one info f c v :
  pubToDBNameDict info !! f = Some c ->
  field_assignments info [(f, v)] = Ok [(c, EParam v)].
Proof.
  intros Hf. unfold field_assignments, dict_getitem. cbn [map_result fst snd].
  rewrite Hf. reflexivity.
Qed.

Lemma jobSetFields_one_eval conn jobID f c v useConnectionID ignoreUnchanged db r :
  pubToDBNameDict _jobs !! f = Some c ->
  List.filter (job_is jobID) (jobs db) = [r] ->
  jobSetFields conn jobID [(f, v)] useConnectionID ignoreUnchanged db
  = if owned_job conn useConnectionID r && negb (bool_decide (col r c = to_sql v))
    then (Ok tt, set_table_rows JobsTable
                   (replace_where (job_is jobID) (<[c := to_sql v]> r) (jobs db)) db)
    else (if ignoreUnchanged then Ok tt else Raise RuntimeError, db).
Proof.
  intros Hf Hrow.
  pose proof (update_one_row JobsTable [(c, EParam v)] (job_is jobID)
                (owned_job conn useConnectionID) db r Hrow) as Hupd.
  cbv zeta in Hupd. cbn [table_schema table_rows] in Hupd.
  change (apply_assignments jobs_schema (utc_timestamp db) [(c, EParam v)] r)
    with (<[c := to_sql v]> r) in Hupd.
  assert (Hch : row_changed [(c, EParam v)] r (<[c := to_sql v]> r)
                = negb (bool_decide (col r c = to_sql v))).
  { unfold row_changed. cbn [existsb fst]. rewrite col_insert_eq. apply orb_false_r. }
  rewrite Hch in Hupd.
  unfold jobSetFields, bind, lift. rewrite (field_assignments_one _ f c v Hf).
  cbn [is_nil ret].
  change (execute_update JobsTable _ _ None db)
    with (execute_update JobsTable [(c, EParam v)]
            (fun x => job_is jobID x && owned_job conn useConnectionID x) None db).
  rewrite Hupd.
  destruct (owned_job conn useConnectionID r && negb (bool_decide (col r c = to_sql v)));
    cbn [Nat.eqb negb andb]; [reflexivity|].
  destruct ignoreUnchanged; reflexivity.
Qed.

(** X26: [jobSetFields] with one field changes the job exactly when the
    caller passes the ownership test and the stored value differs from the
    new one: then [jobGetFields] reads the new value as the driver decodes
    it ([True] is read back as 1), and the other columns of the job and the
    other jobs are as before.  Otherwise nothing changes, and the call
    raises [RuntimeError] unless [ignoreUnchanged] is set. *)
Theorem jobSetFields_then_get conn jobID f c v useConnectionID ignoreUnchanged db r :
  pubToDBNameDict _jobs !! f = Some c ->
  c <> "job_id" ->
  List.filter (job_is jobID) (jobs db) = [r] ->
  ((owned_job conn useConnectionID r = false \/ col r c = to_sql v) ->
     jobSetFields conn jobID [(f, v)] useConnectionID ignoreUnchanged db
     = (if ignoreUnchanged then Ok tt else Raise RuntimeError, db))
  /\ (owned_job conn useConnectionID r = true -> col r c <> to_sql v ->
        exists db1 r1,
          jobSetFields conn jobID [(f, v)] useConnectionID ignoreUnchanged db = (Ok tt, db1)
          /\ jobGetFields jobID [f] db1 = (Ok [of_sql (to_sql v)], db1)
          /\ List.filter (job_is jobID) (jobs db1) = [r1]
          /\ (forall c', c' <> c -> col r1 c' = col r c')
          /\ others (job_is jobID) (jobs db1) = others (job_is jobID) (jobs db)
          /\ models db1 = models db).
Proof.
  intros Hf Hc Hrow.
  rewrite (jobSetFields_one_eval conn jobID f c v useConnectionID ignoreUnchanged db r Hf Hrow).
  split.
  - intros [Hown | Hsame].
    + rewrite Hown. reflexivity.
    + rewrite (bool_decide_eq_true_2 _ Hsame), andb_false_r. reflexivity.
  - intros Hown Hdiff.
    rewrite Hown, (bool_decide_eq_false_2 _ Hdiff). cbn [andb negb].
    set (r1 := <[c := to_sql v]> r).
    assert (Hkey : job_is jobID r1 = true).
    { unfold job_is, col_eq, r1. rewrite col_insert_ne by exact Hc.
      exact (filter_singleton_holds _ _ _ Hrow). }
    pose proof (filter_replace_where (job_is jobID) r r1 (jobs db) Hrow Hkey) as Hrow1.
    eexists. exists r1. split; [reflexivity|]. split; [|split; [|split; [|split]]].
    + rewrite (jobGetFields_found jobID f c _ r1 [] Hf) by exact Hrow1.
      unfold r1. rewrite col_insert_eq. reflexivity.
    + exact Hrow1.
    + intros c' Hc'. unfold r1. apply col_insert_ne. congruence.
    + rewrite jobs_set_table_rows. apply others_replace_where. exact Hkey.
    + reflexivity.
Qed.

Lemma jobSetFields_then_get_witness :
  exists db1,
    jobSetFields 7 (PInt 1000) [("cancel", PBool true)] false false
      (db_one_job STATUS_RUNNING 0) = (Ok tt, db1)
    /\ jobGetFields (PInt 1000) ["cancel"] db1 = (Ok [PInt 1], db1).
Proof.
  destruct (proj2 (jobSetFields_then_get 7 (PInt 1000) "cancel" "cancel" (PBool true) false
                     false (db_one_job STATUS_RUNNING 0)
                     (example_job 1000 STATUS_RUNNING 0 50) eq_refl ltac:(discriminate)
                     eq_refl)
              eq_refl ltac:(vm_compute; discriminate))
    as (db1 & r1 & Hset & Hget & _).
  exists db1. split; [exact Hset|exact Hget].
Defined.

(** ** The options of [setup.py] *)

Lemma one_char_ne (c : ascii) (s : string) :
  (2 <= String.length s)%nat -> String.eqb (String c "") s = false.
Proof.
  intros H. apply String.eqb_neq. intros <-. cbn in H. lia.
Qed.

Lemma partition_head (sep : ascii) (arg : string) :
  fst (fst (PyStr.partition sep arg)) = ""
  <-> arg = "" \/ PyStr.startswith_char sep arg = true.
Proof.
  destruct arg as [|c rest]; cbn [PyStr.partition PyStr.startswith_char].
  - split; [left; reflexivity|reflexivity].
  - destruct (Ascii.eqb c sep).
    + split; [right; reflexivity|reflexivity].
    + destruct (PyStr.partition sep rest) as [[head mid] tail]. cbn [fst].
      split; [discriminate|intros [H|H]; discriminate].
Qed.

Lemma names_options_nonempty : names_options "" = false.
Proof. reflexivity. Qed.

Lemma setup_step_option st arg :
  names_options arg = true ->
  Setup.step st arg
  = if PyStr.startswith_char "=" arg then Raise IndexError else Ok st.
Proof.
  intros Hopt. unfold Setup.step. fold (names_options arg). rewrite Hopt.
  pose proof (partition_head "=" arg) as Hhead.
  destruct (PyStr.partition "=" arg) as [[option_ mid] rhs]. cbn [fst] in Hhead.
  destruct option_ as [|c option_]; cbn [PyStr.index0 result_bind].
  - destruct (proj1 Hhead eq_refl) as [-> | ->]; [discriminate Hopt|reflexivity].
  - destruct (PyStr.startswith_char "=" arg) eqn:Heq.
    + destruct Hhead as [_ Hhead]. discriminate (Hhead (or_intror eq_refl)).
    + rewrite !one_char_ne by (cbn; lia). reflexivity.
Qed.

Lemma setup_step_other st arg :
  names_options arg = false ->
  Setup.step st arg
  = Ok (if passed_on arg
        then Setup.mkOptions (Setup.cmakeOptions st) (Setup.makeOptions st)
               (Setup.setupOptions st ++ (arg ++ " "))
               (Setup.mustBuildExtensions st || asks_build arg)
        else st).
Proof.
  intros Hopt. unfold Setup.step, passed_on. fold (names_options arg). rewrite Hopt.
  cbn [negb andb]. destruct (PyStr.contains "setup.py" arg); cbn [negb]; [reflexivity|].
  fold (asks_build arg). destruct (asks_build arg).
  - rewrite orb_true_r. reflexivity.
  - rewrite orb_false_r. reflexivity.
Qed.

Lemma setup_loop_eval st argv :
  Setup.loop st argv
  = if existsb (fun arg => names_options arg && PyStr.startswith_char "=" arg) argv
    then Raise IndexError
    else Ok (Setup.mkOptions (Setup.cmakeOptions st) (Setup.makeOptions st)
               (Setup.setupOptions st ++ spaced (List.filter passed_on argv))
               (Setup.mustBuildExtensions st
                || existsb asks_build (List.filter passed_on argv))).
Proof.
  revert st. induction argv as [|arg argv IH]; intros st.
  - cbn [Setup.loop existsb List.filter]. unfold spaced. cbn [map PyStr.join fold_right].
    rewrite string_app_nil_r, orb_false_r. destruct st; reflexivity.
  - cbn [Setup.loop existsb List.filter].
    destruct (names_options arg) eqn:Hopt.
    + assert (Hp : passed_on arg = false) by (unfold passed_on; rewrite Hopt; reflexivity).
      rewrite Hp, (setup_step_option st arg Hopt). cbn [andb].
      destruct (PyStr.startswith_char "=" arg); cbn [orb result_bind]; [reflexivity|].
      apply IH.
    + rewrite (setup_step_other st arg Hopt). cbn [andb orb result_bind]. rewrite IH.
      destruct (existsb _ argv); [reflexivity|].
      destruct (passed_on arg); [|reflexivity].
      cbn [Setup.cmakeOptions Setup.makeOptions Setup.setupOptions
           Setup.mustBuildExtensions List.filter existsb].
      unfold spaced. cbn [map PyStr.join fold_right].
      rewrite !string_app_assoc, orb_assoc. reflexivity.
Qed.

(** X27: the loop over [sys.argv] never sets [cmakeOptions] or
    [makeOptions]: the name of the option is compared by its first
    character only, so that the two shell commands are always run without
    extra options.  An argument that contains [make_options] is dropped, or
    raises [IndexError] when it starts with [=].  The other arguments that
    do not contain [setup.py] are passed on in order, each followed by a
    space, and the extensions are built when one of them contains [build] or
    [install], or when the script was called without arguments. *)
Theorem setup_options_never_set argv :
  Setup.read_options argv
  = (if existsb (fun arg => names_options arg && PyStr.startswith_char "=" arg) argv
     then Raise IndexError
     else Ok (Setup.mkOptions "" "" (spaced (List.filter passed_on argv))
                (existsb asks_build (List.filter passed_on argv)
                 || (length argv =? 1)%nat),
              if (length argv =? 1)%nat then (argv ++ ["develop"])%list else argv))
  /\ forall st argv' sourceDir,
       Setup.read_options argv = Ok (st, argv') ->
       Setup.cmake_command sourceDir st = "cmake " ++ sourceDir ++ " "
       /\ Setup.make_command st = "make ".
Proof.
  assert (Heval : Setup.read_options argv
                  = (if existsb (fun arg => names_options arg
                                            && PyStr.startswith_char "=" arg) argv
                     then Raise IndexError
                     else Ok (Setup.mkOptions "" "" (spaced (List.filter passed_on argv))
                                (existsb asks_build (List.filter passed_on argv)
                                 || (length argv =? 1)%nat),
                              if (length argv =? 1)%nat
                              then (argv ++ ["develop"])%list else argv))).
  { unfold Setup.read_options. rewrite setup_loop_eval.
    destruct (existsb _ argv); [reflexivity|]. cbn [result_bind].
    cbn [Setup.initial Setup.cmakeOptions Setup.makeOptions Setup.setupOptions
         Setup.mustBuildExtensions orb].
    rewrite string_app_nil_l.
    destruct (length argv =? 1)%nat.
    - rewrite orb_true_r. reflexivity.
    - rewrite orb_false_r. reflexivity. }
  split; [exact Heval|].
  intros st argv' sourceDir H. rewrite Heval in H.
  destruct (existsb _ argv); [discriminate|]. injection H as <- _.
  unfold Setup.cmake_command, Setup.make_command. cbn [Setup.cmakeOptions Setup.makeOptions].
  rewrite !string_app_nil_r. split; reflexivity.
Qed.

Lemma setup_options_never_set_witness :
  Setup.read_options ["setup.py"; "install"; "--make_options=-j3"]
  = Ok (Setup.mkOptions "" "" "install " true,
        ["setup.py"; "install"; "--make_options=-j3"])
  /\ Setup.make_command (Setup.mkOptions "" "" "install " true) = "make ".
Proof.
  destruct (setup_options_never_set ["setup.py"; "install"; "--make_options=-j3"])
    as [Heval Hnever].
  split; [rewrite Heval; reflexivity|].
  apply (Hnever _ ["setup.py"; "install"; "--make_options=-j3"] "."). rewrite Heval.
  reflexivity.
Defined.
